(** * Classic-EMU repository inventory scripts: a shallow embedding

    The repository holds three Python scripts that talk to the GitHub REST
    API and write CSV reports:

    - [fetch_repo_details.py]            (module [Details])
    - [fetch_repo_details_inventory.py]  (module [Inventory])
    - [fetch_repo_list.py]               (module [RepoList])

    Each script is embedded as monadic code over an explicit [World]
    (clock, requests sent, error log, console, sleeps, CSV file) and an
    explicit [Server] that answers the n-th HTTP request.  Python
    exceptions are results of the monad; [while] loops take fuel. *)

From Stdlib Require Import ZArith List String Ascii Bool Lia.
Import ListNotations.
Set Warnings "-register-all".
Local Open Scope string_scope.
Local Open Scope list_scope.
Local Open Scope Z_scope.

(** ** Python values *)

(** Decoded JSON, which is also the shape of every Python value the
    scripts hold ([None] is [JNull]).  Numbers are integers; an object is
    an association list without repeated keys, in insertion order. *)
Inductive json : Type :=
| JNull
| JBool (b : bool)
| JNum (z : Z)
| JStr (s : string)
| JList (l : list json)
| JObj (kvs : list (string * json)).

(** The exceptions the scripts can meet. *)
Inductive exn : Type :=
| ConnectionError (msg : string)
| ChunkedEncodingError (msg : string)
| RequestException (msg : string)
| HTTPError (status : Z)
| JSONDecodeError
| KeyError (k : string)
| IndexError
| TypeError
| AttributeError
| ValueError
| OverflowError
| OtherError (msg : string)
| SystemExit (code : Z).      (* raised by exit(code); not an Exception *)

(** [isinstance(e, Exception)] *)
Definition is_exception (e : exn) : bool :=
  match e with
  | SystemExit _ => false
  | _ => true
  end.

(** [except (ConnectionError, ChunkedEncodingError)] *)
Definition is_connection_error (e : exn) : bool :=
  match e with
  | ConnectionError _ | ChunkedEncodingError _ => true
  | _ => false
  end.

(** [except requests.RequestException]: the two above, [HTTPError], the
    JSON decoding error of [response.json()] and the other exceptions of
    the requests library. *)
Definition is_request_exception (e : exn) : bool :=
  match e with
  | ConnectionError _ | ChunkedEncodingError _ | RequestException _
  | HTTPError _ | JSONDecodeError => true
  | _ => false
  end.

(** [bool(v)] *)
Definition truthy (v : json) : bool :=
  match v with
  | JNull => false
  | JBool b => b
  | JNum z => negb (z =? 0)
  | JStr s => negb (String.eqb s "")
  | JList l => match l with [] => false | _ => true end
  | JObj kvs => match kvs with [] => false | _ => true end
  end.

Fixpoint assoc {A : Type} (k : string) (kvs : list (string * A)) : option A :=
  match kvs with
  | [] => None
  | (k', v) :: rest => if String.eqb k k' then Some v else assoc k rest
  end.

Fixpoint chars (s : string) : list json :=
  match s with
  | EmptyString => []
  | String c s' => JStr (String c EmptyString) :: chars s'
  end.

(** [len(v)]; [None] where Python raises [TypeError]. *)
Definition py_len (v : json) : option Z :=
  match v with
  | JStr s => Some (Z.of_nat (String.length s))
  | JList l => Some (Z.of_nat (List.length l))
  | JObj kvs => Some (Z.of_nat (List.length kvs))
  | _ => None
  end.

(** [iter(v)]: what a [for] loop or [list.extend] walks over. *)
Definition py_iter (v : json) : option (list json) :=
  match v with
  | JStr s => Some (chars s)
  | JList l => Some l
  | JObj kvs => Some (map (fun kv => JStr (fst kv)) kvs)
  | _ => None
  end.

Fixpoint is_prefix (p s : string) : bool :=
  match p, s with
  | EmptyString, _ => true
  | String a p', String b s' => Ascii.eqb a b && is_prefix p' s'
  | String _ _, EmptyString => false
  end.

(** [p in s] on strings *)
Fixpoint contains (p s : string) : bool :=
  is_prefix p s ||
  match s with
  | EmptyString => false
  | String _ s' => contains p s'
  end.

Definition lower_ascii (c : ascii) : ascii :=
  let n := nat_of_ascii c in
  if (65 <=? n)%nat && (n <=? 90)%nat then ascii_of_nat (n + 32) else c.

(** [s.lower()], on ASCII letters *)
Fixpoint lower (s : string) : string :=
  match s with
  | EmptyString => EmptyString
  | String c s' => String (lower_ascii c) (lower s')
  end.

Definition is_str (k : string) (v : json) : bool :=
  match v with
  | JStr s => String.eqb k s
  | _ => false
  end.

(** [k in v] for a string [k]; [None] where Python raises [TypeError]. *)
Definition py_in (k : string) (v : json) : option bool :=
  match v with
  | JObj kvs => Some (match assoc k kvs with Some _ => true | None => false end)
  | JList l => Some (existsb (is_str k) l)
  | JStr s => Some (contains k s)
  | _ => None
  end.

Definition digit_of (c : ascii) : option Z :=
  let n := nat_of_ascii c in
  if (48 <=? n)%nat && (n <=? 57)%nat then Some (Z.of_nat (n - 48)) else None.

(** [str.isspace] on the characters of a header value.  Header values
    are strings of one-byte characters, as [http.client] decodes them
    (ISO-8859-1): the ASCII white space, and the two characters above
    127 that Unicode counts as space, NEL and the no-break space. *)
Definition is_space (c : ascii) : bool :=
  let n := nat_of_ascii c in
  ((9 <=? n) && (n <=? 13) || (n =? 32) || (n =? 133) || (n =? 160))%nat.

Fixpoint lstrip (s : string) : string :=
  match s with
  | EmptyString => EmptyString
  | String c s' => if is_space c then lstrip s' else s
  end.

(** Where the scan of an integer literal stands. *)
Inductive scanned : Type :=
| Nothing        (* no digit yet *)
| Digit          (* just after a digit *)
| Underscore     (* just after an underscore between digits *)
| Trailing.      (* in the white space after the digits *)

(** The digits of an integer literal, with single underscores between
    digits and white space after them: the value and the number of
    digits. *)
Fixpoint digits (st : scanned) (acc : Z) (count : nat) (s : string)
    : option (Z * nat) :=
  match s with
  | EmptyString =>
      match st with
      | Digit | Trailing => Some (acc, count)
      | Nothing | Underscore => None
      end
  | String c s' =>
      match st with
      | Trailing => if is_space c then digits Trailing acc count s' else None
      | _ =>
          match digit_of c with
          | Some d => digits Digit (10 * acc + d) (S count) s'
          | None =>
              match st with
              | Digit =>
                  if Ascii.eqb c "_" then digits Underscore acc count s'
                  else if is_space c then digits Trailing acc count s'
                  else None
              | _ => None
              end
          end
      end
  end.

(** [sys.get_int_max_str_digits()], the default of CPython 3.11 and
    later: a longer literal raises [ValueError]. *)
Definition int_max_str_digits : nat := 4300.

(** [int(s)] on a header string, as CPython 3.11 reads it: white space
    around, an optional sign, decimal digits with single underscores
    between them; [None] where Python raises [ValueError]. *)
Definition py_int (s : string) : option Z :=
  let parse (negative : bool) (s : string) :=
    match digits Nothing 0 0 s with
    | Some (v, count) =>
        if (int_max_str_digits <? count)%nat then None
        else Some (if negative then - v else v)
    | None => None
    end in
  match lstrip s with
  | EmptyString => None
  | String c s' =>
      if Ascii.eqb c "-" then parse true s'
      else if Ascii.eqb c "+" then parse false s'
      else parse false (String c s')
  end.

(** ** The outside world *)

(** The endpoints the scripts build with f-strings.  [org] is the
    configured organisation; [repo], [number] and [ref] are the values
    interpolated from API data. *)
Inductive Url : Type :=
| OrgRepos (org : string)                       (* /orgs/{org}/repos *)
| Pulls (org : string) (repo : json)            (* /repos/{org}/{repo}/pulls *)
| Pull (org : string) (repo number : json)      (* /repos/{org}/{repo}/pulls/{number} *)
| Issues (org : string) (repo : json)           (* /repos/{org}/{repo}/issues *)
| Branches (org : string) (repo : json)         (* /repos/{org}/{repo}/branches *)
| Tags (org : string) (repo : json)             (* /repos/{org}/{repo}/tags *)
| Commits (org : string) (repo : json)          (* /repos/{org}/{repo}/commits *)
| CommitRef (org : string) (repo ref : json)    (* /repos/{org}/{repo}/commits/{ref} *)
| Releases (org : string) (repo : json).        (* /repos/{org}/{repo}/releases *)

Record Request : Type := mkRequest {
  req_url : Url;
  req_authorization : string;
  req_params : option (list (string * json))
}.

(** An HTTP response: [json_body] is what [response.json()] decodes from
    the body, [None] when the body is not JSON.  Header names are kept
    in the spelling the scripts look them up with. *)
Record Response : Type := mkResponse {
  status_code : Z;
  text : string;
  headers : list (string * string);
  json_body : option json
}.

(** What [requests.get] does: a response comes back, or it raises. *)
Inductive net_result : Type :=
| Answers (r : Response)
| Fails (e : exn).

(** The remote side: the answer to the n-th request of the run (counted
    from 0), which may depend on the request. *)
Definition Server : Type := nat -> Request -> net_result.

(** Lines of [error_log.txt], before formatting. *)
Inductive log_msg : Type :=
| FailedGET (url : Url) (status : Z) (body : string)
| ConnectionErrorRetry (url : Url) (e : exn) (retries max_retries : Z)
| UnexpectedError (url : Url) (e : exn)
| MaxRetriesExceeded (url : Url)
| ErrorProcessing (name : json) (e : exn).

(** Lines printed on the console (and, in [fetch_repo_list.py], sent to
    the [logging] module as well); the literal ones are kept without
    their leading symbol. *)
Inductive out_msg : Type :=
| Say (s : string)
| RateLimitHit (sleep_time : Z)
| NetworkErrorOnAttempt (attempt : Z) (e : exn)
| RequestFailed (e : exn)
| HttpErrorMessage (status : Z) (message : json)
| Processing (name : json)
| Fetching (org : string)
| Done (org : string).

Inductive cell : Type :=
| CVal (v : json)
| CInt (n : Z)
| CSizeMB (size : Z).      (* round(size / 1024, 2) *)

Definition Row : Type := list (string * cell).

Inductive csv_line : Type :=
| Header (cols : list string)
| DictRow (r : Row)
| ListRow (r : list json).

Record World : Type := mkWorld {
  now : Z;                          (* int(time.time()) *)
  sent : list Request;              (* requests issued, oldest first *)
  error_log : list (Z * log_msg);   (* timestamped lines, oldest first *)
  stdout : list out_msg;
  logging : list (string * out_msg);(* logs/fetch_repos.log: level, line *)
  slept : list Z;                   (* arguments of time.sleep, oldest first *)
  csv : option (list csv_line)      (* None until the file is opened *)
}.

Definition world0 (t : Z) : World := mkWorld t [] [] [] [] [] None.

(** ** The monad: state, exceptions and fuel *)

Inductive result (A : Type) : Type :=
| Ret (a : A)
| Raise (e : exn)
| OutOfFuel.
Arguments Ret {A} a.
Arguments Raise {A} e.
Arguments OutOfFuel {A}.

Definition M (A : Type) : Type := World -> result A * World.

Definition ret {A} (a : A) : M A := fun w => (Ret a, w).
Definition raise {A} (e : exn) : M A := fun w => (Raise e, w).
Definition out_of_fuel {A} : M A := fun w => (OutOfFuel, w).

Definition bind {A B} (m : M A) (f : A -> M B) : M B :=
  fun w =>
    match m w with
    | (Ret a, w') => f a w'
    | (Raise e, w') => (Raise e, w')
    | (OutOfFuel, w') => (OutOfFuel, w')
    end.

(** [try: m  except Exception as e: h e] *)
Definition try_except {A} (m : M A) (h : exn -> M A) : M A :=
  fun w =>
    match m w with
    | (Raise e, w') => if is_exception e then h e w' else (Raise e, w')
    | r => r
    end.

Declare Scope py_scope.
Delimit Scope py_scope with py.
Notation "x <- m ;; k" := (bind m (fun x => k))
  (at level 61, m at next level, right associativity) : py_scope.
Notation "m ;; k" := (bind m (fun _ => k))
  (at level 61, right associativity) : py_scope.
Notation "' pat <- m ;; k" := (bind m (fun x => match x with pat => k end))
  (at level 61, pat pattern, m at next level, right associativity) : py_scope.
Local Open Scope py_scope.

(** [v] or the exception Python raises where the pure helper has no value *)
Definition or_raise {A} (e : exn) (o : option A) : M A :=
  match o with
  | Some a => ret a
  | None => raise e
  end.

(** [int(time.time())] *)
Definition time_time : M Z := fun w => (Ret (now w), w).

(** The longest sleep [time.sleep] takes: CPython keeps the duration in
    nanoseconds in a signed 64-bit integer, and more seconds than these
    do not fit. *)
Definition sleep_max : Z := 9223372036.

(** One hundred years, in seconds.  The statements that follow a sleep
    of any length to its end stay within this: just below [sleep_max]
    the platform's own clock arithmetic can refuse a sleep as well (on
    Linux the deadline is the monotonic clock plus the duration). *)
Definition a_century : Z := 3155760000.

(** [time.sleep(d)] for an integer [d]: a negative argument raises
    [ValueError], one above [sleep_max] raises [OverflowError]; otherwise
    the clock moves on by [d]. *)
Definition time_sleep (d : Z) : M unit :=
  fun w =>
    if d <? 0 then (Raise ValueError, w)
    else if sleep_max <? d then (Raise OverflowError, w)
    else (Ret tt, mkWorld (now w + d) (sent w) (error_log w) (stdout w)
                          (logging w) (slept w ++ [d]) (csv w)).

Definition print (m : out_msg) : M unit :=
  fun w => (Ret tt, mkWorld (now w) (sent w) (error_log w) (stdout w ++ [m])
                            (logging w) (slept w) (csv w)).

(** [log_error(msg)]: append one timestamped line to the error log. *)
Definition log_error (m : log_msg) : M unit :=
  fun w => (Ret tt, mkWorld (now w) (sent w) (error_log w ++ [(now w, m)])
                            (stdout w) (logging w) (slept w) (csv w)).

(** [logging.warning], [logging.error], [logging.info] *)
Definition logging_at (level : string) (m : out_msg) : M unit :=
  fun w => (Ret tt, mkWorld (now w) (sent w) (error_log w) (stdout w)
                            (logging w ++ [(level, m)]) (slept w) (csv w)).

(** [open(filename, "w")] followed by the header row *)
Definition open_csv (cols : list string) : M unit :=
  fun w => (Ret tt, mkWorld (now w) (sent w) (error_log w) (stdout w)
                            (logging w) (slept w) (Some [Header cols])).

Definition write_line (l : csv_line) : M unit :=
  fun w => (Ret tt, mkWorld (now w) (sent w) (error_log w) (stdout w)
                            (logging w) (slept w)
                            (Some (match csv w with Some ls => ls | None => [] end ++ [l]))).

Section Net.
Variable server : Server.

(** [requests.get(url, headers=..., params=params)] *)
Definition requests_get (authorization : string) (url : Url)
    (params : option (list (string * json))) : M Response :=
  fun w =>
    let rq := mkRequest url authorization params in
    let w' := mkWorld (now w) (sent w ++ [rq]) (error_log w) (stdout w)
                      (logging w) (slept w) (csv w) in
    match server (List.length (sent w)) rq with
    | Answers r => (Ret r, w')
    | Fails e => (Raise e, w')
    end.
End Net.

(** [response.json()] *)
Definition response_json (r : Response) : M json :=
  or_raise JSONDecodeError (json_body r).

(** [response.headers.get(k)] *)
Definition header (k : string) (r : Response) : option string :=
  assoc k (headers r).

(** [v[k]] for a string key *)
Definition getitem (v : json) (k : string) : M json :=
  match v with
  | JObj kvs => or_raise (KeyError k) (assoc k kvs)
  | _ => raise TypeError
  end.

(** [v.get(k, default)] *)
Definition dict_get (v : json) (k : string) (default : json) : M json :=
  match v with
  | JObj kvs => ret (match assoc k kvs with Some x => x | None => default end)
  | _ => raise AttributeError
  end.

(** [len(v)] *)
Definition len (v : json) : M Z := or_raise TypeError (py_len v).

(** [len(v) if v else 0] *)
Definition len_or_zero (v : json) : M Z :=
  if truthy v then len v else ret 0.

(** [for x in v], the values walked over *)
Definition iter (v : json) : M (list json) := or_raise TypeError (py_iter v).

(** [v[0]] *)
Definition getitem0 (v : json) : M json :=
  match v with
  | JList l => or_raise IndexError (hd_error l)
  | JStr s => or_raise IndexError (hd_error (chars s))
  | JObj _ => raise (KeyError "0")
  | _ => raise TypeError
  end.

(** [v / 1024] rounded to two places, kept symbolic in the cell *)
Definition size_mb (v : json) : M cell :=
  match v with
  | JNum z => ret (CSizeMB z)
  | JBool b => ret (CSizeMB (if b then 1 else 0))
  | _ => raise TypeError
  end.

(** [row[k] = c] on a dict that already has the key [k] or not *)
Fixpoint setitem (k : string) (c : cell) (r : Row) : Row :=
  match r with
  | [] => [(k, c)]
  | (k', c') :: rest =>
      if String.eqb k k' then (k', c) :: rest else (k', c') :: setitem k c rest
  end.

(** [sum(1 for i in items if "pull_request" not in i)] *)
Fixpoint count_without (k : string) (items : list json) : M Z :=
  match items with
  | [] => ret 0
  | i :: rest =>
      marked <- or_raise TypeError (py_in k i) ;;
      n <- count_without k rest ;;
      ret ((if marked then 0 else 1) + n)
  end.

(** The 17 columns of the report. *)
Definition fieldnames : list string :=
  ["Repo Name"; "Visibility"; "Created At"; "Updated At"; "Last Pushed Date";
   "Repo Size (MB)"; "Primary Language"; "Total Open PRs"; "Total Closed PRs";
   "Total Merged PRs"; "Total Open Issues"; "Total Closed Issues";
   "Total Branches"; "Total Releases"; "Total Tags"; "Last Committed Date";
   "Last Committed User"].

(** The [for repo in repos:] loop of both report scripts: the line
    printed before the [try], the [try] body ([aggregate] builds the row,
    [writer.writerow] is its last statement) and the [except Exception]
    handler that logs and goes on. *)
Fixpoint for_each_repo (aggregate : json -> M Row) (repos : list json) : M unit :=
  match repos with
  | [] => ret tt
  | repo :: rest =>
      name <- getitem repo "name" ;;
      print (Processing name) ;;
      try_except
        (row <- aggregate repo ;;
         write_line (DictRow row))
        (fun e =>
           name <- getitem repo "name" ;;
           log_error (ErrorProcessing name e)) ;;
      for_each_repo aggregate rest
  end.

(** ** Configuration *)

(** The process environment and the [.env] file, as key/value lists. *)
Record Config : Type := mkConfig {
  environ : list (string * string);
  dotenv_file : list (string * string)
}.

(** [load_dotenv()]: variables of the [.env] file are added to the
    environment, those already set are kept. *)
Definition load_dotenv (c : Config) : Config :=
  mkConfig (environ c ++ dotenv_file c) (dotenv_file c).

(** [os.getenv(k)] *)
Definition getenv (c : Config) (k : string) : option string :=
  assoc k (environ c).

(** [bool(v)] for the value of [os.getenv] *)
Definition is_set (v : option string) : bool :=
  match v with
  | Some s => negb (String.eqb s "")
  | None => false
  end.

(** [f"{v}"] for the value of [os.getenv] *)
Definition format_env (v : option string) : string :=
  match v with
  | Some s => s
  | None => "None"
  end.

(** The exit status of the process once the script's top level is over:
    0 after a normal end, the code of [exit(code)], 1 after an uncaught
    exception; nothing while the script has not come to an end. *)
Definition exit_status {A} (r : result A) : option Z :=
  match r with
  | Ret _ => Some 0
  | Raise (SystemExit code) => Some code
  | Raise _ => Some 1
  | OutOfFuel => None
  end.

(** ** fetch_repo_details.py *)

Module Details.

(** What one pass of the [while] body decides. *)
Inductive ctl : Type :=
| Continue (retries : Z)
| Return (v : json).

Section Script.
Variable server : Server.
(** [HEADERS["Authorization"]], that is [f"Bearer {GITHUB_TOKEN}"] *)
Variable authorization : string.
(** Fuel of the [while] loop inside every call of [github_api_get];
    the pagination loops take their own. *)
Variable api_fuel : nat.

(** Lines 24-42: the [try] statement inside the [while] loop. *)
Definition attempt (url : Url) (params : option (list (string * json)))
    (max_retries retries : Z) : M ctl :=
  try_except
    (response <- requests_get server authorization url params ;;
     if (status_code response =? 403)
        && contains "rate limit" (lower (text response)) then
       t0 <- time_time ;;
       reset_time <- match header "X-RateLimit-Reset" response with
                     | Some s => or_raise ValueError (py_int s)
                     | None => ret (t0 + 60)
                     end ;;
       t <- time_time ;;
       let sleep_time := Z.max (reset_time - t) 1 in
       print (RateLimitHit sleep_time) ;;
       time_sleep sleep_time ;;
       ret (Continue retries)
     else if negb ((status_code response =? 200) || (status_code response =? 201)) then
       log_error (FailedGET url (status_code response) (text response)) ;;
       ret (Return JNull)
     else
       v <- response_json response ;;
       ret (Return v))
    (fun e =>
       if is_connection_error e then
         let retries := retries + 1 in
         log_error (ConnectionErrorRetry url e retries max_retries) ;;
         time_sleep (5 * retries) ;;
         ret (Continue retries)
       else
         log_error (UnexpectedError url e) ;;
         ret (Return JNull)).

(** Lines 23-44: [while retries < max_retries: ...], then the
    give-up lines. *)
Fixpoint github_api_get_from (fuel : nat) (url : Url)
    (params : option (list (string * json))) (max_retries retries : Z)
    : M json :=
  match fuel with
  | O => out_of_fuel
  | S fuel' =>
      if retries <? max_retries then
        c <- attempt url params max_retries retries ;;
        match c with
        | Continue retries' =>
            github_api_get_from fuel' url params max_retries retries'
        | Return v => ret v
        end
      else
        log_error (MaxRetriesExceeded url) ;;
        ret JNull
  end.

Definition github_api_get (url : Url)
    (params : option (list (string * json))) : M json :=
  github_api_get_from api_fuel url params 5 0.

(** [repos.extend(data)] *)
Definition extend (acc : list json) (data : json) : M (list json) :=
  items <- or_raise TypeError (py_iter data) ;;
  ret (acc ++ items).

(** The pagination loop shared by [get_repos], [get_branches] and
    [get_tags]: [params_of page] is the query of that page. *)
Fixpoint paginate (fuel : nat) (url : Url)
    (params_of : Z -> list (string * json)) (per_page page : Z)
    (acc : list json) : M (list json) :=
  match fuel with
  | O => out_of_fuel
  | S fuel' =>
      data <- github_api_get url (Some (params_of page)) ;;
      if negb (truthy data) then ret acc
      else
        acc' <- extend acc data ;;
        n <- or_raise TypeError (py_len data) ;;
        if n <? per_page then ret acc'
        else paginate fuel' url params_of per_page (page + 1) acc'
  end.

Definition repos_params (per_page page : Z) : list (string * json) :=
  [("per_page", JNum per_page); ("page", JNum page); ("type", JStr "all")].

Definition get_repos (fuel : nat) (org : string) : M (list json) :=
  paginate fuel (OrgRepos org) (repos_params 100) 100 1 [].

(** Lines 76-80: [for pr in prs:] *)
Fixpoint count_merged (org : string) (repo : json)
    (prs : list json) (merged_prs : Z) : M Z :=
  match prs with
  | [] => ret merged_prs
  | pr :: rest =>
      number <- getitem pr "number" ;;
      pr_data <- github_api_get (Pull org repo number) None ;;
      merged <- (if truthy pr_data then
                   m <- dict_get pr_data "merged_at" JNull ;;
                   ret (truthy m)
                 else ret false) ;;
      count_merged org repo rest
                   (if merged then merged_prs + 1 else merged_prs)
  end.

(** Lines 72-83: [while True:] over the closed pull requests *)
Fixpoint merged_loop (fuel : nat) (org : string) (repo : json)
    (per_page page merged_prs : Z) : M Z :=
  match fuel with
  | O => out_of_fuel
  | S fuel' =>
      prs <- github_api_get (Pulls org repo)
               (Some [("state", JStr "closed"); ("per_page", JNum per_page);
                      ("page", JNum page)]) ;;
      if negb (truthy prs) then ret merged_prs
      else
        items <- iter prs ;;
        merged_prs' <- count_merged org repo items merged_prs ;;
        n <- len prs ;;
        if n <? per_page then ret merged_prs'
        else merged_loop fuel' org repo per_page (page + 1) merged_prs'
  end.

Definition get_pr_counts (fuel : nat) (org : string) (repo : json)
    : M (Z * Z * Z) :=
  let url := Pulls org repo in
  open_prs <- github_api_get url
                (Some [("state", JStr "open"); ("per_page", JNum 1)]) ;;
  closed_prs <- github_api_get url
                  (Some [("state", JStr "closed"); ("per_page", JNum 1)]) ;;
  closed_count <- len_or_zero closed_prs ;;
  merged_prs <- (if truthy closed_prs
                 then merged_loop fuel org repo 100 1 0
                 else ret 0) ;;
  open_count <- len_or_zero open_prs ;;
  ret (open_count, closed_count, merged_prs).

(** Lines 91-103: the inner function [count_issues(state)] *)
Fixpoint count_issues (fuel : nat) (url : Url) (state : string)
    (per_page page count : Z) : M Z :=
  match fuel with
  | O => out_of_fuel
  | S fuel' =>
      issues <- github_api_get url
                  (Some [("state", JStr state); ("per_page", JNum per_page);
                         ("page", JNum page)]) ;;
      if negb (truthy issues) then ret count
      else
        items <- iter issues ;;
        k <- count_without "pull_request" items ;;
        let count' := count + k in
        n <- len issues ;;
        if n <? per_page then ret count'
        else count_issues fuel' url state per_page (page + 1) count'
  end.

Definition get_issue_counts (fuel : nat) (org : string) (repo : json)
    : M (Z * Z) :=
  let url := Issues org repo in
  _ <- github_api_get url
         (Some [("state", JStr "open"); ("per_page", JNum 1)]) ;;
  _ <- github_api_get url
         (Some [("state", JStr "closed"); ("per_page", JNum 1)]) ;;
  open_count <- count_issues fuel url "open" 100 1 0 ;;
  closed_count <- count_issues fuel url "closed" 100 1 0 ;;
  ret (open_count, closed_count).

Definition page_params (per_page page : Z) : list (string * json) :=
  [("per_page", JNum per_page); ("page", JNum page)].

Definition get_branches (fuel : nat) (org : string) (repo : json) : M Z :=
  branches <- paginate fuel (Branches org repo) (page_params 100) 100 1 [] ;;
  ret (Z.of_nat (List.length branches)).

Definition get_tags (fuel : nat) (org : string) (repo : json) : M Z :=
  tags <- paginate fuel (Tags org repo) (page_params 100) 100 1 [] ;;
  ret (Z.of_nat (List.length tags)).

Definition get_last_commit (org : string)
    (repo default_branch : json) : M (json * json) :=
  data <- github_api_get (Commits org repo)
            (Some [("sha", default_branch); ("per_page", JNum 1)]) ;;
  if truthy data then
    n <- len data ;;
    if 0 <? n then
      commit <- getitem0 data ;;
      c <- getitem commit "commit" ;;
      committer <- getitem c "committer" ;;
      date <- getitem committer "date" ;;
      c' <- getitem commit "commit" ;;
      committer' <- getitem c' "committer" ;;
      user <- getitem committer' "name" ;;
      ret (date, user)
    else ret (JStr "", JStr "")
  else ret (JStr "", JStr "").

Definition get_primary_language (repo_data : json) : M json :=
  dict_get repo_data "language" (JStr "").

(** Lines 173-200: the [try] body of [main] up to the row that
    [writer.writerow] receives. *)
Definition aggregate (fuel : nat) (org : string) (repo : json) : M Row :=
  name <- getitem repo "name" ;;
  '(open_prs, closed_prs, merged_prs) <- get_pr_counts fuel org name ;;
  name <- getitem repo "name" ;;
  '(open_issues, closed_issues) <- get_issue_counts fuel org name ;;
  name <- getitem repo "name" ;;
  branch_count <- get_branches fuel org name ;;
  name <- getitem repo "name" ;;
  tag_count <- get_tags fuel org name ;;
  name <- getitem repo "name" ;;
  default_branch <- getitem repo "default_branch" ;;
  '(last_commit_date, last_commit_user) <-
    get_last_commit org name default_branch ;;
  name <- getitem repo "name" ;;
  visibility <- getitem repo "visibility" ;;
  created_at <- getitem repo "created_at" ;;
  updated_at <- getitem repo "updated_at" ;;
  pushed_at <- getitem repo "pushed_at" ;;
  size <- getitem repo "size" ;;
  size_cell <- size_mb size ;;
  language <- get_primary_language repo ;;
  fallback <- getitem repo "open_issues_count" ;;
  let row : Row :=
    [("Repo Name", CVal name);
     ("Visibility", CVal visibility);
     ("Created At", CVal created_at);
     ("Updated At", CVal updated_at);
     ("Last Pushed Date", CVal pushed_at);
     ("Repo Size (MB)", size_cell);
     ("Primary Language", CVal language);
     ("Total Open PRs", CInt open_prs);
     ("Total Closed PRs", CInt closed_prs);
     ("Total Merged PRs", CInt merged_prs);
     ("Total Open Issues", CInt open_issues);
     ("Total Closed Issues", CInt closed_issues);
     ("Total Branches", CInt branch_count);
     ("Total Releases", CVal fallback);
     ("Total Tags", CInt tag_count);
     ("Last Committed Date", CVal last_commit_date);
     ("Last Committed User", CVal last_commit_user)] in
  name <- getitem repo "name" ;;
  releases <- github_api_get (Releases org name)
                (Some [("per_page", JNum 1)]) ;;
  n <- len_or_zero releases ;;
  ret (setitem "Total Releases" (CInt n) row).

End Script.

(** The module-level lines 9-15 and [main()]. *)
Definition main (server : Server) (config : Config) (api_fuel fuel : nat)
    : M unit :=
  let config := load_dotenv config in
  let GITHUB_TOKEN := getenv config "GITHUB_TOKEN" in
  let ORG_NAME := getenv config "ORG_NAME" in
  let authorization := ("Bearer " ++ format_env GITHUB_TOKEN)%string in
  if negb (is_set ORG_NAME) then
    print (Say "ORG_NAME not set in .env file.")
  else
    let org := format_env ORG_NAME in
    repos <- get_repos server authorization api_fuel fuel org ;;
    match repos with
    | [] => print (Say "No repositories found or error occurred.")
    | _ =>
        open_csv fieldnames ;;
        for_each_repo (aggregate server authorization api_fuel fuel org) repos ;;
        print (Done org)
    end.

End Details.

(** ** fetch_repo_details_inventory.py *)

Module Inventory.

(** What one pass of the [for attempt in range(retries)] body decides. *)
Inductive ctl : Type :=
| Next              (* [continue], or the end of the body *)
| Break
| Return (v : json).

(** [response.raise_for_status()] *)
Definition raise_for_status (r : Response) : M unit :=
  if (400 <=? status_code r) && (status_code r <? 600)
  then raise (HTTPError (status_code r))
  else ret tt.

Section Script.
Variable server : Server.
(** [HEADERS["Authorization"]], that is [f"token {GH_PAT}"] *)
Variable authorization : string.

(** Lines 32-47: the [try] statement of one attempt. *)
Definition attempt_body (url : Url) (params : option (list (string * json)))
    (attempt : Z) : M ctl :=
  try_except
    (response <- requests_get server authorization url params ;;
     if (status_code response =? 403)
        && match header "X-RateLimit-Remaining" response with
           | Some v => String.eqb v "0"
           | None => false
           end then
       t0 <- time_time ;;
       reset_time <- match header "X-RateLimit-Reset" response with
                     | Some s => or_raise ValueError (py_int s)
                     | None => ret (t0 + 60)
                     end ;;
       t <- time_time ;;
       let sleep_time := reset_time - t in
       print (RateLimitHit sleep_time) ;;
       time_sleep sleep_time ;;
       ret Next
     else
       raise_for_status response ;;
       v <- response_json response ;;
       ret (Return v))
    (fun e =>
       if is_connection_error e then
         print (NetworkErrorOnAttempt (attempt + 1) e) ;;
         time_sleep (2 ^ attempt) ;;
         ret Next
       else if is_request_exception e then
         print (RequestFailed e) ;;
         ret Break
       else raise e).

(** Lines 31-48: the [for] loop over the attempts, then [return []]. *)
Fixpoint github_api_get_over (attempts : list Z) (url : Url)
    (params : option (list (string * json))) : M json :=
  match attempts with
  | [] => ret (JList [])
  | attempt :: rest =>
      c <- attempt_body url params attempt ;;
      match c with
      | Next => github_api_get_over rest url params
      | Break => ret (JList [])
      | Return v => ret v
      end
  end.

(** [range(retries)] *)
Definition range (n : nat) : list Z := map Z.of_nat (seq 0 n).

Definition github_api_get (url : Url)
    (params : option (list (string * json))) : M json :=
  github_api_get_over (range 3) url params.

Fixpoint get_repos_from (fuel : nat) (org : string) (page : Z)
    (repos : list json) : M (list json) :=
  match fuel with
  | O => out_of_fuel
  | S fuel' =>
      data <- github_api_get (OrgRepos org)
                (Some [("per_page", JNum 100); ("page", JNum page)]) ;;
      if negb (truthy data) then ret repos
      else
        items <- iter data ;;
        let repos' := repos ++ items in
        n <- len data ;;
        if n <? 100 then ret repos'
        else get_repos_from fuel' org (page + 1) repos'
  end.

Definition get_repos (fuel : nat) (org : string) : M (list json) :=
  get_repos_from fuel org 1 [].

(** [sum(1 for pr in closed_prs if pr.get("merged_at"))] *)
Fixpoint count_merged (prs : list json) : M Z :=
  match prs with
  | [] => ret 0
  | pr :: rest =>
      m <- dict_get pr "merged_at" JNull ;;
      n <- count_merged rest ;;
      ret ((if truthy m then 1 else 0) + n)
  end.

Definition get_pr_counts (org : string) (repo : json) : M (Z * Z * Z) :=
  let url := Pulls org repo in
  open_prs <- github_api_get url (Some [("state", JStr "open")]) ;;
  closed_prs <- github_api_get url (Some [("state", JStr "closed")]) ;;
  items <- iter closed_prs ;;
  merged_count <- count_merged items ;;
  open_count <- len open_prs ;;
  closed_count <- len closed_prs ;;
  ret (open_count, closed_count, merged_count).

(** [[i for i in issues if "pull_request" not in i]] *)
Fixpoint without_pull_request (issues : list json) : M (list json) :=
  match issues with
  | [] => ret []
  | i :: rest =>
      marked <- or_raise TypeError (py_in "pull_request" i) ;;
      kept <- without_pull_request rest ;;
      ret (if marked then kept else i :: kept)
  end.

Definition get_issue_counts (org : string) (repo : json) : M (Z * Z) :=
  let issues_url := Issues org repo in
  open_issues <- github_api_get issues_url (Some [("state", JStr "open")]) ;;
  closed_issues <- github_api_get issues_url (Some [("state", JStr "closed")]) ;;
  open_items <- iter open_issues ;;
  open_issues <- without_pull_request open_items ;;
  closed_items <- iter closed_issues ;;
  closed_issues <- without_pull_request closed_items ;;
  ret (Z.of_nat (List.length open_issues), Z.of_nat (List.length closed_issues)).

Definition get_branches (org : string) (repo : json) : M Z :=
  branches <- github_api_get (Branches org repo) None ;;
  len branches.

Definition get_tags (org : string) (repo : json) : M Z :=
  tags <- github_api_get (Tags org repo) None ;;
  len tags.

Definition get_last_commit (org : string) (repo default_branch : json)
    : M (json * json) :=
  commit <- github_api_get (CommitRef org repo default_branch) None ;;
  if truthy commit then
    c <- getitem commit "commit" ;;
    committer <- getitem c "committer" ;;
    date <- getitem committer "date" ;;
    c' <- getitem commit "commit" ;;
    committer' <- getitem c' "committer" ;;
    author <- getitem committer' "name" ;;
    ret (date, author)
  else ret (JStr "", JStr "").

Definition get_primary_language (repo : json) : M json :=
  dict_get repo "language" (JStr "N/A").

(** Lines 124-150: the [try] body of [main] up to the row that
    [writer.writerow] receives. *)
Definition aggregate (org : string) (repo : json) : M Row :=
  name <- getitem repo "name" ;;
  '(open_prs, closed_prs, merged_prs) <- get_pr_counts org name ;;
  name <- getitem repo "name" ;;
  '(open_issues, closed_issues) <- get_issue_counts org name ;;
  name <- getitem repo "name" ;;
  branch_count <- get_branches org name ;;
  name <- getitem repo "name" ;;
  tag_count <- get_tags org name ;;
  name <- getitem repo "name" ;;
  default_branch <- getitem repo "default_branch" ;;
  '(last_commit_date, last_commit_user) <-
    get_last_commit org name default_branch ;;
  name <- getitem repo "name" ;;
  releases <- github_api_get (Releases org name)
                (Some [("per_page", JNum 1)]) ;;
  name <- getitem repo "name" ;;
  visibility <- getitem repo "visibility" ;;
  created_at <- getitem repo "created_at" ;;
  updated_at <- getitem repo "updated_at" ;;
  pushed_at <- getitem repo "pushed_at" ;;
  size <- getitem repo "size" ;;
  size_cell <- size_mb size ;;
  language <- get_primary_language repo ;;
  n <- len_or_zero releases ;;
  ret [("Repo Name", CVal name);
       ("Visibility", CVal visibility);
       ("Created At", CVal created_at);
       ("Updated At", CVal updated_at);
       ("Last Pushed Date", CVal pushed_at);
       ("Repo Size (MB)", size_cell);
       ("Primary Language", CVal language);
       ("Total Open PRs", CInt open_prs);
       ("Total Closed PRs", CInt closed_prs);
       ("Total Merged PRs", CInt merged_prs);
       ("Total Open Issues", CInt open_issues);
       ("Total Closed Issues", CInt closed_issues);
       ("Total Branches", CInt branch_count);
       ("Total Releases", CInt n);
       ("Total Tags", CInt tag_count);
       ("Last Committed Date", CVal last_commit_date);
       ("Last Committed User", CVal last_commit_user)].

(** [main()] *)
Definition main (fuel : nat) (GH_ORG : string) : M unit :=
  repos <- get_repos fuel GH_ORG ;;
  match repos with
  | [] => print (Say "No repositories found or error occurred.")
  | _ =>
      open_csv fieldnames ;;
      for_each_repo (aggregate GH_ORG) repos ;;
      print (Done GH_ORG)
  end.

End Script.

(** The whole script: the module-level lines 9-23, then [main()]. *)
Definition script (server : Server) (config : Config) (fuel : nat) : M unit :=
  let config := load_dotenv config in
  let GH_PAT := getenv config "GH_PAT" in
  let GH_ORG := getenv config "GH_ORG" in
  if negb (is_set GH_PAT) || negb (is_set GH_ORG) then
    print (Say "GH_PAT or GH_ORG not set. Please provide them in GitHub Secrets or a .env file.") ;;
    raise (SystemExit 1)
  else
    main server ("token " ++ format_env GH_PAT)%string fuel (format_env GH_ORG).

End Inventory.

(** ** fetch_repo_list.py *)

Module RepoList.

Section Script.
Variable server : Server.

(** Lines 41-62: [while True:]; [page] is [params["page"]]. *)
Fixpoint get_github_repos_from (fuel : nat) (org token : string)
    (per_page page : Z) (repos : list json) : M (list json) :=
  match fuel with
  | O => out_of_fuel
  | S fuel' =>
      response <- requests_get server ("token " ++ token)%string (OrgRepos org)
                    (Some [("per_page", JNum per_page); ("page", JNum page)]) ;;
      if (status_code response =? 403)
         && match header "X-RateLimit-Remaining" response with
            | Some _ => true
            | None => false
            end then
        reset_time <- match header "X-RateLimit-Reset" response with
                      | Some s => or_raise ValueError (py_int s)
                      | None => ret 0
                      end ;;
        t <- time_time ;;
        let wait_seconds := Z.max (reset_time - t) 1 in
        print (RateLimitHit wait_seconds) ;;
        logging_at "WARNING" (RateLimitHit wait_seconds) ;;
        time_sleep wait_seconds ;;
        get_github_repos_from fuel' org token per_page page repos
      else if negb (status_code response =? 200) then
        body <- response_json response ;;
        message <- dict_get body "message" (JStr "Unknown error") ;;
        let error_msg := HttpErrorMessage (status_code response) message in
        print error_msg ;;
        logging_at "ERROR" error_msg ;;
        ret repos
      else
        data <- response_json response ;;
        if negb (truthy data) then ret repos
        else
          items <- iter data ;;
          get_github_repos_from fuel' org token per_page (page + 1)
                                (repos ++ items)
  end.

Definition get_github_repos (fuel : nat) (org token : string) : M (list json) :=
  get_github_repos_from fuel org token 100 1 [].

(** Lines 70-71: [for repo in repositories:] *)
Fixpoint write_rows (repositories : list json) : M unit :=
  match repositories with
  | [] => ret tt
  | repo :: rest =>
      name <- getitem repo "name" ;;
      visibility <- dict_get repo "visibility" (JStr "N/A") ;;
      write_line (ListRow [name; visibility]) ;;
      write_rows rest
  end.

Definition save_to_csv (repositories : list json) : M unit :=
  open_csv ["Repository Name"; "Visibility"] ;;
  write_rows repositories.

(** The whole script: the module-level lines 8-33, then the
    [__main__] block. *)
Definition script (config : Config) (fuel : nat) : M unit :=
  let GH_ORG := getenv config "GH_ORG" in
  let GH_PAT := getenv config "GH_PAT" in
  let loaded := if negb (is_set GH_ORG) || negb (is_set GH_PAT)
                then load_dotenv config else config in
  let GH_ORG := if is_set GH_ORG then GH_ORG else getenv loaded "GH_ORG" in
  let GH_PAT := if is_set GH_PAT then GH_PAT else getenv loaded "GH_PAT" in
  if negb (is_set GH_ORG) || negb (is_set GH_PAT) then
    print (Say "Error: Please set GH_ORG and GH_PAT as GitHub Secrets or in your .env file.") ;;
    logging_at "ERROR" (Say "Missing GH_ORG or GH_PAT environment variables.") ;;
    raise (SystemExit 1)
  else
    try_except
      (print (Fetching (format_env GH_ORG)) ;;
       repositories <- get_github_repos fuel (format_env GH_ORG) (format_env GH_PAT) ;;
       save_to_csv repositories ;;
       print (Say "CSV file saved successfully!") ;;
       logging_at "INFO" (Say "CSV file saved successfully."))
      (fun e =>
         logging_at "ERROR" (Say "Unhandled exception") ;;
         print (Say "An error occurred. Check logs/fetch_repos.log for details.")).

End Script.
End RepoList.


(** * Vocabulary of the statements *)

(** The request [github_api_get(url, params)] sends. *)
Definition request_of (authorization : string) (url : Url)
    (params : option (list (string * json))) : Request :=
  mkRequest url authorization params.

(** The rate-limit test of [fetch_repo_details.py], line 26. *)
Definition rate_limited_by_text (r : Response) : bool :=
  (status_code r =? 403) && contains "rate limit" (lower (text r)).

(** The rate-limit test of [fetch_repo_details_inventory.py], line 34. *)
Definition rate_limited_by_quota (r : Response) : bool :=
  (status_code r =? 403)
  && match header "X-RateLimit-Remaining" r with
     | Some v => String.eqb v "0"
     | None => false
     end.

(** The rate-limit test of [fetch_repo_list.py], line 43. *)
Definition rate_limited_by_header (r : Response) : bool :=
  (status_code r =? 403)
  && match header "X-RateLimit-Remaining" r with
     | Some _ => true
     | None => false
     end.

(** The epoch reset timestamp a response carries, [default] when the
    header is missing; nothing when the header is not a number. *)
Definition reset_timestamp (default : Z) (r : Response) : option Z :=
  match header "X-RateLimit-Reset" r with
  | Some s => py_int s
  | None => Some default
  end.

(** The reset time of a rate-limit answer is a number, and not after
    [deadline]; an answer without the header is waited out for 60
    seconds. *)
Definition resets_by (deadline : Z) (r : Response) : Prop :=
  match header "X-RateLimit-Reset" r with
  | Some s => exists reset_time, py_int s = Some reset_time /\ reset_time <= deadline
  | None => True
  end.

(** The world after one request that ended in a rate-limit sleep of
    [d] seconds. *)
Definition after_rate_limit (w : World) (rq : Request) (d : Z) : World :=
  mkWorld (now w + d) (sent w ++ [rq]) (error_log w)
          (stdout w ++ [RateLimitHit d]) (logging w) (slept w ++ [d]) (csv w).

(** The messages of the error log, without their timestamps. *)
Definition messages (w : World) : list log_msg := map snd (error_log w).

(** The messages that five failed attempts leave in the error log of
    [fetch_repo_details.py], and those three failed attempts print in
    [fetch_repo_details_inventory.py]; [err n] is the error of the n-th
    request of the run. *)
Definition retry_lines (url : Url) (err : nat -> exn) (first : nat)
    (retries max_retries : Z) (k : nat) : list log_msg :=
  map (fun i => ConnectionErrorRetry url (err (first + i)%nat)
                  (retries + 1 + Z.of_nat i) max_retries)
      (seq 0 k).

Fixpoint network_error_lines (err : nat -> exn) (first : nat)
    (attempts : list Z) : list out_msg :=
  match attempts with
  | [] => []
  | attempt :: rest =>
      NetworkErrorOnAttempt (attempt + 1) (err first)
        :: network_error_lines err (S first) rest
  end.

(** ** Runs of the paginators *)

(** [fetches get page w ds w']: called for the pages [page], [page+1],
    ... one after the other from the world [w], the client returns the
    values [ds] and leaves the world [w']. *)
Inductive fetches (get : Z -> M json) : Z -> World -> list json -> World -> Prop :=
| fetches_nil page w : fetches get page w [] w
| fetches_cons page w d w1 ds w2 :
    get page w = (Ret d, w1) ->
    fetches get (page + 1) w1 ds w2 ->
    fetches get page w (d :: ds) w2.

(** What ends a pagination of [fetch_repo_details.py] and
    [fetch_repo_details_inventory.py], and the items [tail] the last
    value adds: a falsy value ([None], [[]]) adds nothing, a list shorter
    than the page size adds its items. *)
Definition ends_pagination (per_page : Z) (last : json) (tail : list json) : Prop :=
  (truthy last = false /\ tail = [])
  \/ (last = JList tail /\ Z.of_nat (List.length tail) < per_page).

(** [serves server rq_of n page ds]: the server answers the requests
    number [n], [n+1], ... of the run, sent for the pages [page],
    [page+1], ..., with status 200 and the bodies [ds]. *)
Fixpoint serves (server : Server) (rq_of : Z -> Request) (n : nat) (page : Z)
    (ds : list json) : Prop :=
  match ds with
  | [] => True
  | d :: rest =>
      (exists r, server n (rq_of page) = Answers r
                 /\ status_code r = 200 /\ json_body r = Some d)
      /\ serves server rq_of (S n) (page + 1) rest
  end.

(** The request [get_github_repos] sends for a page. *)
Definition repo_list_request (org token : string) (per_page page : Z) : Request :=
  mkRequest (OrgRepos org) ("token " ++ token)
    (Some [("per_page", JNum per_page); ("page", JNum page)]).

(** The requests for the pages [page], [page+1], ..., [k] of them. *)
Fixpoint requests_from (rq_of : Z -> Request) (page : Z) (k : nat) : list Request :=
  match k with
  | O => []
  | S k' => rq_of page :: requests_from rq_of (page + 1) k'
  end.

(** What ends the loop of [get_github_repos]: a 200 with a falsy body,
    or another status that is no rate limit, with a JSON object as
    body (the [break] of line 55). *)
Definition ends_repo_list (r : Response) : Prop :=
  (status_code r = 200 /\ exists d, json_body r = Some d /\ truthy d = false)
  \/ (status_code r <> 200 /\ rate_limited_by_header r = false
      /\ exists kvs, json_body r = Some (JObj kvs)).

(** ** The report *)

(** The rows [writer.writerow] has written to the report. *)
Definition written_row (l : csv_line) : list Row :=
  match l with
  | DictRow r => [r]
  | _ => []
  end.

Definition written_rows (w : World) : list Row :=
  match csv w with
  | Some ls => flat_map written_row ls
  | None => []
  end.

(** The entries the [except] handler of the repository loop has put in
    the error log: the name of the repository and the exception. *)
Definition processing_error (line : Z * log_msg) : list (json * exn) :=
  match snd line with
  | ErrorProcessing name e => [(name, e)]
  | _ => []
  end.

Definition processing_errors (w : World) : list (json * exn) :=
  flat_map processing_error (error_log w).

Definition is_processing_error (m : log_msg) : bool :=
  match m with
  | ErrorProcessing _ _ => true
  | _ => false
  end.

(** [w'] has the same report as [w]: the CSV file and the entries of the
    repository loop in the error log are the same. *)
Definition same_report (w w' : World) : Prop :=
  csv w' = csv w /\ processing_errors w' = processing_errors w.

(** A computation that leaves the report as it is, however it ends. *)
Definition quiet {A : Type} (m : M A) : Prop :=
  forall w, same_report w (snd (m w)).

(** The rows of the repositories whose aggregation returned. *)
Fixpoint successes (outcomes : list (result Row)) : list Row :=
  match outcomes with
  | [] => []
  | Ret row :: rest => row :: successes rest
  | _ :: rest => successes rest
  end.

(** The names and exceptions of the repositories whose aggregation
    raised. *)
Fixpoint failures (repos : list json) (outcomes : list (result Row))
    : list (json * exn) :=
  match repos, outcomes with
  | repo :: repos', Raise e :: rest =>
      match repo with
      | JObj kvs =>
          match assoc "name" kvs with
          | Some name => (name, e) :: failures repos' rest
          | None => failures repos' rest
          end
      | _ => failures repos' rest
      end
  | _ :: repos', _ :: rest => failures repos' rest
  | _, _ => []
  end.

(** The repository [repo] is an object with a [name]. *)
Definition has_name (repo : json) : Prop :=
  exists kvs name, repo = JObj kvs /\ assoc "name" kvs = Some name.

(** [repo["name"]], when [repo] is an object with that key. *)
Definition name_of (repo : json) : option json :=
  match repo with
  | JObj kvs => assoc "name" kvs
  | _ => None
  end.

(** The world after [print(f"Processing {repo['name']}...")]. *)
Definition announced (name : json) (w : World) : World :=
  mkWorld (now w) (sent w) (error_log w) (stdout w ++ [Processing name])
          (logging w) (slept w) (csv w).

(** The world after [writer.writerow(row)]: one more line in the file,
    and nothing else. *)
Definition with_row (row : Row) (w : World) : World :=
  mkWorld (now w) (sent w) (error_log w) (stdout w) (logging w) (slept w)
          (Some (match csv w with Some ls => ls | None => [] end ++ [DictRow row])).

(** The world after the handler's [log_error(f"Error processing
    {repo['name']}: {e}")]: one more entry in the error log, and nothing
    else. *)
Definition with_entry (name : json) (e : exn) (w : World) : World :=
  mkWorld (now w) (sent w) (error_log w ++ [(now w, ErrorProcessing name e)])
          (stdout w) (logging w) (slept w) (csv w).

(** [processed aggregate repos w outcomes w']: log and continue.  From
    the world [w] on, every repository of [repos] is announced and
    aggregated once, in order, each in the world the one before it left.
    When the aggregation returns a row, the row is written to the world
    the aggregation left; when it raises an [Exception], one entry is
    appended to the error log of that world and no row is written; in
    both cases the next repository follows.  [outcomes] are the results
    of the aggregations and [w'] is the world after the last
    repository. *)
Inductive processed (aggregate : json -> M Row)
    : list json -> World -> list (result Row) -> World -> Prop :=
| processed_none w : processed aggregate [] w [] w
| processed_row repo name repos w row wa outcomes w' :
    name_of repo = Some name ->
    aggregate repo (announced name w) = (Ret row, wa) ->
    processed aggregate repos (with_row row wa) outcomes w' ->
    processed aggregate (repo :: repos) w (Ret row :: outcomes) w'
| processed_failure repo name repos w e wa outcomes w' :
    name_of repo = Some name ->
    aggregate repo (announced name w) = (Raise e, wa) ->
    is_exception e = true ->
    processed aggregate repos (with_entry name e wa) outcomes w' ->
    processed aggregate (repo :: repos) w (Raise e :: outcomes) w'.

(** The message of the handler's entry for a failure. *)
Definition entry_of (failure : json * exn) : log_msg :=
  ErrorProcessing (fst failure) (snd failure).

(** What the repository loop does with [repos] from the world [w] on.
    When it runs to its end, the repositories have been [processed], the
    rows added to the report are those of the repositories whose
    aggregation returned, in order, and the entries of the handler added
    to the error log are those of the repositories whose aggregation
    raised, in order.  An [Exception] leaves the loop only at a
    repository without a [name], from the line before the [try]; the
    repositories before it have been [processed]. *)
Definition log_and_continue (aggregate : json -> M Row) (repos : list json)
    (w : World) : Prop :=
  let run := for_each_repo aggregate repos w in
  (fst run = Ret tt ->
   exists outcomes,
     processed aggregate repos w outcomes (snd run)
     /\ written_rows (snd run) = written_rows w ++ successes outcomes
     /\ processing_errors (snd run) = processing_errors w ++ failures repos outcomes)
  /\ (forall e, fst run = Raise e -> is_exception e = true ->
      exists before repo after outcomes,
        repos = before ++ repo :: after
        /\ name_of repo = None
        /\ processed aggregate before w outcomes (snd run)).

(** A computation that leaves the error log as it is, however it
    ends. *)
Definition unlogged {A : Type} (m : M A) : Prop :=
  forall w, error_log (snd (m w)) = error_log w.

(** The world after [open(filename, "w")] and [writer.writeheader()]. *)
Definition opened (w : World) : World :=
  mkWorld (now w) (sent w) (error_log w) (stdout w) (logging w) (slept w)
          (Some [Header fieldnames]).

(** A computation whose every returned value satisfies [Q]. *)
Definition returns {A : Type} (m : M A) (Q : A -> Prop) : Prop :=
  forall w a w', m w = (Ret a, w') -> Q a.

(** A value the client can return for a request with [per_page = k] to a
    server that honours it: the failure value, or a list of at most [k]
    items. *)
Definition at_most (k : Z) (v : json) : Prop :=
  v = JNull \/ exists items, v = JList items /\ Z.of_nat (List.length items) <= k.

(** A cell of the report that holds the count 0 or the count 1. *)
Definition zero_or_one (c : option cell) : Prop :=
  c = Some (CInt 0) \/ c = Some (CInt 1).

(** The row of an aggregation that returned. *)
Definition row_of (r : result Row) : Row :=
  match r with
  | Ret row => row
  | _ => []
  end.

(** [requests.get] raises nothing but [Exception]s (no [SystemExit]). *)
Definition raises_only_exceptions (server : Server) : Prop :=
  forall n rq e, server n rq = Fails e -> is_exception e = true.

(** A computation that always comes to an end: it returns or raises an
    [Exception]; with [may_run_out], its loops may also run out of
    fuel. *)
Definition ends {A : Type} (may_run_out : bool) (m : M A) : Prop :=
  forall w,
    match fst (m w) with
    | Ret _ => True
    | Raise e => is_exception e = true
    | OutOfFuel => may_run_out = true
    end.

(** ** Issues and pull requests *)

(** An item of the issues endpoint carries the pull-request marker when
    it has the key [pull_request]. *)
Definition has_marker (item : list (string * json)) : bool :=
  match assoc "pull_request" item with
  | Some _ => true
  | None => false
  end.

(** The number of items without the marker. *)
Definition count_issues_only (items : list (list (string * json))) : Z :=
  Z.of_nat (List.length (filter (fun item => negb (has_marker item)) items)).

(** The query of [count_issues(state)] for a page. *)
Definition issue_params (state : string) (per_page page : Z) : list (string * json) :=
  [("state", JStr state); ("per_page", JNum per_page); ("page", JNum page)].

(** A page of JSON objects. *)
Definition page_of (items : list (list (string * json))) : json :=
  JList (map JObj items).

(** ** Servers used as concrete inputs *)

Definition ok_response (v : json) : Response :=
  mkResponse 200 "" [] (Some v).

(** A 403 that both scripts' tests recognise, with the reset header. *)
Definition rate_limit_response (reset : string) : Response :=
  mkResponse 403 "API rate limit exceeded"
    [("X-RateLimit-Remaining", "0"); ("X-RateLimit-Reset", reset)] None.

Definition not_found_response : Response :=
  mkResponse 404 "{message: Not Found}" []
    (Some (JObj [("message", JStr "Not Found")])).

(** Three rate-limit answers, then the data. *)
Definition limited_thrice : Server :=
  fun n _ =>
    match n with
    | 0%nat | 1%nat | 2%nat => Answers (rate_limit_response "101")
    | _ => Answers (ok_response (JList [JNum 7]))
    end.

(** A rate-limit answer whose reset time is already over, then the data. *)
Definition limited_in_the_past : Server :=
  fun n _ =>
    match n with
    | 0%nat => Answers (rate_limit_response "100")
    | _ => Answers (ok_response (JList [JNum 7]))
    end.

Definition always_not_found : Server :=
  fun _ _ => Answers not_found_response.

Definition always_down : Server :=
  fun _ _ => Fails (ConnectionError "connection refused").

(** Pages of one and one item, then an empty page. *)
Definition short_first_page : Server :=
  fun n _ =>
    match n with
    | 0%nat => Answers (ok_response (JList [JStr "a"]))
    | 1%nat => Answers (ok_response (JList [JStr "b"]))
    | _ => Answers (ok_response (JList []))
    end.

(** One hundred repositories, the page of a full answer. *)
Definition full_page : list json :=
  repeat (JObj [("name", JStr "r")]) 100.

(** A full page, then a page of one item. *)
Definition full_then_short : Server :=
  fun n _ =>
    match n with
    | 0%nat => Answers (ok_response (JList full_page))
    | _ => Answers (ok_response (JList [JStr "z"]))
    end.

(** A full page, then an empty page. *)
Definition full_then_empty : Server :=
  fun n _ =>
    match n with
    | 0%nat => Answers (ok_response (JList full_page))
    | _ => Answers (ok_response (JList []))
    end.

(** A full page, then a server error. *)
Definition full_then_error : Server :=
  fun n _ =>
    match n with
    | 0%nat => Answers (ok_response (JList full_page))
    | _ => Answers (mkResponse 500 "{message: Server Error}" []
                      (Some (JObj [("message", JStr "Server Error")])))
    end.

(** Every answer is the same page: two issues and one pull request. *)
Definition three_items : list (list (string * json)) :=
  [[("number", JNum 1)];
   [("number", JNum 2); ("pull_request", JObj [])];
   [("number", JNum 3)]].

Definition always_three_items : Server :=
  fun _ _ => Answers (ok_response (page_of three_items)).

(** ** A mock of the GitHub API *)

(** [per_page] and [page] of a request. *)
Definition per_page_of (rq : Request) : option Z :=
  match req_params rq with
  | Some ps =>
      match assoc "per_page" ps with
      | Some (JNum k) => Some k
      | _ => None
      end
  | None => None
  end.

Definition page_number_of (rq : Request) : Z :=
  match req_params rq with
  | Some ps =>
      match assoc "page" ps with
      | Some (JNum p) => p
      | _ => 1
      end
  | None => 1
  end.

(** The endpoints that answer with a list, which [per_page] bounds. *)
Definition is_list_endpoint (url : Url) : bool :=
  match url with
  | Pull _ _ _ | CommitRef _ _ _ => false
  | _ => true
  end.

(** A 4xx or 5xx status, on which [raise_for_status] raises. *)
Definition is_error_status (status : Z) : bool :=
  (400 <=? status) && (status <? 600).

(** A server honours [per_page] when a list endpoint never answers a
    request that carries [per_page = k] with more than [k] items: an
    answer with a JSON body that is no error (no 4xx or 5xx status) is a
    list of at most [k] items.  What an error answer carries is free
    (GitHub sends an object with a message). *)
Definition honours_per_page (server : Server) : Prop :=
  forall n rq r k v,
    server n rq = Answers r ->
    is_list_endpoint (req_url rq) = true ->
    per_page_of rq = Some k ->
    is_error_status (status_code r) = false ->
    json_body r = Some v ->
    exists items, v = JList items /\ Z.of_nat (List.length items) <= Z.max k 0.

(** [answered get rq w v w']: called in the world [w], the client [get]
    returned [v] and left the world [w'], having sent the request [rq],
    once or (after connection errors and rate limits) several times, and
    no other request. *)
Definition answered (get : M json) (rq : Request) (w : World) (v : json)
    (w' : World) : Prop :=
  get w = (Ret v, w')
  /\ exists k, sent w' = sent w ++ repeat rq (S k).

(** The query of a single-page probe. *)
Definition probe_params (state : option string) : option (list (string * json)) :=
  Some (match state with
        | Some st => [("state", JStr st); ("per_page", JNum 1)]
        | None => [("per_page", JNum 1)]
        end).

(** The page of [items] a request asks for (30 items without
    [per_page]). *)
Definition paged (rq : Request) (items : list json) : json :=
  let k := match per_page_of rq with
           | Some k => Z.to_nat k
           | None => 30%nat
           end in
  JList (firstn k (skipn (Z.to_nat (page_number_of rq - 1) * k) items)).

Definition mock_commit : json :=
  JObj [("commit",
         JObj [("committer",
                JObj [("date", JStr "2024-05-01T10:00:00Z");
                      ("name", JStr "dev")])])].

Definition mock_pull (number : Z) : json :=
  JObj [("number", JNum number); ("merged_at", JStr "2024-04-01T09:00:00Z")].

(** A repository with every field the report reads, and one without
    [default_branch]. *)
Definition good_repo : json :=
  JObj [("name", JStr "good"); ("visibility", JStr "private");
        ("created_at", JStr "2023-01-01T00:00:00Z");
        ("updated_at", JStr "2024-01-01T00:00:00Z");
        ("pushed_at", JStr "2024-05-01T10:00:00Z");
        ("size", JNum 2048); ("language", JStr "Python");
        ("default_branch", JStr "main"); ("open_issues_count", JNum 3)].

Definition bad_repo : json :=
  JObj [("name", JStr "bad"); ("visibility", JStr "private")].

(** Two merged pull requests (open or closed), three items on the issues
    endpoint, two releases, one commit, no branch and no tag. *)
Definition github_mock : Server :=
  fun _ rq =>
    match req_url rq with
    | OrgRepos _ => Answers (ok_response (paged rq [good_repo; bad_repo]))
    | Pulls _ _ => Answers (ok_response (paged rq [mock_pull 1; mock_pull 2]))
    | Pull _ _ number => Answers (ok_response (mock_pull 0))
    | Issues _ _ => Answers (ok_response (paged rq (map JObj three_items)))
    | Commits _ _ => Answers (ok_response (paged rq [mock_commit]))
    | CommitRef _ _ _ => Answers (ok_response mock_commit)
    | Releases _ _ => Answers (ok_response (paged rq [JObj [("id", JNum 1)];
                                                      JObj [("id", JNum 2)]]))
    | Branches _ _ | Tags _ _ => Answers (ok_response (paged rq []))
    end.

(** ** Vocabulary of the further properties *)

(** The world after one request that had no other effect. *)
Definition with_request (w : World) (rq : Request) : World :=
  mkWorld (now w) (sent w ++ [rq]) (error_log w) (stdout w) (logging w)
          (slept w) (csv w).

(** A computation out of which no [Exception] comes. *)
Definition catches_all {A : Type} (m : M A) : Prop :=
  forall w,
    match fst (m w) with
    | Raise e => is_exception e = false
    | _ => True
    end.

(** An answer that is not JSON. *)
Definition html_response : Response :=
  mkResponse 200 "<html>busy</html>" [] None.

(** A rate-limit answer whose reset header is not a number. *)
Definition odd_rate_limit_response : Response :=
  mkResponse 403 "API rate limit exceeded"
    [("X-RateLimit-Remaining", "0"); ("X-RateLimit-Reset", "soon")] None.

Definition always_html : Server := fun _ _ => Answers html_response.

(** A rate-limit answer whose reset time is given in milliseconds. *)
Definition far_rate_limit_response : Response :=
  rate_limit_response "1700000060000".

Definition always_far_rate_limit : Server :=
  fun _ _ => Answers far_rate_limit_response.

Definition always_odd_rate_limit : Server :=
  fun _ _ => Answers odd_rate_limit_response.

(** Two connection errors, then the data. *)
Definition down_twice : Server :=
  fun n _ =>
    match n with
    | 0%nat | 1%nat => Fails (ConnectionError "connection reset")
    | _ => Answers (ok_response (JList [JNum 7]))
    end.

(** A timeout of the requests library, and an error outside it. *)
Definition always_timeout : Server :=
  fun _ _ => Fails (RequestException "read timeout").

Definition always_broken : Server :=
  fun _ _ => Fails (OtherError "ssl context").

(** [committed commit date name]: the commit object [commit] holds the
    committer's date and name where the scripts read them,
    [commit["commit"]["committer"]]. *)
Definition committed (commit date name : json) : Prop :=
  exists kvs c committer,
    commit = JObj kvs
    /\ assoc "commit" kvs = Some (JObj c)
    /\ assoc "committer" c = Some (JObj committer)
    /\ assoc "date" committer = Some date
    /\ assoc "name" committer = Some name.

(** The number of items of a list, 0 for any other value. *)
Definition listed (v : json) : Z :=
  match v with
  | JList l => Z.of_nat (List.length l)
  | _ => 0
  end.

(** The column [column] of [row] is the length of the first page [v]
    (0 for the failure value), and that is 0 or 1. *)
Definition probe_count (v : json) (column : string) (row : Row) : Prop :=
  assoc column row = Some (CInt (listed v))
  /\ zero_or_one (assoc column row).

(** A 404 for every commit request, the mock for the others. *)
Definition no_commits : Server :=
  fun n rq =>
    match req_url rq with
    | Commits _ _ | CommitRef _ _ _ => Answers not_found_response
    | _ => github_mock n rq
    end.

(** The line [save_to_csv] writes for a repository: its name, and its
    visibility or ["N/A"]. *)
Definition name_and_visibility (repo : json) : csv_line :=
  match repo with
  | JObj kvs =>
      ListRow [match assoc "name" kvs with Some name => name | None => JNull end;
               match assoc "visibility" kvs with
               | Some visibility => visibility
               | None => JStr "N/A"
               end]
  | _ => ListRow []
  end.

(** The header of [github_repos.csv]. *)
Definition repo_list_header : csv_line := Header ["Repository Name"; "Visibility"].

(** Both variables are set in the process environment. *)
Definition configured (config : Config) (org pat : string) : Prop :=
  getenv config "GH_ORG" = Some org /\ org <> ""
  /\ getenv config "GH_PAT" = Some pat /\ pat <> "".

(** The fields of a repository that the aggregation of
    [fetch_repo_details_inventory.py] reads with [repo[...]]; the one of
    [fetch_repo_details.py] reads [open_issues_count] as well. *)
Definition required_fields : list string :=
  ["name"; "default_branch"; "visibility"; "created_at"; "updated_at";
   "pushed_at"; "size"].

(** The column [column] of [row] is the field [key] of the repository. *)
Definition copied (kvs : list (string * json)) (key column : string) (row : Row) : Prop :=
  exists v, assoc key kvs = Some v /\ assoc column row = Some (CVal v).

(** A repository on which GitHub reports no language key at all. *)
Definition plain_fields : list (string * json) :=
  [("name", JStr "plain"); ("visibility", JStr "public");
   ("created_at", JStr "2022-01-01T00:00:00Z");
   ("updated_at", JStr "2022-02-01T00:00:00Z");
   ("pushed_at", JStr "2022-03-01T00:00:00Z");
   ("size", JNum 10); ("default_branch", JStr "main");
   ("open_issues_count", JNum 0)].

(** What a report row says about the repository it was built from. *)
Definition describes (kvs : list (string * json)) (default_language : json)
    (row : Row) : Prop :=
  copied kvs "name" "Repo Name" row
  /\ copied kvs "visibility" "Visibility" row
  /\ copied kvs "created_at" "Created At" row
  /\ copied kvs "updated_at" "Updated At" row
  /\ copied kvs "pushed_at" "Last Pushed Date" row
  /\ (forall z, assoc "size" kvs = Some (JNum z) ->
                assoc "Repo Size (MB)" row = Some (CSizeMB z))
  /\ assoc "Primary Language" row =
       Some (CVal match assoc "language" kvs with
                  | Some language => language
                  | None => default_language
                  end).

(** * The API client *)

(** Projections of a world that is written out. *)
Tactic Notation "fields" :=
  cbn [now sent error_log stdout logging slept csv fst snd].
Tactic Notation "fields" "in" hyp(H) :=
  cbn [now sent error_log stdout logging slept csv fst snd] in H.

Lemma map_seq_S {A : Type} (f : nat -> A) (k : nat) :
  map f (seq 0 (S k)) = f 0%nat :: map (fun i => f (S i)) (seq 0 k).
Proof. cbn [seq map]. rewrite <- seq_shift, map_map. reflexivity. Qed.

Lemma floored_sleep_allowed (a : Z) : (Z.max a 1 <? 0) = false.
Proof. apply Z.ltb_ge. lia. Qed.

Lemma a_century_allowed (d : Z) : d <= a_century -> (sleep_max <? d) = false.
Proof. intros H. apply Z.ltb_ge. unfold a_century, sleep_max in *. lia. Qed.

(** One pass of the [while] body of [fetch_repo_details.py] on a
    rate-limit answer: it sleeps [max(R - now, 1)] and leaves [retries]
    as it was. *)
Lemma Details_attempt_rate_limit server auth url params max_retries retries w r R :
  server (List.length (sent w)) (request_of auth url params) = Answers r ->
  rate_limited_by_text r = true ->
  reset_timestamp (now w + 60) r = Some R ->
  R - now w <= a_century ->
  Details.attempt server auth url params max_retries retries w =
    (Ret (Details.Continue retries),
     after_rate_limit w (request_of auth url params) (Z.max (R - now w) 1)).
Proof.
  intros Hs Hr HR Hlong. unfold rate_limited_by_text in Hr.
  unfold reset_timestamp in HR. unfold request_of in Hs.
  assert (Hfits : (sleep_max <? Z.max (R - now w) 1) = false)
    by (apply a_century_allowed; unfold a_century in *; lia).
  unfold Details.attempt, try_except, bind, requests_get. rewrite Hs. simpl.
  rewrite Hr. unfold time_time; simpl.
  destruct (header "X-RateLimit-Reset" r) as [s|].
  - rewrite HR. simpl. unfold time_sleep. simpl.
    rewrite floored_sleep_allowed, Hfits. reflexivity.
  - injection HR as <-. simpl. unfold time_sleep; simpl.
    rewrite floored_sleep_allowed, Hfits. reflexivity.
Qed.

(** The retry after a rate-limit answer is the same call again, with the
    same [retries]: the wait is not counted against the retry budget. *)
Lemma Details_rate_limit_not_counted server auth fuel url params max_retries retries w r R :
  server (List.length (sent w)) (request_of auth url params) = Answers r ->
  rate_limited_by_text r = true ->
  reset_timestamp (now w + 60) r = Some R ->
  R - now w <= a_century ->
  retries < max_retries ->
  Details.github_api_get_from server auth (S fuel) url params max_retries retries w =
  Details.github_api_get_from server auth fuel url params max_retries retries
    (after_rate_limit w (request_of auth url params) (Z.max (R - now w) 1)).
Proof.
  intros Hs Hr HR Hlong Hlt. simpl.
  apply Z.ltb_lt in Hlt. rewrite Hlt. unfold bind at 1.
  rewrite (Details_attempt_rate_limit _ _ _ _ _ _ _ _ _ Hs Hr HR Hlong). reflexivity.
Qed.

(** Any number of rate-limit answers in a row, whose reset times are
    within a century: the client is back at the same call with the same
    [retries], having sent the request [n] times, slept [n] times and
    logged nothing. *)
Lemma Details_rate_limits_not_counted server auth url params max_retries retries
    (deadline : Z) :
  retries < max_retries ->
  forall (n : nat) (w : World) (fuel : nat),
    deadline <= now w + a_century ->
    (forall i, (i < n)%nat ->
       exists r, server (List.length (sent w) + i)%nat (request_of auth url params)
                   = Answers r
                 /\ rate_limited_by_text r = true
                 /\ resets_by deadline r) ->
    exists w',
      Details.github_api_get_from server auth (n + fuel) url params max_retries
        retries w
      = Details.github_api_get_from server auth fuel url params max_retries
          retries w'
      /\ sent w' = sent w ++ repeat (request_of auth url params) n
      /\ error_log w' = error_log w
      /\ exists waits,
           slept w' = slept w ++ waits
           /\ List.length waits = n
           /\ Forall (fun d => 1 <= d <= a_century) waits.
Proof.
  intros Hlt. induction n as [|n IH]; intros w fuel Hdeadline Hall.
  - exists w. cbn [plus repeat]. rewrite app_nil_r.
    repeat split. exists []. rewrite app_nil_r. repeat split. constructor.
  - destruct (Hall 0%nat) as (r & Hs & Hr & HR); [lia|].
    rewrite Nat.add_0_r in Hs.
    assert (Hreset : exists R, reset_timestamp (now w + 60) r = Some R
                               /\ R - now w <= a_century).
    { unfold resets_by in HR. unfold reset_timestamp.
      destruct (header "X-RateLimit-Reset" r) as [s|].
      - destruct HR as (R & HR & HD). exists R. split; [exact HR | lia].
      - exists (now w + 60). split; [reflexivity | unfold a_century; lia]. }
    destruct Hreset as (R & ER & Hlong).
    cbn [plus].
    rewrite (Details_rate_limit_not_counted _ _ _ _ _ _ _ _ _ _ Hs Hr ER Hlong Hlt).
    destruct (IH (after_rate_limit w (request_of auth url params)
                    (Z.max (R - now w) 1)) fuel)
      as (w' & Hrun & Hsent & Hlog & waits & Hslept & Hlen & Hwaits).
    + unfold after_rate_limit. fields. lia.
    + intros i Hi. destruct (Hall (S i)) as (r' & Hs' & Hrest); [lia|].
      exists r'. split; [|exact Hrest].
      unfold after_rate_limit. fields. rewrite length_app. cbn [List.length].
      replace (List.length (sent w) + 1 + i)%nat
        with (List.length (sent w) + S i)%nat by lia.
      exact Hs'.
    + exists w'. split; [exact Hrun|].
      unfold after_rate_limit in Hsent, Hlog, Hslept.
      fields in Hsent. fields in Hlog. fields in Hslept.
      rewrite Hsent, Hlog, <- app_assoc.
      cbn [app repeat]. repeat split.
      exists (Z.max (R - now w) 1 :: waits).
      rewrite Hslept, <- app_assoc. cbn [app List.length]. repeat split.
      * rewrite Hlen. reflexivity.
      * constructor; [unfold a_century in *; lia | exact Hwaits].
Qed.

(** The same for the pagination loop of [fetch_repo_list.py]. *)
Lemma RepoList_rate_limit_wait server fuel org token per_page page repos w r R :
  server (List.length (sent w))
         (mkRequest (OrgRepos org) ("token " ++ token)
            (Some [("per_page", JNum per_page); ("page", JNum page)])) = Answers r ->
  rate_limited_by_header r = true ->
  reset_timestamp 0 r = Some R ->
  R - now w <= a_century ->
  exists w',
    RepoList.get_github_repos_from server (S fuel) org token per_page page repos w =
    RepoList.get_github_repos_from server fuel org token per_page page repos w'
    /\ slept w' = slept w ++ [Z.max (R - now w) 1]
    /\ now w' = now w + Z.max (R - now w) 1.
Proof.
  intros Hs Hr HR Hlong. unfold rate_limited_by_header in Hr.
  unfold reset_timestamp in HR.
  assert (Hfits : (sleep_max <? Z.max (R - now w) 1) = false)
    by (apply a_century_allowed; unfold a_century in *; lia).
  simpl in Hs. simpl. unfold bind at 1. unfold requests_get. rewrite Hs. rewrite Hr.
  destruct (header "X-RateLimit-Reset" r) as [s|].
  - rewrite HR. simpl. unfold bind, time_time, print, logging_at, time_sleep. simpl.
    rewrite floored_sleep_allowed, Hfits. eexists. split; [reflexivity|]. simpl. auto.
  - injection HR as <-. simpl. unfold bind, time_time, print, logging_at, time_sleep. simpl.
    rewrite floored_sleep_allowed.
    match goal with
    | |- context [sleep_max <? ?d] =>
        replace (sleep_max <? d) with false
          by (symmetry; apply a_century_allowed; unfold a_century in *; lia)
    end.
    eexists. split; [reflexivity|]. simpl. auto.
Qed.

(** One attempt of [fetch_repo_details_inventory.py] on a rate-limit
    answer whose reset time is not over: it sleeps [R - now], without a
    floor, and the [for] loop moves on to the next attempt. *)
Lemma Inventory_attempt_rate_limit server auth url params attempt w r R :
  server (List.length (sent w)) (request_of auth url params) = Answers r ->
  rate_limited_by_quota r = true ->
  reset_timestamp (now w + 60) r = Some R ->
  now w <= R ->
  R - now w <= a_century ->
  Inventory.attempt_body server auth url params attempt w =
    (Ret Inventory.Next, after_rate_limit w (request_of auth url params) (R - now w)).
Proof.
  intros Hs Hr HR Hle Hlong. unfold rate_limited_by_quota in Hr.
  unfold reset_timestamp in HR. unfold request_of in Hs.
  unfold Inventory.attempt_body, try_except, bind, requests_get. rewrite Hs. simpl.
  rewrite Hr. unfold time_time; simpl.
  assert (Hok : (R - now w <? 0) = false) by (apply Z.ltb_ge; lia).
  pose proof (a_century_allowed _ Hlong) as Hfits.
  destruct (header "X-RateLimit-Reset" r) as [s|].
  - rewrite HR. simpl. unfold time_sleep. simpl. rewrite Hok, Hfits. reflexivity.
  - injection HR as <-. simpl. unfold time_sleep; simpl.
    rewrite Hok, Hfits. reflexivity.
Qed.

(** When the reset time is over, the same attempt calls
    [time.sleep] with a negative number: [ValueError] leaves the client,
    and nothing has been slept. *)
Lemma Inventory_attempt_rate_limit_past server auth url params attempt w r R :
  server (List.length (sent w)) (request_of auth url params) = Answers r ->
  rate_limited_by_quota r = true ->
  reset_timestamp (now w + 60) r = Some R ->
  R < now w ->
  exists w',
    Inventory.attempt_body server auth url params attempt w = (Raise ValueError, w')
    /\ slept w' = slept w
    /\ stdout w' = stdout w ++ [RateLimitHit (R - now w)].
Proof.
  intros Hs Hr HR Hlt. unfold rate_limited_by_quota in Hr.
  unfold reset_timestamp in HR. unfold request_of in Hs.
  unfold Inventory.attempt_body, try_except, bind, requests_get. rewrite Hs. simpl.
  rewrite Hr. unfold time_time; simpl.
  assert (Hneg : (R - now w <? 0) = true) by (apply Z.ltb_lt; lia).
  destruct (header "X-RateLimit-Reset" r) as [s|].
  - rewrite HR. simpl. unfold time_sleep. simpl. rewrite Hneg. simpl.
    eexists. split; [reflexivity|]. simpl. auto.
  - injection HR as <-. lia.
Qed.

(** In [fetch_repo_details_inventory.py] the retry after a rate-limit
    answer is the next pass of [for attempt in range(retries)]: the wait
    uses up one of the attempts. *)
Lemma Inventory_rate_limit_counted server auth url params attempt rest w r R :
  server (List.length (sent w)) (request_of auth url params) = Answers r ->
  rate_limited_by_quota r = true ->
  reset_timestamp (now w + 60) r = Some R ->
  now w <= R ->
  R - now w <= a_century ->
  Inventory.github_api_get_over server auth (attempt :: rest) url params w =
  Inventory.github_api_get_over server auth rest url params
    (after_rate_limit w (request_of auth url params) (R - now w)).
Proof.
  intros Hs Hr HR Hle Hlong. simpl. unfold bind at 1.
  rewrite (Inventory_attempt_rate_limit _ _ _ _ _ _ _ _ Hs Hr HR Hle Hlong). reflexivity.
Qed.

Lemma connection_error_is_exception e :
  is_connection_error e = true -> is_exception e = true.
Proof. destruct e; simpl; congruence. Qed.

Lemma connection_error_is_request_exception e :
  is_connection_error e = true -> is_request_exception e = true.
Proof. destruct e; simpl; congruence. Qed.

(** A status that is neither 200/201 nor a rate limit, in
    [fetch_repo_details.py]: one line in the error log, [None], and the
    loop is left after this single request. *)
Lemma Details_other_status server auth fuel url params max_retries retries w r :
  server (List.length (sent w)) (request_of auth url params) = Answers r ->
  rate_limited_by_text r = false ->
  status_code r <> 200 -> status_code r <> 201 ->
  retries < max_retries ->
  Details.github_api_get_from server auth (S fuel) url params max_retries retries w =
    (Ret JNull,
     mkWorld (now w) (sent w ++ [request_of auth url params])
             (error_log w ++ [(now w, FailedGET url (status_code r) (text r))])
             (stdout w) (logging w) (slept w) (csv w)).
Proof.
  intros Hs Hr H200 H201 Hlt. unfold rate_limited_by_text in Hr. unfold request_of in Hs.
  simpl. apply Z.ltb_lt in Hlt. rewrite Hlt.
  unfold bind at 1. unfold Details.attempt, try_except, bind, requests_get.
  rewrite Hs. simpl. rewrite Hr.
  apply Z.eqb_neq in H200. apply Z.eqb_neq in H201. rewrite H200, H201. reflexivity.
Qed.

(** A 4xx or 5xx status that is no rate limit, in
    [fetch_repo_details_inventory.py]: [raise_for_status] raises, the
    handler prints and breaks; the error log is not written. *)
Lemma Inventory_error_status server auth url params attempt rest w r :
  server (List.length (sent w)) (request_of auth url params) = Answers r ->
  rate_limited_by_quota r = false ->
  400 <= status_code r < 600 ->
  Inventory.github_api_get_over server auth (attempt :: rest) url params w =
    (Ret (JList []),
     mkWorld (now w) (sent w ++ [request_of auth url params]) (error_log w)
             (stdout w ++ [RequestFailed (HTTPError (status_code r))])
             (logging w) (slept w) (csv w)).
Proof.
  intros Hs Hr [Hlo Hhi]. unfold rate_limited_by_quota in Hr. unfold request_of in Hs.
  simpl. unfold bind at 1.
  unfold Inventory.attempt_body, try_except, bind, requests_get.
  rewrite Hs. simpl. rewrite Hr. unfold Inventory.raise_for_status.
  apply Z.leb_le in Hlo. apply Z.ltb_lt in Hhi. rewrite Hlo, Hhi. reflexivity.
Qed.

(** One pass of the [while] body of [fetch_repo_details.py] when
    [requests.get] raises a connection error: a line in the error log, a
    sleep of [5 * retries] and one retry less to go. *)
Lemma Details_attempt_connection_error server auth url params max_retries retries w e :
  server (List.length (sent w)) (request_of auth url params) = Fails e ->
  is_connection_error e = true ->
  0 <= retries ->
  5 * (retries + 1) <= sleep_max ->
  Details.attempt server auth url params max_retries retries w =
    (Ret (Details.Continue (retries + 1)),
     mkWorld (now w + 5 * (retries + 1)) (sent w ++ [request_of auth url params])
             (error_log w ++ [(now w, ConnectionErrorRetry url e (retries + 1) max_retries)])
             (stdout w) (logging w) (slept w ++ [5 * (retries + 1)]) (csv w)).
Proof.
  intros Hs He H0 Hmax. unfold request_of in Hs.
  unfold Details.attempt, try_except. unfold bind at 1. unfold requests_get.
  rewrite Hs. rewrite (connection_error_is_exception _ He), He.
  unfold bind, log_error, time_sleep. fields.
  replace (5 * (retries + 1) <? 0) with false by (symmetry; apply Z.ltb_ge; lia).
  replace (sleep_max <? 5 * (retries + 1)) with false
    by (symmetry; apply Z.ltb_ge; lia).
  reflexivity.
Qed.

Lemma Details_connection_errors server auth url params err max_retries :
  (forall n, server n (request_of auth url params) = Fails (err n)) ->
  (forall n, is_connection_error (err n) = true) ->
  5 * max_retries <= sleep_max ->
  forall (k : nat) (retries : Z) (w : World) (fuel : nat),
    0 <= retries ->
    max_retries - retries = Z.of_nat k ->
    (k < fuel)%nat ->
    exists w',
      Details.github_api_get_from server auth fuel url params max_retries retries w
        = (Ret JNull, w')
      /\ sent w' = sent w ++ repeat (request_of auth url params) k
      /\ slept w' = slept w ++ map (fun i => 5 * (retries + 1 + Z.of_nat i)) (seq 0 k)
      /\ messages w' =
           messages w
           ++ retry_lines url err (List.length (sent w)) retries max_retries k
           ++ [MaxRetriesExceeded url]
      /\ stdout w' = stdout w
      /\ csv w' = csv w.
Proof.
  intros Hs He Hmax. induction k as [|k IH]; intros retries w fuel H0 Hk Hfuel.
  - destruct fuel as [|fuel]; [lia|]. simpl.
    replace (retries <? max_retries) with false by (symmetry; apply Z.ltb_ge; lia).
    eexists. split; [reflexivity|]. unfold messages, retry_lines. simpl.
    rewrite !app_nil_r, map_app. auto.
  - destruct fuel as [|fuel]; [lia|]. simpl Details.github_api_get_from.
    replace (retries <? max_retries) with true by (symmetry; apply Z.ltb_lt; lia).
    unfold bind at 1.
    rewrite (Details_attempt_connection_error _ _ _ _ _ _ _ _ (Hs _) (He _) H0)
      by lia.
    match goal with |- context [Details.github_api_get_from _ _ _ _ _ _ _ ?w1] =>
      destruct (IH (retries + 1) w1 fuel) as (w' & Hrun & Hsent & Hslept & Hmsg & Hout & Hcsv);
      [lia | lia | lia |]
    end.
    exists w'. split; [exact Hrun|].
    fields in Hsent. fields in Hslept. fields in Hout. fields in Hcsv.
    unfold messages in *. fields in Hmsg. rewrite map_app in Hmsg.
    cbn [map snd] in Hmsg.
    rewrite Hsent, Hslept, Hmsg, Hout, Hcsv. clear IH Hrun Hsent Hslept Hmsg Hout Hcsv.
    unfold retry_lines. rewrite !map_seq_S, <- !app_assoc, length_app.
    cbn [app repeat List.length].
    repeat split.
    + do 2 f_equal; [f_equal; lia | apply map_ext; intro i; f_equal; lia].
    + do 2 f_equal; [f_equal; [f_equal; lia | lia] |].
      f_equal. apply map_ext. intro i. f_equal; [f_equal; lia | lia].
Qed.

(** One attempt of [fetch_repo_details_inventory.py] when
    [requests.get] raises a connection error: a line on the console, a
    sleep of [2 ** attempt]; the error log is not written. *)
Lemma Inventory_attempt_connection_error server auth url params attempt w e :
  server (List.length (sent w)) (request_of auth url params) = Fails e ->
  is_connection_error e = true ->
  0 <= attempt <= 33 ->
  Inventory.attempt_body server auth url params attempt w =
    (Ret Inventory.Next,
     mkWorld (now w + 2 ^ attempt) (sent w ++ [request_of auth url params])
             (error_log w)
             (stdout w ++ [NetworkErrorOnAttempt (attempt + 1) e])
             (logging w) (slept w ++ [2 ^ attempt]) (csv w)).
Proof.
  intros Hs He H0. unfold request_of in Hs.
  unfold Inventory.attempt_body, try_except. unfold bind at 1. unfold requests_get.
  rewrite Hs. rewrite (connection_error_is_exception _ He), He.
  unfold bind, print, time_sleep. fields.
  replace (2 ^ attempt <? 0) with false
    by (symmetry; apply Z.ltb_ge; apply Z.pow_nonneg; lia).
  replace (sleep_max <? 2 ^ attempt) with false.
  - reflexivity.
  - symmetry. apply Z.ltb_ge.
    apply Z.le_trans with (2 ^ 33); [apply Z.pow_le_mono_r; lia|].
    unfold sleep_max. vm_compute. discriminate.
Qed.

Lemma Inventory_connection_errors server auth url params err :
  (forall n, server n (request_of auth url params) = Fails (err n)) ->
  (forall n, is_connection_error (err n) = true) ->
  forall (attempts : list Z) (w : World),
    Forall (fun a => 0 <= a <= 33) attempts ->
    exists w',
      Inventory.github_api_get_over server auth attempts url params w
        = (Ret (JList []), w')
      /\ sent w' = sent w ++ repeat (request_of auth url params) (List.length attempts)
      /\ slept w' = slept w ++ map (Z.pow 2) attempts
      /\ stdout w' = stdout w ++ network_error_lines err (List.length (sent w)) attempts
      /\ error_log w' = error_log w
      /\ csv w' = csv w.
Proof.
  intros Hs He. induction attempts as [|a rest IH]; intros w Hpos.
  - exists w. cbn [Inventory.github_api_get_over List.length repeat map
                     network_error_lines].
    rewrite !app_nil_r. repeat split; reflexivity.
  - inversion Hpos as [|? ? Ha Hrest]; subst.
    cbn [Inventory.github_api_get_over]. unfold bind at 1.
    rewrite (Inventory_attempt_connection_error _ _ _ _ _ _ _ (Hs _) (He _) Ha).
    match goal with |- context [Inventory.github_api_get_over _ _ _ _ _ ?w1] =>
      destruct (IH w1 Hrest) as (w' & Hrun & Hsent & Hslept & Hout & Hlog & Hcsv)
    end.
    exists w'. split; [exact Hrun|].
    fields in Hsent. fields in Hslept. fields in Hout. fields in Hlog. fields in Hcsv.
    rewrite Hsent, Hslept, Hout, Hlog, Hcsv, <- !app_assoc, length_app.
    cbn [app repeat List.length map network_error_lines].
    replace (List.length (sent w) + 1)%nat with (S (List.length (sent w))) by lia.
    auto.
Qed.

(** C2, at the failing input: three rate-limit answers in a row and then
    the data.  [fetch_repo_details_inventory.py] gives up with [[]]
    after the third request, its three attempts spent on the waits, and
    never asks for the data; [fetch_repo_details.py] waits three times
    and gets the data with its fourth request. *)
Theorem C2_inventory_rate_limit_spends_attempts :
  let inventory :=
    Inventory.github_api_get limited_thrice "token t" (OrgRepos "o") None (world0 100) in
  let details :=
    Details.github_api_get limited_thrice "Bearer t" 10 (OrgRepos "o") None (world0 100) in
  fst inventory = Ret (JList [])
  /\ List.length (sent (snd inventory)) = 3%nat
  /\ slept (snd inventory) = [1; 0; 0]
  /\ fst details = Ret (JList [JNum 7])
  /\ List.length (sent (snd details)) = 4%nat
  /\ slept (snd details) = [1; 1; 1]
  /\ error_log (snd details) = [].
Proof. vm_compute. repeat split. Qed.

(** C3, at the failing input: a rate-limit answer whose reset time 100
    is over at time 200.  [fetch_repo_details_inventory.py] computes
    the sleep time -100, without the floor of 1, and [time.sleep]
    raises [ValueError], which leaves [github_api_get];
    [fetch_repo_details.py] sleeps 1 second and goes on. *)
Theorem C3_inventory_sleep_not_floored :
  let inventory :=
    Inventory.github_api_get limited_in_the_past "token t" (OrgRepos "o") None (world0 200) in
  let details :=
    Details.github_api_get limited_in_the_past "Bearer t" 10 (OrgRepos "o") None (world0 200) in
  fst inventory = Raise ValueError
  /\ stdout (snd inventory) = [RateLimitHit (-100)]
  /\ slept (snd inventory) = []
  /\ fst details = Ret (JList [JNum 7])
  /\ slept (snd details) = [Z.max (100 - 200) 1].
Proof. vm_compute. repeat split. Qed.

(** C4 as the claim states it fails for
    [fetch_repo_details_inventory.py]: on a 404 the client returns [[]]
    after one request and prints the failure, and no entry is added to
    the error log. *)
Lemma C4_inventory_leaves_error_log :
  let run :=
    Inventory.github_api_get always_not_found "token t" (OrgRepos "o") None (world0 0) in
  fst run = Ret (JList [])
  /\ List.length (sent (snd run)) = 1%nat
  /\ stdout (snd run) = [RequestFailed (HTTPError 404)]
  /\ ~ (exists entry, error_log (snd run) = error_log (world0 0) ++ [entry]).
Proof.
  vm_compute. repeat split. intros [entry H]. discriminate H.
Qed.

(** C4, amended.  The answer [r] to the request is no rate limit.  In
    [fetch_repo_details.py], when its status is neither 200 nor 201, the
    client appends one entry with the status and the body to the error
    log, returns [None] and has sent this one request only.  In
    [fetch_repo_details_inventory.py], when its status is a 4xx or 5xx,
    the client prints the failure, returns [[]] and has sent this one
    request only; the error log stays as it was. *)
Theorem C4_other_status_not_retried server auth url params w r api_fuel :
  server (List.length (sent w)) (request_of auth url params) = Answers r ->
  (0 < api_fuel)%nat ->
  (rate_limited_by_text r = false ->
   status_code r <> 200 -> status_code r <> 201 ->
   Details.github_api_get server auth api_fuel url params w =
     (Ret JNull,
      mkWorld (now w) (sent w ++ [request_of auth url params])
              (error_log w ++ [(now w, FailedGET url (status_code r) (text r))])
              (stdout w) (logging w) (slept w) (csv w)))
  /\
  (rate_limited_by_quota r = false ->
   400 <= status_code r < 600 ->
   Inventory.github_api_get server auth url params w =
     (Ret (JList []),
      mkWorld (now w) (sent w ++ [request_of auth url params]) (error_log w)
              (stdout w ++ [RequestFailed (HTTPError (status_code r))])
              (logging w) (slept w) (csv w))).
Proof.
  intros Hs Hfuel. split.
  - intros Hr H200 H201. destruct api_fuel as [|fuel]; [lia|].
    unfold Details.github_api_get.
    apply (Details_other_status _ _ _ _ _ _ _ _ _ Hs Hr H200 H201). lia.
  - intros Hr Hst. unfold Inventory.github_api_get.
    apply (Inventory_error_status _ _ _ _ _ _ _ _ Hs Hr Hst).
Qed.

Lemma C4_other_status_not_retried_witness :
  Details.github_api_get always_not_found "Bearer t" 1 (OrgRepos "o") None (world0 50) =
    (Ret JNull,
     mkWorld 50 [request_of "Bearer t" (OrgRepos "o") None]
             [(50, FailedGET (OrgRepos "o") 404 "{message: Not Found}")]
             [] [] [] None).
Proof.
  apply (C4_other_status_not_retried always_not_found "Bearer t" (OrgRepos "o") None
           (world0 50) not_found_response 1%nat).
  - reflexivity.
  - lia.
  - reflexivity.
  - simpl. lia.
  - simpl. lia.
Defined.

(** C5 as the claim states it fails for
    [fetch_repo_details_inventory.py]: three attempts fail with a
    connection error and the error log has no entry for them. *)
Lemma C5_inventory_logs_no_attempt :
  let run :=
    Inventory.github_api_get always_down "token t" (OrgRepos "o") None (world0 0) in
  fst run = Ret (JList [])
  /\ List.length (sent (snd run)) = 3%nat
  /\ ~ (List.length (error_log (snd run)) = 3%nat)
  /\ error_log (snd run) = [].
Proof.
  vm_compute. repeat split. intro H. discriminate H.
Qed.

(** C5, amended.  Every attempt of the request fails with a connection
    error ([err n] is the error of the n-th request of the run).
    [fetch_repo_details.py] sends the request 5 times, sleeps 5, 10,
    15, 20 and 25 seconds, appends one error-log entry per failed
    attempt and a last one when it gives up, and returns [None].
    [fetch_repo_details_inventory.py] sends the request 3 times,
    sleeps 1, 2 and 4 seconds, prints one line per failed attempt,
    leaves the error log as it was, and returns [[]]. *)
Theorem C5_connection_errors_exhaust_retries server auth url params err w api_fuel :
  (forall n, server n (request_of auth url params) = Fails (err n)) ->
  (forall n, is_connection_error (err n) = true) ->
  (5 < api_fuel)%nat ->
  let rq := request_of auth url params in
  let n0 := List.length (sent w) in
  (exists w',
     Details.github_api_get server auth api_fuel url params w = (Ret JNull, w')
     /\ sent w' = sent w ++ [rq; rq; rq; rq; rq]
     /\ slept w' = slept w ++ [5; 10; 15; 20; 25]
     /\ messages w' =
          messages w ++
          [ConnectionErrorRetry url (err n0) 1 5;
           ConnectionErrorRetry url (err (n0 + 1)%nat) 2 5;
           ConnectionErrorRetry url (err (n0 + 2)%nat) 3 5;
           ConnectionErrorRetry url (err (n0 + 3)%nat) 4 5;
           ConnectionErrorRetry url (err (n0 + 4)%nat) 5 5;
           MaxRetriesExceeded url])
  /\
  (exists w',
     Inventory.github_api_get server auth url params w = (Ret (JList []), w')
     /\ sent w' = sent w ++ [rq; rq; rq]
     /\ slept w' = slept w ++ [1; 2; 4]
     /\ stdout w' =
          stdout w ++
          [NetworkErrorOnAttempt 1 (err n0);
           NetworkErrorOnAttempt 2 (err (S n0));
           NetworkErrorOnAttempt 3 (err (S (S n0)))]
     /\ error_log w' = error_log w).
Proof.
  intros Hs He Hfuel rq n0. split.
  - destruct (Details_connection_errors server auth url params err 5 Hs He
                ltac:(unfold sleep_max; lia)
                5%nat 0 w api_fuel) as (w' & Hrun & Hsent & Hslept & Hmsg & _);
      [lia | reflexivity | lia |].
    exists w'. split; [exact Hrun|]. rewrite Hsent, Hslept, Hmsg.
    subst rq n0. cbn. rewrite Nat.add_0_r. auto.
  - destruct (Inventory_connection_errors server auth url params err Hs He
                (Inventory.range 3) w) as (w' & Hrun & Hsent & Hslept & Hout & Hlog & _).
    { cbn. repeat constructor; lia. }
    exists w'. split; [exact Hrun|]. rewrite Hsent, Hslept, Hout, Hlog.
    subst rq n0. cbn. auto.
Qed.

Lemma C5_connection_errors_exhaust_retries_witness :
  (exists w',
     Details.github_api_get always_down "t" 6 (OrgRepos "o") None (world0 0)
       = (Ret JNull, w')
     /\ slept w' = [5; 10; 15; 20; 25]
     /\ List.length (messages w') = 6%nat)
  /\
  (exists w',
     Inventory.github_api_get always_down "t" (OrgRepos "o") None (world0 0)
       = (Ret (JList []), w')
     /\ slept w' = [1; 2; 4]
     /\ error_log w' = []).
Proof.
  destruct (C5_connection_errors_exhaust_retries always_down "t" (OrgRepos "o") None
              (fun _ => ConnectionError "connection refused") (world0 0) 6%nat)
    as [(w1 & H1 & _ & Hs1 & Hm1) (w2 & H2 & _ & Hs2 & _ & Hl2)].
  - intro n. reflexivity.
  - intro n. reflexivity.
  - lia.
  - split.
    + exists w1. split; [exact H1|]. split; [exact Hs1|]. rewrite Hm1. reflexivity.
    + exists w2. split; [exact H2|]. split; [exact Hs2|]. exact Hl2.
Defined.

(** * The paginators *)

Lemma full_page_truthy (per_page : Z) (p : list json) :
  0 < per_page -> per_page <= Z.of_nat (List.length p) -> truthy (JList p) = true.
Proof. destruct p; simpl; [lia | reflexivity]. Qed.

Lemma Details_paginate_pages server auth api_fuel url params_of per_page :
  0 < per_page ->
  forall (pages : list (list json)) (page : Z) (acc : list json)
         (w w1 w2 : World) (last : json) (tail : list json) (fuel : nat),
    fetches (fun p => Details.github_api_get server auth api_fuel url
                        (Some (params_of p)))
            page w (map JList pages) w1 ->
    Forall (fun p => per_page <= Z.of_nat (List.length p)) pages ->
    Details.github_api_get server auth api_fuel url
      (Some (params_of (page + Z.of_nat (List.length pages)))) w1 = (Ret last, w2) ->
    ends_pagination per_page last tail ->
    (List.length pages < fuel)%nat ->
    Details.paginate server auth api_fuel fuel url params_of per_page page acc w
      = (Ret (acc ++ List.concat pages ++ tail), w2).
Proof.
  intros Hpp. induction pages as [|p pages IH];
    intros page acc w w1 w2 last tail fuel Hf Hfull Hlast Hend Hfuel;
    (destruct fuel as [|fuel]; [simpl in Hfuel; lia|]).
  - inversion Hf; subst. cbn [List.length Z.of_nat] in Hlast.
    rewrite Z.add_0_r in Hlast.
    cbn [Details.paginate List.concat app]. unfold bind at 1. rewrite Hlast.
    destruct Hend as [[Hfalsy ->] | [-> Hshort]].
    + rewrite Hfalsy. cbn. rewrite app_nil_r. reflexivity.
    + destruct tail as [|x tail].
      * cbn. rewrite app_nil_r. reflexivity.
      * cbn [truthy negb]. unfold Details.extend, bind, iter, len, or_raise, ret.
        cbn [py_iter py_len]. apply Z.ltb_lt in Hshort. rewrite Hshort. reflexivity.
  - inversion Hf as [|? ? d w' ds ? Hget Hrest]; subst.
    inversion Hfull as [|? ? Hp Hfull']; subst.
    cbn [Details.paginate]. unfold bind at 1. rewrite Hget.
    rewrite (full_page_truthy _ _ Hpp Hp). cbn [negb].
    unfold Details.extend, bind, or_raise, ret. cbn [py_iter py_len].
    replace (Z.of_nat (List.length p) <? per_page) with false
      by (symmetry; apply Z.ltb_ge; lia).
    rewrite (IH (page + 1) (acc ++ p) w' w1 w2 last tail fuel Hrest Hfull').
    + cbn [List.concat]. rewrite <- !app_assoc. reflexivity.
    + replace (page + 1 + Z.of_nat (List.length pages))
        with (page + Z.of_nat (List.length (p :: pages)))
        by (cbn [List.length]; lia).
      exact Hlast.
    + exact Hend.
    + simpl in Hfuel. lia.
Qed.

Lemma Inventory_get_repos_pages server auth org :
  forall (pages : list (list json)) (page : Z) (acc : list json)
         (w w1 w2 : World) (last : json) (tail : list json) (fuel : nat),
    fetches (fun p => Inventory.github_api_get server auth (OrgRepos org)
                        (Some [("per_page", JNum 100); ("page", JNum p)]))
            page w (map JList pages) w1 ->
    Forall (fun p => 100 <= Z.of_nat (List.length p)) pages ->
    Inventory.github_api_get server auth (OrgRepos org)
      (Some [("per_page", JNum 100);
             ("page", JNum (page + Z.of_nat (List.length pages)))]) w1
      = (Ret last, w2) ->
    ends_pagination 100 last tail ->
    (List.length pages < fuel)%nat ->
    Inventory.get_repos_from server auth fuel org page acc w
      = (Ret (acc ++ List.concat pages ++ tail), w2).
Proof.
  induction pages as [|p pages IH];
    intros page acc w w1 w2 last tail fuel Hf Hfull Hlast Hend Hfuel;
    (destruct fuel as [|fuel]; [simpl in Hfuel; lia|]).
  - inversion Hf; subst. cbn [List.length Z.of_nat] in Hlast.
    rewrite Z.add_0_r in Hlast.
    cbn [Inventory.get_repos_from List.concat app]. unfold bind at 1. rewrite Hlast.
    destruct Hend as [[Hfalsy ->] | [-> Hshort]].
    + rewrite Hfalsy. cbn. rewrite app_nil_r. reflexivity.
    + destruct tail as [|x tail].
      * cbn. rewrite app_nil_r. reflexivity.
      * cbn [truthy negb]. unfold bind, iter, len, or_raise, ret.
        cbn [py_iter py_len]. apply Z.ltb_lt in Hshort. rewrite Hshort. reflexivity.
  - inversion Hf as [|? ? d w' ds ? Hget Hrest]; subst.
    inversion Hfull as [|? ? Hp Hfull']; subst.
    cbn [Inventory.get_repos_from]. unfold bind at 1. rewrite Hget.
    rewrite (full_page_truthy 100 _ eq_refl Hp). cbn [negb].
    unfold bind, iter, len, or_raise, ret. cbn [py_iter py_len].
    replace (Z.of_nat (List.length p) <? 100) with false
      by (symmetry; apply Z.ltb_ge; lia).
    rewrite (IH (page + 1) (acc ++ p) w' w1 w2 last tail fuel Hrest Hfull').
    + cbn [List.concat]. rewrite <- !app_assoc. reflexivity.
    + replace (page + 1 + Z.of_nat (List.length pages))
        with (page + Z.of_nat (List.length (p :: pages)))
        by (cbn [List.length]; lia).
      exact Hlast.
    + exact Hend.
    + simpl in Hfuel. lia.
Qed.

Lemma serves_app server rq_of ds :
  forall (n : nat) (page : Z) (d : json),
    serves server rq_of n page (ds ++ [d]) ->
    serves server rq_of n page ds
    /\ exists r, server (n + List.length ds)%nat
                   (rq_of (page + Z.of_nat (List.length ds))) = Answers r
                 /\ status_code r = 200 /\ json_body r = Some d.
Proof.
  induction ds as [|d0 ds IH]; intros n page d H.
  - cbn in H. destruct H as [(r & Hr & Hst & Hb) _]. split; [exact I|].
    exists r. cbn [List.length Z.of_nat]. rewrite Nat.add_0_r, Z.add_0_r. auto.
  - cbn [app serves] in H. destruct H as [H0 Hrest].
    destruct (IH _ _ _ Hrest) as [Hds (r & Hr & Hst & Hb)].
    split; [split; assumption|].
    exists r. split; [|auto].
    replace (n + List.length (d0 :: ds))%nat with (S n + List.length ds)%nat
      by (cbn [List.length]; lia).
    replace (page + Z.of_nat (List.length (d0 :: ds)))
      with (page + 1 + Z.of_nat (List.length ds))
      by (cbn [List.length]; lia).
    exact Hr.
Qed.

Lemma RepoList_pages server org token per_page :
  forall (pages : list (list json)) (page : Z) (acc : list json)
         (w : World) (r : Response) (fuel : nat),
    serves server (repo_list_request org token per_page)
           (List.length (sent w)) page (map JList pages) ->
    Forall (fun p => p <> []) pages ->
    server (List.length (sent w) + List.length pages)%nat
           (repo_list_request org token per_page (page + Z.of_nat (List.length pages)))
      = Answers r ->
    ends_repo_list r ->
    (List.length pages < fuel)%nat ->
    exists w',
      RepoList.get_github_repos_from server fuel org token per_page page acc w
        = (Ret (acc ++ List.concat pages), w')
      /\ sent w' = sent w ++ requests_from (repo_list_request org token per_page)
                                           page (S (List.length pages))
      /\ slept w' = slept w
      /\ csv w' = csv w.
Proof.
  induction pages as [|p pages IH]; intros page acc w r fuel Hsv Hne Hlast Hend Hfuel;
    (destruct fuel as [|fuel]; [simpl in Hfuel; lia|]).
  - cbn [List.length Z.of_nat] in Hlast. rewrite Nat.add_0_r, Z.add_0_r in Hlast.
    unfold repo_list_request in Hlast.
    cbn [RepoList.get_github_repos_from]. unfold bind at 1. unfold requests_get.
    rewrite Hlast.
    destruct Hend as [(Hst & d & Hd & Hfalsy) | (Hst & Hrl & kvs & Hd)].
    + rewrite Hst. cbn [Z.eqb Pos.eqb andb negb].
      unfold response_json, bind, or_raise, ret. rewrite Hd, Hfalsy.
      cbn [negb List.concat]. rewrite app_nil_r.
      eexists. split; [reflexivity|]. fields. auto.
    + unfold rate_limited_by_header in Hrl. rewrite Hrl.
      apply Z.eqb_neq in Hst. rewrite Hst. cbn [negb].
      unfold response_json, bind, or_raise, ret, dict_get, print, logging_at.
      rewrite Hd. cbn [List.concat]. rewrite app_nil_r.
      eexists. split; [reflexivity|]. fields. auto.
  - cbn [map serves] in Hsv. destruct Hsv as [(r0 & Hr0 & Hst & Hb) Hrest].
    inversion Hne as [|? ? Hp Hne']; subst.
    unfold repo_list_request in Hr0.
    cbn [RepoList.get_github_repos_from]. unfold bind at 1. unfold requests_get.
    rewrite Hr0. rewrite Hst. cbn [Z.eqb Pos.eqb andb negb].
    unfold response_json, bind, or_raise, ret. rewrite Hb.
    destruct p as [|x p]; [congruence|]. cbn [truthy negb].
    unfold iter, or_raise, ret. cbn [py_iter].
    match goal with |- context [RepoList.get_github_repos_from _ _ _ _ _ _ _ ?w1] =>
      destruct (IH (page + 1) (acc ++ x :: p) w1 r fuel) as (w' & Hrun & Hsent & Hslept & Hcsv)
    end.
    + fields. rewrite length_app. cbn [List.length].
      replace (List.length (sent w) + 1)%nat with (S (List.length (sent w))) by lia.
      exact Hrest.
    + exact Hne'.
    + fields. rewrite length_app. cbn [List.length].
      replace (List.length (sent w) + 1 + List.length pages)%nat
        with (List.length (sent w) + S (List.length pages))%nat by lia.
      replace (page + 1 + Z.of_nat (List.length pages))
        with (page + Z.of_nat (S (List.length pages))) by lia.
      exact Hlast.
    + exact Hend.
    + simpl in Hfuel. lia.
    + exists w'. split.
      * rewrite Hrun. cbn [List.concat]. rewrite <- !app_assoc. reflexivity.
      * fields in Hsent. fields in Hslept. fields in Hcsv.
        rewrite Hsent, Hslept, Hcsv, <- app_assoc. auto.
Qed.

Lemma full_pages_not_empty (pages : list (list json)) :
  Forall (fun p => 100 <= Z.of_nat (List.length p)) pages ->
  Forall (fun p => p <> []) pages.
Proof.
  intro H. eapply Forall_impl; [|exact H].
  intros p Hp ->. simpl in Hp. lia.
Qed.

(** C1 as the claim states it fails for [get_github_repos] of
    [fetch_repo_list.py]: the first page it receives has one item, fewer
    than the page size 100, and it goes on to request two more pages,
    until the empty one. *)
Lemma C1_repo_list_passes_short_page :
  let run := RepoList.get_github_repos short_first_page 5 "o" "t" (world0 0) in
  short_first_page 0%nat (repo_list_request "o" "t" 100 1)
    = Answers (ok_response (JList [JStr "a"]))
  /\ fst run = Ret [JStr "a"; JStr "b"]
  /\ List.length (sent (snd run)) = 3%nat
  /\ ~ (fst run = Ret [JStr "a"] /\ List.length (sent (snd run)) = 1%nat).
Proof.
  vm_compute. repeat split. intros [H _]. discriminate H.
Qed.

(** C1, amended.  [pages] are full pages (at least 100 items each) and
    [last] is a page of fewer than 100 items, possibly none.  When the
    client returns them for the pages 1, 2, ... in turn, [get_repos] of
    [fetch_repo_details.py] and of [fetch_repo_details_inventory.py]
    returns their concatenation in order, and the world it leaves is the
    one the call for [last] left: no further page is requested.
    [get_github_repos] of [fetch_repo_list.py] stops at the first empty
    page only: when the server answers the pages 1, 2, ... with the
    non-empty [pages] and then an empty list, it returns their
    concatenation and has sent the requests for these pages and no
    other. *)
Theorem C1_paginators_concatenate server auth api_fuel org token fuel
    (pages : list (list json)) (last : list json) :
  Forall (fun p => 100 <= Z.of_nat (List.length p)) pages ->
  Z.of_nat (List.length last) < 100 ->
  (List.length pages < fuel)%nat ->
  (forall w w1 w2,
     fetches (fun p => Details.github_api_get server auth api_fuel (OrgRepos org)
                         (Some (Details.repos_params 100 p)))
             1 w (map JList pages) w1 ->
     Details.github_api_get server auth api_fuel (OrgRepos org)
       (Some (Details.repos_params 100 (1 + Z.of_nat (List.length pages)))) w1
       = (Ret (JList last), w2) ->
     Details.get_repos server auth api_fuel fuel org w
       = (Ret (List.concat (pages ++ [last])), w2))
  /\
  (forall w w1 w2,
     fetches (fun p => Inventory.github_api_get server auth (OrgRepos org)
                         (Some [("per_page", JNum 100); ("page", JNum p)]))
             1 w (map JList pages) w1 ->
     Inventory.github_api_get server auth (OrgRepos org)
       (Some [("per_page", JNum 100);
              ("page", JNum (1 + Z.of_nat (List.length pages)))]) w1
       = (Ret (JList last), w2) ->
     Inventory.get_repos server auth fuel org w
       = (Ret (List.concat (pages ++ [last])), w2))
  /\
  (forall (nonempty : list (list json)) w,
     Forall (fun p => p <> []) nonempty ->
     (List.length nonempty < fuel)%nat ->
     serves server (repo_list_request org token 100) (List.length (sent w)) 1
            (map JList nonempty ++ [JList []]) ->
     exists w',
       RepoList.get_github_repos server fuel org token w
         = (Ret (List.concat nonempty), w')
       /\ sent w' = sent w ++ requests_from (repo_list_request org token 100) 1
                                            (S (List.length nonempty))).
Proof.
  intros Hfull Hshort Hfuel.
  assert (Hend : ends_pagination 100 (JList last) last) by (right; auto).
  split; [|split].
  - intros w w1 w2 Hf Hlast. unfold Details.get_repos.
    rewrite (Details_paginate_pages server auth api_fuel (OrgRepos org)
               (Details.repos_params 100) 100 eq_refl pages 1 [] w w1 w2
               (JList last) last fuel Hf Hfull Hlast Hend Hfuel).
    rewrite concat_app. cbn [List.concat app]. rewrite app_nil_r. reflexivity.
  - intros w w1 w2 Hf Hlast. unfold Inventory.get_repos.
    rewrite (Inventory_get_repos_pages server auth org pages 1 [] w w1 w2
               (JList last) last fuel Hf Hfull Hlast Hend Hfuel).
    rewrite concat_app. cbn [List.concat app]. rewrite app_nil_r. reflexivity.
  - intros nonempty w Hne Hfuel' Hsv.
    destruct (serves_app _ _ _ _ _ _ Hsv) as [Hpages (r & Hr & Hst & Hb)].
    rewrite length_map in Hr.
    destruct (RepoList_pages server org token 100 nonempty 1 [] w r fuel
                Hpages Hne Hr) as (w' & Hrun & Hsent & _).
    + left. split; [exact Hst|]. exists (JList []). auto.
    + exact Hfuel'.
    + exists w'. split; [exact Hrun | exact Hsent].
Qed.

Lemma C1_paginators_concatenate_witness :
  fst (Details.get_repos full_then_short "Bearer t" 1 2 "o" (world0 0))
    = Ret (List.concat ([full_page] ++ [[JStr "z"]]))
  /\ fst (Inventory.get_repos full_then_short "token t" 2 "o" (world0 0))
    = Ret (List.concat ([full_page] ++ [[JStr "z"]]))
  /\ fst (RepoList.get_github_repos full_then_empty 2 "o" "t" (world0 0))
    = Ret (List.concat [full_page]).
Proof.
  destruct (C1_paginators_concatenate full_then_short "Bearer t" 1 "o" "t" 2
              [full_page] [JStr "z"]) as (HD & _ & _).
  { repeat constructor. vm_compute. discriminate. }
  { reflexivity. }
  { simpl. lia. }
  destruct (C1_paginators_concatenate full_then_short "token t" 1 "o" "t" 2
              [full_page] [JStr "z"]) as (_ & HI & _).
  { repeat constructor. vm_compute. discriminate. }
  { reflexivity. }
  { simpl. lia. }
  destruct (C1_paginators_concatenate full_then_empty "Bearer t" 1 "o" "t" 2
              [full_page] [JStr "z"]) as (_ & _ & HR).
  { repeat constructor. vm_compute. discriminate. }
  { reflexivity. }
  { simpl. lia. }
  split; [|split].
  - erewrite HD; [reflexivity | |].
    + eapply fetches_cons; [vm_compute; reflexivity | apply fetches_nil].
    + vm_compute. reflexivity.
  - erewrite HI; [reflexivity | |].
    + eapply fetches_cons; [vm_compute; reflexivity | apply fetches_nil].
    + vm_compute. reflexivity.
  - destruct (HR [full_page] (world0 0)) as (w' & Hrun & _).
    + repeat constructor. discriminate.
    + simpl. lia.
    + cbn. repeat split; eexists; repeat split; reflexivity.
    + rewrite Hrun. reflexivity.
Defined.

(** C10.  [pages] are the full pages accumulated so far.  When the next
    call of the client returns a falsy value ([None] after a failure in
    [fetch_repo_details.py], [[]] in [fetch_repo_details_inventory.py]),
    [get_repos] returns the concatenation of [pages] as an ordinary
    result: the same value, returned in the same way, as when the next
    page is a genuine empty page.  In [fetch_repo_list.py], when the
    next answer ends the loop of [get_github_repos] (an empty page, or
    the [break] on a status other than 200), it returns the
    concatenation of [pages] in the same way. *)
Theorem C10_partial_pages_returned server auth api_fuel org token fuel
    (pages : list (list json)) :
  Forall (fun p => 100 <= Z.of_nat (List.length p)) pages ->
  (List.length pages < fuel)%nat ->
  (forall w w1 w2 sentinel,
     fetches (fun p => Details.github_api_get server auth api_fuel (OrgRepos org)
                         (Some (Details.repos_params 100 p)))
             1 w (map JList pages) w1 ->
     Details.github_api_get server auth api_fuel (OrgRepos org)
       (Some (Details.repos_params 100 (1 + Z.of_nat (List.length pages)))) w1
       = (Ret sentinel, w2) ->
     truthy sentinel = false ->
     Details.get_repos server auth api_fuel fuel org w
       = (Ret (List.concat pages), w2))
  /\
  (forall w w1 w2 sentinel,
     fetches (fun p => Inventory.github_api_get server auth (OrgRepos org)
                         (Some [("per_page", JNum 100); ("page", JNum p)]))
             1 w (map JList pages) w1 ->
     Inventory.github_api_get server auth (OrgRepos org)
       (Some [("per_page", JNum 100);
              ("page", JNum (1 + Z.of_nat (List.length pages)))]) w1
       = (Ret sentinel, w2) ->
     truthy sentinel = false ->
     Inventory.get_repos server auth fuel org w
       = (Ret (List.concat pages), w2))
  /\
  (forall w r,
     serves server (repo_list_request org token 100) (List.length (sent w)) 1
            (map JList pages) ->
     server (List.length (sent w) + List.length pages)%nat
            (repo_list_request org token 100 (1 + Z.of_nat (List.length pages)))
       = Answers r ->
     ends_repo_list r ->
     exists w',
       RepoList.get_github_repos server fuel org token w
         = (Ret (List.concat pages), w')).
Proof.
  intros Hfull Hfuel. split; [|split].
  - intros w w1 w2 sentinel Hf Hlast Hfalsy. unfold Details.get_repos.
    rewrite (Details_paginate_pages server auth api_fuel (OrgRepos org)
               (Details.repos_params 100) 100 eq_refl pages 1 [] w w1 w2
               sentinel [] fuel Hf Hfull Hlast (or_introl (conj Hfalsy eq_refl)) Hfuel).
    cbn [app]. rewrite app_nil_r. reflexivity.
  - intros w w1 w2 sentinel Hf Hlast Hfalsy. unfold Inventory.get_repos.
    rewrite (Inventory_get_repos_pages server auth org pages 1 [] w w1 w2
               sentinel [] fuel Hf Hfull Hlast (or_introl (conj Hfalsy eq_refl)) Hfuel).
    cbn [app]. rewrite app_nil_r. reflexivity.
  - intros w r Hsv Hr Hend.
    destruct (RepoList_pages server org token 100 pages 1 [] w r fuel
                Hsv (full_pages_not_empty _ Hfull) Hr Hend Hfuel) as (w' & Hrun & _).
    exists w'. exact Hrun.
Qed.

Lemma C10_partial_pages_returned_witness :
  fst (Details.get_repos full_then_error "Bearer t" 1 2 "o" (world0 0))
    = Ret full_page
  /\ fst (Inventory.get_repos full_then_error "token t" 2 "o" (world0 0))
    = Ret full_page
  /\ fst (RepoList.get_github_repos full_then_error 2 "o" "t" (world0 0))
    = Ret full_page.
Proof.
  destruct (C10_partial_pages_returned full_then_error "Bearer t" 1 "o" "t" 2
              [full_page]) as (HD & _ & HR).
  { repeat constructor. vm_compute. discriminate. }
  { simpl. lia. }
  destruct (C10_partial_pages_returned full_then_error "token t" 1 "o" "t" 2
              [full_page]) as (_ & HI & _).
  { repeat constructor. vm_compute. discriminate. }
  { simpl. lia. }
  split; [|split].
  - erewrite HD; [reflexivity | | |].
    + eapply fetches_cons; [vm_compute; reflexivity | apply fetches_nil].
    + vm_compute. reflexivity.
    + reflexivity.
  - erewrite HI; [reflexivity | | |].
    + eapply fetches_cons; [vm_compute; reflexivity | apply fetches_nil].
    + vm_compute. reflexivity.
    + reflexivity.
  - destruct (HR (world0 0)
               (mkResponse 500 "{message: Server Error}" []
                  (Some (JObj [("message", JStr "Server Error")]))))
      as (w' & Hrun).
    + cbn. repeat split; eexists; repeat split; reflexivity.
    + reflexivity.
    + right. split; [discriminate|]. split; [reflexivity|]. eexists. reflexivity.
    + rewrite Hrun. reflexivity.
Defined.

(** * Issue counts *)

Lemma count_issues_only_cons item items :
  count_issues_only (item :: items) =
  (if has_marker item then 0 else 1) + count_issues_only items.
Proof.
  unfold count_issues_only. cbn [filter].
  destruct (has_marker item); cbn [negb List.length]; lia.
Qed.

Lemma count_issues_only_app items items' :
  count_issues_only (items ++ items') =
  count_issues_only items + count_issues_only items'.
Proof.
  unfold count_issues_only. rewrite filter_app, length_app. lia.
Qed.

(** The generator expression of [count_issues] counts the items without
    the marker, and only them. *)
Lemma count_without_objects (items : list (list (string * json))) (w : World) :
  count_without "pull_request" (map JObj items) w = (Ret (count_issues_only items), w).
Proof.
  induction items as [|item items IH].
  - reflexivity.
  - cbn [map count_without]. unfold bind at 1. unfold or_raise. cbn [py_in].
    unfold ret at 1. unfold bind at 1. rewrite IH.
    rewrite count_issues_only_cons. unfold has_marker, ret.
    destruct (assoc "pull_request" item); reflexivity.
Qed.

(** The list comprehension of the inventory script keeps the items
    without the marker, and only them. *)
Lemma without_pull_request_objects
    (items : list (list (string * json))) (w : World) :
  Inventory.without_pull_request (map JObj items) w =
    (Ret (map JObj (filter (fun item => negb (has_marker item)) items)), w).
Proof.
  induction items as [|item items IH].
  - reflexivity.
  - cbn [map Inventory.without_pull_request]. unfold bind at 1. unfold or_raise.
    cbn [py_in]. unfold ret at 1. unfold bind at 1. rewrite IH.
    cbn [filter]. unfold has_marker, ret.
    destruct (assoc "pull_request" item); reflexivity.
Qed.

Lemma Details_count_issues_pages server auth api_fuel url state per_page :
  0 < per_page ->
  forall (pages : list (list (list (string * json)))) (page count : Z)
         (w w1 w2 : World) (last : json) (tail : list (list (string * json)))
         (fuel : nat),
    fetches (fun p => Details.github_api_get server auth api_fuel url
                        (Some (issue_params state per_page p)))
            page w (map page_of pages) w1 ->
    Forall (fun p => per_page <= Z.of_nat (List.length p)) pages ->
    Details.github_api_get server auth api_fuel url
      (Some (issue_params state per_page (page + Z.of_nat (List.length pages)))) w1
      = (Ret last, w2) ->
    ends_pagination per_page last (map JObj tail) ->
    (List.length pages < fuel)%nat ->
    Details.count_issues server auth api_fuel fuel url state per_page page count w
      = (Ret (count + count_issues_only (List.concat pages ++ tail)), w2).
Proof.
  intros Hpp. induction pages as [|p pages IH];
    intros page count w w1 w2 last tail fuel Hf Hfull Hlast Hend Hfuel;
    (destruct fuel as [|fuel]; [simpl in Hfuel; lia|]).
  - inversion Hf; subst. cbn [List.length Z.of_nat] in Hlast.
    rewrite Z.add_0_r in Hlast. unfold issue_params in Hlast.
    cbn [Details.count_issues List.concat app]. unfold bind at 1. rewrite Hlast.
    destruct Hend as [[Hfalsy Htail] | [-> Hshort]].
    + rewrite Hfalsy. destruct tail; [|discriminate Htail].
      cbn. rewrite Z.add_0_r. reflexivity.
    + destruct tail as [|x tail].
      * cbn. rewrite Z.add_0_r. reflexivity.
      * cbn [map truthy negb]. unfold iter, or_raise. cbn [py_iter].
        unfold ret at 1. unfold bind at 1.
        change (JObj x :: map JObj tail) with (map JObj (x :: tail)).
        unfold bind at 1. rewrite count_without_objects.
        unfold len, or_raise, bind, ret. cbn [py_len].
        rewrite length_map in Hshort |- *.
        apply Z.ltb_lt in Hshort. rewrite Hshort. reflexivity.
  - inversion Hf as [|? ? d w' ds ? Hget Hrest]; subst.
    inversion Hfull as [|? ? Hp Hfull']; subst.
    unfold issue_params in Hget.
    cbn [Details.count_issues]. unfold bind at 1. rewrite Hget.
    unfold page_of.
    rewrite (full_page_truthy per_page (map JObj p) Hpp)
      by (rewrite length_map; exact Hp).
    cbn [negb]. unfold iter, or_raise. cbn [py_iter].
    unfold ret at 1. unfold bind at 1.
    unfold bind at 1. rewrite count_without_objects.
    unfold len, or_raise. cbn [py_len]. unfold ret at 1. unfold bind at 1.
    rewrite length_map.
    replace (Z.of_nat (List.length p) <? per_page) with false
      by (symmetry; apply Z.ltb_ge; lia).
    rewrite (IH (page + 1) (count + count_issues_only p) w' w1 w2 last tail fuel
               Hrest Hfull').
    + cbn [List.concat]. rewrite <- app_assoc, (count_issues_only_app p).
      rewrite Z.add_assoc. reflexivity.
    + replace (page + 1 + Z.of_nat (List.length pages))
        with (page + Z.of_nat (List.length (p :: pages)))
        by (cbn [List.length]; lia).
      exact Hlast.
    + exact Hend.
    + simpl in Hfuel. lia.
Qed.

(** C6.  In [fetch_repo_details.py], [get_issue_counts] makes its two
    probe calls and then pages through the open and the closed issues;
    when the client returns the full pages [open_pages] and the short
    page [open_last] (and likewise for the closed ones), the two counts
    are the numbers of items without the pull-request marker among all
    items returned.  In [fetch_repo_details_inventory.py], when the two
    calls return the lists [open_items] and [closed_items], the two
    counts are the numbers of items without the marker in each list. *)
Theorem C6_issue_counts_exclude_pull_requests server auth api_fuel org repo fuel
    (open_pages closed_pages : list (list (list (string * json))))
    (open_last closed_last : list (list (string * json))) :
  Forall (fun p => 100 <= Z.of_nat (List.length p)) open_pages ->
  Forall (fun p => 100 <= Z.of_nat (List.length p)) closed_pages ->
  Z.of_nat (List.length open_last) < 100 ->
  Z.of_nat (List.length closed_last) < 100 ->
  (List.length open_pages < fuel)%nat ->
  (List.length closed_pages < fuel)%nat ->
  (forall w p1 w1 p2 w2 w3 w4 w5 w6,
     Details.github_api_get server auth api_fuel (Issues org repo)
       (Some [("state", JStr "open"); ("per_page", JNum 1)]) w = (Ret p1, w1) ->
     Details.github_api_get server auth api_fuel (Issues org repo)
       (Some [("state", JStr "closed"); ("per_page", JNum 1)]) w1 = (Ret p2, w2) ->
     fetches (fun p => Details.github_api_get server auth api_fuel (Issues org repo)
                         (Some (issue_params "open" 100 p)))
             1 w2 (map page_of open_pages) w3 ->
     Details.github_api_get server auth api_fuel (Issues org repo)
       (Some (issue_params "open" 100 (1 + Z.of_nat (List.length open_pages)))) w3
       = (Ret (page_of open_last), w4) ->
     fetches (fun p => Details.github_api_get server auth api_fuel (Issues org repo)
                         (Some (issue_params "closed" 100 p)))
             1 w4 (map page_of closed_pages) w5 ->
     Details.github_api_get server auth api_fuel (Issues org repo)
       (Some (issue_params "closed" 100 (1 + Z.of_nat (List.length closed_pages)))) w5
       = (Ret (page_of closed_last), w6) ->
     Details.get_issue_counts server auth api_fuel fuel org repo w
       = (Ret (count_issues_only (List.concat open_pages ++ open_last),
               count_issues_only (List.concat closed_pages ++ closed_last)), w6))
  /\
  (forall (open_items closed_items : list (list (string * json))) w w1 w2,
     Inventory.github_api_get server auth (Issues org repo)
       (Some [("state", JStr "open")]) w = (Ret (page_of open_items), w1) ->
     Inventory.github_api_get server auth (Issues org repo)
       (Some [("state", JStr "closed")]) w1 = (Ret (page_of closed_items), w2) ->
     Inventory.get_issue_counts server auth org repo w
       = (Ret (count_issues_only open_items, count_issues_only closed_items), w2)).
Proof.
  intros Hfo Hfc Hso Hsc Hfuel_o Hfuel_c. split.
  - intros w p1 w1 p2 w2 w3 w4 w5 w6 Hp1 Hp2 Hopen Hopen_last Hclosed Hclosed_last.
    unfold Details.get_issue_counts.
    unfold bind at 1. rewrite Hp1. unfold bind at 1. rewrite Hp2.
    unfold bind at 1.
    rewrite (Details_count_issues_pages server auth api_fuel (Issues org repo)
               "open" 100 eq_refl open_pages 1 0 w2 w3 w4 (page_of open_last)
               open_last fuel Hopen Hfo Hopen_last);
      [| right; split; [reflexivity | rewrite length_map; exact Hso] | exact Hfuel_o].
    unfold bind at 1.
    rewrite (Details_count_issues_pages server auth api_fuel (Issues org repo)
               "closed" 100 eq_refl closed_pages 1 0 w4 w5 w6 (page_of closed_last)
               closed_last fuel Hclosed Hfc Hclosed_last);
      [| right; split; [reflexivity | rewrite length_map; exact Hsc] | exact Hfuel_c].
    reflexivity.
  - intros open_items closed_items w w1 w2 Hopen Hclosed.
    unfold Inventory.get_issue_counts.
    unfold bind at 1. rewrite Hopen. unfold bind at 1. rewrite Hclosed.
    unfold page_of, iter, or_raise. cbn [py_iter].
    unfold ret at 1. unfold bind at 1.
    unfold bind at 1. rewrite without_pull_request_objects.
    unfold ret at 1. unfold bind at 1.
    unfold bind at 1. rewrite without_pull_request_objects.
    unfold ret, count_issues_only. rewrite !length_map. reflexivity.
Qed.

Lemma C6_issue_counts_exclude_pull_requests_witness :
  fst (Details.get_issue_counts always_three_items "Bearer t" 1 1 "o" (JStr "r")
         (world0 0)) = Ret (2, 2)
  /\ fst (Inventory.get_issue_counts always_three_items "Bearer t" "o" (JStr "r")
            (world0 0)) = Ret (2, 2).
Proof.
  destruct (C6_issue_counts_exclude_pull_requests always_three_items "Bearer t" 1
              "o" (JStr "r") 1 [] [] three_items three_items) as [HD HI].
  { constructor. }
  { constructor. }
  { reflexivity. }
  { reflexivity. }
  { simpl. lia. }
  { simpl. lia. }
  split.
  - erewrite HD; [reflexivity | | | | | |].
    + vm_compute. reflexivity.
    + vm_compute. reflexivity.
    + apply fetches_nil.
    + vm_compute. reflexivity.
    + apply fetches_nil.
    + vm_compute. reflexivity.
  - erewrite (HI three_items three_items); [reflexivity | |].
    + vm_compute. reflexivity.
    + vm_compute. reflexivity.
Defined.

(** * Startup *)

Lemma assoc_app {A : Type} (k : string) (a b : list (string * A)) :
  assoc k (a ++ b) = match assoc k a with Some v => Some v | None => assoc k b end.
Proof.
  induction a as [|[k' v] a IH]; [reflexivity|].
  cbn [app assoc]. destruct (String.eqb k k'); [reflexivity | exact IH].
Qed.

(** A variable that is missing after [load_dotenv()] was missing in the
    process environment too. *)
Lemma unset_after_load (config : Config) (k : string) :
  is_set (getenv (load_dotenv config) k) = false ->
  is_set (getenv config k) = false.
Proof.
  unfold getenv, load_dotenv. cbn [environ]. rewrite assoc_app.
  destruct (assoc k (environ config)); [auto | reflexivity].
Qed.

(** C8 as the claim states it fails for [fetch_repo_details.py]: with
    no organisation configured its [main] prints and returns, and the
    process ends with status 0; with the organisation configured and no
    token, nothing is checked and the first request is sent. *)
Lemma C8_details_exit_status_zero :
  let no_org := Details.main always_not_found (mkConfig [] []) 1 1 (world0 0) in
  let no_token :=
    Details.main always_not_found (mkConfig [("ORG_NAME", "o")] []) 1 1 (world0 0) in
  exit_status (fst no_org) = Some 0
  /\ ~ (exists code, exit_status (fst no_org) = Some code /\ code <> 0)
  /\ sent (snd no_token)
       = [mkRequest (OrgRepos "o") "Bearer None"
            (Some (Details.repos_params 100 1))].
Proof.
  vm_compute. repeat split. intros (code & Hc & Hne). injection Hc as <-.
  apply Hne. reflexivity.
Qed.

(** C8, amended.  When the organisation or the token is missing from the
    environment and the [.env] file, [fetch_repo_details_inventory.py]
    and [fetch_repo_list.py] print a message and exit with status 1;
    no request has been sent and no CSV file opened.  When the
    organisation is missing, [fetch_repo_details.py] prints a message
    and returns from [main], again with no request sent and no CSV
    file opened. *)
Theorem C8_missing_configuration server config api_fuel fuel w :
  (is_set (getenv (load_dotenv config) "GH_ORG") = false
   \/ is_set (getenv (load_dotenv config) "GH_PAT") = false ->
   (exists msg,
      Inventory.script server config fuel w =
        (Raise (SystemExit 1),
         mkWorld (now w) (sent w) (error_log w) (stdout w ++ [Say msg])
                 (logging w) (slept w) (csv w)))
   /\
   (exists msg line,
      RepoList.script server config fuel w =
        (Raise (SystemExit 1),
         mkWorld (now w) (sent w) (error_log w) (stdout w ++ [Say msg])
                 (logging w ++ [("ERROR", Say line)]) (slept w) (csv w)))
   /\ exit_status (@Raise unit (SystemExit 1)) = Some 1)
  /\
  (is_set (getenv (load_dotenv config) "ORG_NAME") = false ->
   exists msg,
     Details.main server config api_fuel fuel w =
       (Ret tt,
        mkWorld (now w) (sent w) (error_log w) (stdout w ++ [Say msg])
                (logging w) (slept w) (csv w))).
Proof.
  split.
  - intros Hmissing. split; [|split; [|reflexivity]].
    + unfold Inventory.script.
      replace (negb (is_set (getenv (load_dotenv config) "GH_PAT"))
               || negb (is_set (getenv (load_dotenv config) "GH_ORG"))) with true
        by (destruct Hmissing as [-> | ->]; cbn; [rewrite orb_true_r|]; reflexivity).
      eexists. reflexivity.
    + unfold RepoList.script.
      destruct Hmissing as [Horg | Hpat].
      * rewrite (unset_after_load _ _ Horg). cbn [negb orb]. rewrite Horg.
        cbn [negb orb]. eexists. eexists. reflexivity.
      * rewrite (unset_after_load _ _ Hpat). rewrite orb_true_r. rewrite Hpat.
        rewrite orb_true_r. eexists. eexists. reflexivity.
  - intros Horg. unfold Details.main. rewrite Horg. cbn [negb].
    eexists. reflexivity.
Qed.

Lemma C8_missing_configuration_witness :
  exit_status
    (fst (Inventory.script always_not_found (mkConfig [("GH_ORG", "o")] []) 1 (world0 0)))
    = Some 1
  /\ exit_status
       (fst (RepoList.script always_not_found (mkConfig [("GH_ORG", "o")] []) 1 (world0 0)))
     = Some 1
  /\ sent (snd (Details.main always_not_found (mkConfig [("GH_ORG", "o")] []) 1 1 (world0 0)))
     = [].
Proof.
  destruct (C8_missing_configuration always_not_found (mkConfig [("GH_ORG", "o")] [])
              1%nat 1%nat (world0 0)) as [Hexit Hdetails].
  destruct Hexit as ((m1 & H1) & (m2 & l2 & H2) & _).
  { right. reflexivity. }
  destruct Hdetails as (m3 & H3).
  { reflexivity. }
  rewrite H1, H2, H3. repeat split.
Defined.

(** * The repository loop *)

(** ** Computations that leave the report alone *)

Lemma same_report_refl w : same_report w w.
Proof. split; reflexivity. Qed.

Lemma same_report_trans w1 w2 w3 :
  same_report w1 w2 -> same_report w2 w3 -> same_report w1 w3.
Proof. intros [H1 H2] [H3 H4]. split; congruence. Qed.

Lemma quiet_ret {A} (a : A) : quiet (ret a).
Proof. intro w. apply same_report_refl. Qed.

Lemma quiet_raise {A} (e : exn) : quiet (@raise A e).
Proof. intro w. apply same_report_refl. Qed.

Lemma quiet_out_of_fuel {A} : quiet (@out_of_fuel A).
Proof. intro w. apply same_report_refl. Qed.

Lemma quiet_bind {A B} (m : M A) (f : A -> M B) :
  quiet m -> (forall a, quiet (f a)) -> quiet (bind m f).
Proof.
  intros Hm Hf w. unfold bind. specialize (Hm w).
  destruct (m w) as [[a|e|] w1]; cbn [snd] in *; try exact Hm.
  eapply same_report_trans; [exact Hm | apply Hf].
Qed.

Lemma quiet_try_except {A} (m : M A) (h : exn -> M A) :
  quiet m -> (forall e, quiet (h e)) -> quiet (try_except m h).
Proof.
  intros Hm Hh w. unfold try_except. specialize (Hm w).
  destruct (m w) as [[a|e|] w1]; cbn [snd] in *; try exact Hm.
  destruct (is_exception e); cbn [snd]; [|exact Hm].
  eapply same_report_trans; [exact Hm | apply Hh].
Qed.

Lemma quiet_or_raise {A} (e : exn) (o : option A) : quiet (or_raise e o).
Proof. destruct o; [apply quiet_ret | apply quiet_raise]. Qed.

Lemma quiet_time_time : quiet time_time.
Proof. intro w. apply same_report_refl. Qed.

Lemma quiet_time_sleep d : quiet (time_sleep d).
Proof.
  intro w. unfold time_sleep.
  destruct (d <? 0); [|destruct (sleep_max <? d)]; split; reflexivity.
Qed.

Lemma quiet_print m : quiet (print m).
Proof. intro w. split; reflexivity. Qed.

Lemma quiet_log_error m : is_processing_error m = false -> quiet (log_error m).
Proof.
  intros Hm w. split; [reflexivity|].
  unfold processing_errors, log_error. fields. rewrite flat_map_app.
  cbn [flat_map]. unfold processing_error. cbn [snd].
  destruct m; try discriminate Hm; rewrite !app_nil_r; reflexivity.
Qed.

Lemma quiet_requests_get server auth url params :
  quiet (requests_get server auth url params).
Proof.
  intro w. unfold requests_get.
  destruct (server _ _); split; reflexivity.
Qed.

Lemma quiet_response_json r : quiet (response_json r).
Proof. apply quiet_or_raise. Qed.

Lemma quiet_getitem v k : quiet (getitem v k).
Proof. destruct v; try apply quiet_raise. apply quiet_or_raise. Qed.

Lemma quiet_getitem0 v : quiet (getitem0 v).
Proof. destruct v; try apply quiet_raise; apply quiet_or_raise. Qed.

Lemma quiet_dict_get v k d : quiet (dict_get v k d).
Proof. destruct v; try apply quiet_raise. apply quiet_ret. Qed.

Lemma quiet_len v : quiet (len v).
Proof. apply quiet_or_raise. Qed.

Lemma quiet_iter v : quiet (iter v).
Proof. apply quiet_or_raise. Qed.

Lemma quiet_len_or_zero v : quiet (len_or_zero v).
Proof. unfold len_or_zero. destruct (truthy v); [apply quiet_len | apply quiet_ret]. Qed.

Lemma quiet_size_mb v : quiet (size_mb v).
Proof. destruct v; try apply quiet_raise; apply quiet_ret. Qed.

Create HintDb quiet.
#[local] Hint Resolve quiet_ret quiet_raise quiet_out_of_fuel quiet_or_raise
  quiet_time_time quiet_time_sleep quiet_print quiet_requests_get
  quiet_response_json quiet_getitem quiet_getitem0 quiet_dict_get quiet_len
  quiet_iter quiet_len_or_zero quiet_size_mb : quiet.
#[local] Hint Extern 1 (quiet (log_error _)) =>
  apply quiet_log_error; reflexivity : quiet.

Ltac quiet_step :=
  match goal with
  | |- quiet (bind _ _) => apply quiet_bind; [|intro]
  | |- quiet (try_except _ _) => apply quiet_try_except; [|intro]
  | |- quiet (if ?b then _ else _) => destruct b
  | |- quiet (match ?x with _ => _ end) => destruct x
  | |- quiet _ => solve [auto with quiet]
  end.

Ltac quiet_auto := repeat quiet_step.

Lemma quiet_count_without k items : quiet (count_without k items).
Proof. induction items; cbn [count_without]; quiet_auto. Qed.
#[local] Hint Resolve quiet_count_without : quiet.

Lemma quiet_Details_attempt server auth url params max_retries retries :
  quiet (Details.attempt server auth url params max_retries retries).
Proof. unfold Details.attempt. quiet_auto. Qed.
#[local] Hint Resolve quiet_Details_attempt : quiet.

Lemma quiet_Details_github_api_get_from server auth fuel url params max_retries :
  forall retries,
    quiet (Details.github_api_get_from server auth fuel url params max_retries retries).
Proof.
  induction fuel as [|fuel IH]; intro retries;
    cbn [Details.github_api_get_from]; quiet_auto.
Qed.

Lemma quiet_Details_github_api_get server auth api_fuel url params :
  quiet (Details.github_api_get server auth api_fuel url params).
Proof. apply quiet_Details_github_api_get_from. Qed.
#[local] Hint Resolve quiet_Details_github_api_get : quiet.

Lemma quiet_Details_paginate server auth api_fuel fuel url params_of per_page :
  forall page acc,
    quiet (Details.paginate server auth api_fuel fuel url params_of per_page page acc).
Proof.
  induction fuel as [|fuel IH]; intros page acc;
    cbn [Details.paginate]; unfold Details.extend; quiet_auto.
Qed.
#[local] Hint Resolve quiet_Details_paginate : quiet.

Lemma quiet_Details_count_merged server auth api_fuel org repo prs :
  forall merged, quiet (Details.count_merged server auth api_fuel org repo prs merged).
Proof.
  induction prs as [|pr prs IH]; intro merged;
    cbn [Details.count_merged]; quiet_auto.
Qed.
#[local] Hint Resolve quiet_Details_count_merged : quiet.

Lemma quiet_Details_merged_loop server auth api_fuel fuel org repo per_page :
  forall page merged,
    quiet (Details.merged_loop server auth api_fuel fuel org repo per_page page merged).
Proof.
  induction fuel as [|fuel IH]; intros page merged;
    cbn [Details.merged_loop]; quiet_auto.
Qed.
#[local] Hint Resolve quiet_Details_merged_loop : quiet.

Lemma quiet_Details_count_issues server auth api_fuel fuel url state per_page :
  forall page count,
    quiet (Details.count_issues server auth api_fuel fuel url state per_page page count).
Proof.
  induction fuel as [|fuel IH]; intros page count;
    cbn [Details.count_issues]; quiet_auto.
Qed.
#[local] Hint Resolve quiet_Details_count_issues : quiet.

Lemma quiet_Details_aggregate server auth api_fuel fuel org repo :
  quiet (Details.aggregate server auth api_fuel fuel org repo).
Proof.
  unfold Details.aggregate, Details.get_pr_counts, Details.get_issue_counts,
    Details.get_branches, Details.get_tags, Details.get_last_commit,
    Details.get_primary_language.
  quiet_auto.
Qed.

Lemma quiet_Inventory_raise_for_status r : quiet (Inventory.raise_for_status r).
Proof. unfold Inventory.raise_for_status. quiet_auto. Qed.
#[local] Hint Resolve quiet_Inventory_raise_for_status : quiet.

Lemma quiet_Inventory_attempt_body server auth url params attempt :
  quiet (Inventory.attempt_body server auth url params attempt).
Proof. unfold Inventory.attempt_body. quiet_auto. Qed.
#[local] Hint Resolve quiet_Inventory_attempt_body : quiet.

Lemma quiet_Inventory_github_api_get_over server auth attempts url params :
  quiet (Inventory.github_api_get_over server auth attempts url params).
Proof.
  induction attempts as [|a attempts IH];
    cbn [Inventory.github_api_get_over]; quiet_auto.
Qed.

Lemma quiet_Inventory_github_api_get server auth url params :
  quiet (Inventory.github_api_get server auth url params).
Proof. apply quiet_Inventory_github_api_get_over. Qed.
#[local] Hint Resolve quiet_Inventory_github_api_get : quiet.

Lemma quiet_Inventory_count_merged prs : quiet (Inventory.count_merged prs).
Proof. induction prs; cbn [Inventory.count_merged]; quiet_auto. Qed.
#[local] Hint Resolve quiet_Inventory_count_merged : quiet.

Lemma quiet_Inventory_without_pull_request issues :
  quiet (Inventory.without_pull_request issues).
Proof. induction issues; cbn [Inventory.without_pull_request]; quiet_auto. Qed.
#[local] Hint Resolve quiet_Inventory_without_pull_request : quiet.

Lemma quiet_Inventory_aggregate server auth org repo :
  quiet (Inventory.aggregate server auth org repo).
Proof.
  unfold Inventory.aggregate, Inventory.get_pr_counts, Inventory.get_issue_counts,
    Inventory.get_branches, Inventory.get_tags, Inventory.get_last_commit,
    Inventory.get_primary_language.
  quiet_auto.
Qed.

(** ** Computations that come to an end *)

Lemma ends_ret {A} b (a : A) : ends b (ret a).
Proof. intro w. exact I. Qed.

Lemma ends_raise {A} b (e : exn) : is_exception e = true -> ends b (@raise A e).
Proof. intros H w. exact H. Qed.

Lemma ends_out_of_fuel {A} : ends true (@out_of_fuel A).
Proof. intro w. reflexivity. Qed.

Lemma ends_bind {A B} b (m : M A) (f : A -> M B) :
  ends b m -> (forall a, ends b (f a)) -> ends b (bind m f).
Proof.
  intros Hm Hf w. unfold bind. specialize (Hm w).
  destruct (m w) as [[a|e|] w1]; cbn [fst] in *; try exact Hm. apply Hf.
Qed.

Lemma ends_try_except {A} b (m : M A) (h : exn -> M A) :
  ends b m -> (forall e, is_exception e = true -> ends b (h e)) ->
  ends b (try_except m h).
Proof.
  intros Hm Hh w. unfold try_except. specialize (Hm w).
  destruct (m w) as [[a|e|] w1]; cbn [fst] in *; try exact Hm.
  rewrite Hm. apply Hh. exact Hm.
Qed.

Lemma ends_or_raise {A} b (e : exn) (o : option A) :
  is_exception e = true -> ends b (or_raise e o).
Proof. intro H. destruct o; [apply ends_ret | apply ends_raise; exact H]. Qed.

Lemma ends_time_time b : ends b time_time.
Proof. intro w. exact I. Qed.

Lemma ends_time_sleep b d : ends b (time_sleep d).
Proof.
  intro w. unfold time_sleep.
  destruct (d <? 0); [|destruct (sleep_max <? d)]; [reflexivity | reflexivity | exact I].
Qed.

Lemma ends_print b m : ends b (print m).
Proof. intro w. exact I. Qed.

Lemma ends_log_error b m : ends b (log_error m).
Proof. intro w. exact I. Qed.

Lemma ends_requests_get b server auth url params :
  raises_only_exceptions server -> ends b (requests_get server auth url params).
Proof.
  intros Hs w. unfold requests_get.
  destruct (server _ _) as [r|e] eqn:E; [exact I | exact (Hs _ _ _ E)].
Qed.

Lemma ends_response_json b r : ends b (response_json r).
Proof. apply ends_or_raise. reflexivity. Qed.

Lemma ends_getitem b v k : ends b (getitem v k).
Proof.
  destruct v; try (apply ends_raise; reflexivity). apply ends_or_raise. reflexivity.
Qed.

Lemma ends_getitem0 b v : ends b (getitem0 v).
Proof.
  destruct v; try (apply ends_raise; reflexivity); apply ends_or_raise; reflexivity.
Qed.

Lemma ends_dict_get b v k d : ends b (dict_get v k d).
Proof. destruct v; try (apply ends_raise; reflexivity). apply ends_ret. Qed.

Lemma ends_len b v : ends b (len v).
Proof. apply ends_or_raise. reflexivity. Qed.

Lemma ends_iter b v : ends b (iter v).
Proof. apply ends_or_raise. reflexivity. Qed.

Lemma ends_len_or_zero b v : ends b (len_or_zero v).
Proof. unfold len_or_zero. destruct (truthy v); [apply ends_len | apply ends_ret]. Qed.

Lemma ends_size_mb b v : ends b (size_mb v).
Proof. destruct v; try (apply ends_raise; reflexivity); apply ends_ret. Qed.

Create HintDb ends.
#[local] Hint Resolve ends_ret ends_out_of_fuel ends_time_time ends_time_sleep
  ends_print ends_log_error ends_requests_get ends_response_json ends_getitem
  ends_getitem0 ends_dict_get ends_len ends_iter ends_len_or_zero ends_size_mb
  : ends.
#[local] Hint Extern 1 (ends _ (raise _)) =>
  apply ends_raise; solve [reflexivity | assumption] : ends.
#[local] Hint Extern 1 (ends _ (or_raise _ _)) =>
  apply ends_or_raise; reflexivity : ends.

Ltac ends_step :=
  match goal with
  | |- ends _ (bind _ _) => apply ends_bind; [|intro]
  | |- ends _ (try_except _ _) => apply ends_try_except; [|intros ? ?]
  | |- ends _ (if ?b then _ else _) => destruct b
  | |- ends _ (match ?x with _ => _ end) => destruct x
  | |- ends _ _ => solve [auto with ends]
  end.

Ltac ends_auto := repeat ends_step.

Lemma ends_count_without b k items : ends b (count_without k items).
Proof. induction items; cbn [count_without]; ends_auto. Qed.
#[local] Hint Resolve ends_count_without : ends.

Section DetailsEnds.
Variable server : Server.
Hypothesis Hserver : raises_only_exceptions server.
Variables (auth : string) (api_fuel : nat).

Lemma ends_Details_attempt url params max_retries retries :
  ends true (Details.attempt server auth url params max_retries retries).
Proof. unfold Details.attempt. ends_auto. Qed.
Hint Resolve ends_Details_attempt : ends.

Lemma ends_Details_github_api_get_from fuel url params max_retries :
  forall retries,
    ends true (Details.github_api_get_from server auth fuel url params
                 max_retries retries).
Proof.
  induction fuel as [|fuel IH]; intro retries;
    cbn [Details.github_api_get_from]; ends_auto.
Qed.

Lemma ends_Details_github_api_get url params :
  ends true (Details.github_api_get server auth api_fuel url params).
Proof. apply ends_Details_github_api_get_from. Qed.
Hint Resolve ends_Details_github_api_get : ends.

Lemma ends_Details_paginate fuel url params_of per_page :
  forall page acc,
    ends true (Details.paginate server auth api_fuel fuel url params_of
                 per_page page acc).
Proof.
  induction fuel as [|fuel IH]; intros page acc;
    cbn [Details.paginate]; unfold Details.extend; ends_auto.
Qed.
Hint Resolve ends_Details_paginate : ends.

Lemma ends_Details_count_merged org repo prs :
  forall merged,
    ends true (Details.count_merged server auth api_fuel org repo prs merged).
Proof.
  induction prs as [|pr prs IH]; intro merged;
    cbn [Details.count_merged]; ends_auto.
Qed.
Hint Resolve ends_Details_count_merged : ends.

Lemma ends_Details_merged_loop fuel org repo per_page :
  forall page merged,
    ends true (Details.merged_loop server auth api_fuel fuel org repo
                 per_page page merged).
Proof.
  induction fuel as [|fuel IH]; intros page merged;
    cbn [Details.merged_loop]; ends_auto.
Qed.
Hint Resolve ends_Details_merged_loop : ends.

Lemma ends_Details_count_issues fuel url state per_page :
  forall page count,
    ends true (Details.count_issues server auth api_fuel fuel url state
                 per_page page count).
Proof.
  induction fuel as [|fuel IH]; intros page count;
    cbn [Details.count_issues]; ends_auto.
Qed.
Hint Resolve ends_Details_count_issues : ends.

Lemma ends_Details_aggregate fuel org repo :
  ends true (Details.aggregate server auth api_fuel fuel org repo).
Proof.
  unfold Details.aggregate, Details.get_pr_counts, Details.get_issue_counts,
    Details.get_branches, Details.get_tags, Details.get_last_commit,
    Details.get_primary_language.
  ends_auto.
Qed.

End DetailsEnds.

Section InventoryEnds.
Variable server : Server.
Hypothesis Hserver : raises_only_exceptions server.
Variable auth : string.

Lemma ends_Inventory_raise_for_status r : ends false (Inventory.raise_for_status r).
Proof. unfold Inventory.raise_for_status. ends_auto. Qed.
Hint Resolve ends_Inventory_raise_for_status : ends.

Lemma ends_Inventory_attempt_body url params attempt :
  ends false (Inventory.attempt_body server auth url params attempt).
Proof. unfold Inventory.attempt_body. ends_auto. Qed.
Hint Resolve ends_Inventory_attempt_body : ends.

Lemma ends_Inventory_github_api_get_over attempts url params :
  ends false (Inventory.github_api_get_over server auth attempts url params).
Proof.
  induction attempts as [|a attempts IH];
    cbn [Inventory.github_api_get_over]; ends_auto.
Qed.

Lemma ends_Inventory_github_api_get url params :
  ends false (Inventory.github_api_get server auth url params).
Proof. apply ends_Inventory_github_api_get_over. Qed.
Hint Resolve ends_Inventory_github_api_get : ends.

Lemma ends_Inventory_count_merged prs : ends false (Inventory.count_merged prs).
Proof. induction prs; cbn [Inventory.count_merged]; ends_auto. Qed.
Hint Resolve ends_Inventory_count_merged : ends.

Lemma ends_Inventory_without_pull_request issues :
  ends false (Inventory.without_pull_request issues).
Proof. induction issues; cbn [Inventory.without_pull_request]; ends_auto. Qed.
Hint Resolve ends_Inventory_without_pull_request : ends.

(** The aggregation of the inventory script has no unbounded loop: it
    always returns or raises. *)
Lemma ends_Inventory_aggregate org repo :
  ends false (Inventory.aggregate server auth org repo).
Proof.
  unfold Inventory.aggregate, Inventory.get_pr_counts, Inventory.get_issue_counts,
    Inventory.get_branches, Inventory.get_tags, Inventory.get_last_commit,
    Inventory.get_primary_language.
  ends_auto.
Qed.

End InventoryEnds.

(** ** The loop *)

Lemma written_rows_write_line row w :
  written_rows (snd (write_line (DictRow row) w)) = written_rows w ++ [row].
Proof.
  unfold written_rows, write_line. fields.
  destruct (csv w); [rewrite flat_map_app|]; reflexivity.
Qed.

Lemma processing_errors_log name e w :
  processing_errors (snd (log_error (ErrorProcessing name e) w))
    = processing_errors w ++ [(name, e)].
Proof.
  unfold processing_errors, log_error. fields. rewrite flat_map_app. reflexivity.
Qed.

Lemma same_report_rows w w' : same_report w w' -> written_rows w' = written_rows w.
Proof. intros [H _]. unfold written_rows. rewrite H. reflexivity. Qed.

(** One pass of the loop: the name is printed, the repository is
    aggregated; a row is written when that returned, an entry is logged
    when that raised an [Exception], and in both cases the loop goes on
    with the remaining repositories. *)
Lemma for_each_repo_cons (aggregate : json -> M Row) kvs name repos w :
  assoc "name" kvs = Some name ->
  for_each_repo aggregate (JObj kvs :: repos) w =
    match aggregate (JObj kvs) (snd (print (Processing name) w)) with
    | (Ret row, wa) =>
        for_each_repo aggregate repos (snd (write_line (DictRow row) wa))
    | (Raise e, wa) =>
        if is_exception e
        then for_each_repo aggregate repos
               (snd (log_error (ErrorProcessing name e) wa))
        else (Raise e, wa)
    | (OutOfFuel, wa) => (OutOfFuel, wa)
    end.
Proof.
  intros Hname. cbn [for_each_repo].
  unfold bind, try_except, getitem, or_raise. rewrite Hname.
  cbn [ret print fst snd].
  destruct (aggregate (JObj kvs) _) as [[row|e|] wa]; cbn; try reflexivity.
  destruct (is_exception e); cbn; reflexivity.
Qed.

(** The same with the worlds written out. *)
Lemma for_each_repo_named (aggregate : json -> M Row) repo name repos w :
  name_of repo = Some name ->
  for_each_repo aggregate (repo :: repos) w =
    match aggregate repo (announced name w) with
    | (Ret row, wa) => for_each_repo aggregate repos (with_row row wa)
    | (Raise e, wa) =>
        if is_exception e
        then for_each_repo aggregate repos (with_entry name e wa)
        else (Raise e, wa)
    | (OutOfFuel, wa) => (OutOfFuel, wa)
    end.
Proof.
  intros Hname. destruct repo; try discriminate Hname.
  exact (for_each_repo_cons aggregate _ _ repos w Hname).
Qed.

(** A repository without a [name] stops the loop at the line before the
    [try]: [repo['name']] raises, and nothing has been done for it. *)
Lemma for_each_repo_nameless (aggregate : json -> M Row) repo repos w :
  name_of repo = None ->
  exists e,
    for_each_repo aggregate (repo :: repos) w = (Raise e, w)
    /\ is_exception e = true.
Proof.
  intros Hname. cbn [for_each_repo]. unfold bind, getitem, or_raise.
  destruct repo; cbn in Hname |- *; try (eexists; split; reflexivity).
  rewrite Hname. eexists; split; reflexivity.
Qed.

(** The loop follows [processed], up to its end or up to the first
    repository without a name. *)
Lemma for_each_repo_processed (aggregate : json -> M Row) :
  forall repos w,
    (fst (for_each_repo aggregate repos w) = Ret tt ->
     exists outcomes,
       processed aggregate repos w outcomes (snd (for_each_repo aggregate repos w)))
    /\ (forall e,
          fst (for_each_repo aggregate repos w) = Raise e ->
          is_exception e = true ->
          exists before repo after outcomes,
            repos = before ++ repo :: after
            /\ name_of repo = None
            /\ processed aggregate before w outcomes
                 (snd (for_each_repo aggregate repos w))).
Proof.
  induction repos as [|repo repos IH]; intro w.
  - split; [|discriminate]. intros _. exists []. constructor.
  - destruct (name_of repo) as [name|] eqn:Hname.
    + rewrite (for_each_repo_named _ _ _ _ _ Hname).
      destruct (aggregate repo (announced name w)) as [[row|e|] wa] eqn:Erun.
      * destruct (IH (with_row row wa)) as [IHret IHraise]. split.
        -- intros Hret. destruct (IHret Hret) as (outcomes & Hall).
           exists (Ret row :: outcomes).
           exact (processed_row _ _ _ _ _ _ _ _ _ Hname Erun Hall).
        -- intros e He Hexc.
           destruct (IHraise e He Hexc)
             as (before & stop & after & outcomes & -> & Hstop & Hall).
           exists (repo :: before), stop, after, (Ret row :: outcomes).
           split; [reflexivity|]. split; [exact Hstop|].
           exact (processed_row _ _ _ _ _ _ _ _ _ Hname Erun Hall).
      * destruct (is_exception e) eqn:Eexc.
        -- destruct (IH (with_entry name e wa)) as [IHret IHraise]. split.
           ++ intros Hret. destruct (IHret Hret) as (outcomes & Hall).
              exists (Raise e :: outcomes).
              exact (processed_failure _ _ _ _ _ _ _ _ _ Hname Erun Eexc Hall).
           ++ intros e' He' Hexc.
              destruct (IHraise e' He' Hexc)
                as (before & stop & after & outcomes & -> & Hstop & Hall).
              exists (repo :: before), stop, after, (Raise e :: outcomes).
              split; [reflexivity|]. split; [exact Hstop|].
              exact (processed_failure _ _ _ _ _ _ _ _ _ Hname Erun Eexc Hall).
        -- cbn [fst snd]. split; [discriminate|].
           intros e' He' Hexc. injection He' as <-. congruence.
      * cbn [fst snd]. split; discriminate.
    + destruct (for_each_repo_nameless aggregate repo repos w Hname) as (e & -> & He).
      cbn [fst snd]. split; [discriminate|].
      intros e' _ _. exists [], repo, repos, [].
      split; [reflexivity|]. split; [exact Hname | constructor].
Qed.

Lemma failures_of_failure repo name e repos outcomes :
  name_of repo = Some name ->
  failures (repo :: repos) (Raise e :: outcomes) = (name, e) :: failures repos outcomes.
Proof.
  intros Hname. destruct repo; try discriminate Hname.
  cbn [failures]. cbn [name_of] in Hname. rewrite Hname. reflexivity.
Qed.

(** The report after the repositories have been processed: the rows of
    the successes and the entries of the failures, in order, and nothing
    else of either kind. *)
Lemma processed_report (aggregate : json -> M Row) :
  (forall repo, quiet (aggregate repo)) ->
  forall repos w outcomes w',
    processed aggregate repos w outcomes w' ->
    written_rows w' = written_rows w ++ successes outcomes
    /\ processing_errors w' = processing_errors w ++ failures repos outcomes.
Proof.
  intros Hq repos w outcomes w' Hall.
  induction Hall as [w
                    | repo name repos w row wa outcomes w' Hname Erun _ [IHrows IHerrs]
                    | repo name repos w e wa outcomes w' Hname Erun Eexc _ [IHrows IHerrs]].
  - cbn [successes failures]. rewrite !app_nil_r. split; reflexivity.
  - pose proof (Hq repo (announced name w)) as [Hcsv Herr].
    rewrite Erun in Hcsv, Herr. cbn [snd] in Hcsv, Herr.
    split.
    + rewrite IHrows. cbn [successes].
      change (row :: successes outcomes) with ([row] ++ successes outcomes).
      rewrite app_assoc. f_equal.
      unfold written_rows, with_row. fields. rewrite Hcsv. unfold announced. fields.
      destruct (csv w); [rewrite flat_map_app|]; reflexivity.
    + rewrite IHerrs.
      replace (failures (repo :: repos) (Ret row :: outcomes))
        with (failures repos outcomes) by (destruct repo; reflexivity).
      f_equal. exact Herr.
  - pose proof (Hq repo (announced name w)) as [Hcsv Herr].
    rewrite Erun in Hcsv, Herr. cbn [snd] in Hcsv, Herr.
    split.
    + rewrite IHrows. cbn [successes]. f_equal.
      unfold written_rows, with_entry. fields. rewrite Hcsv. reflexivity.
    + rewrite IHerrs, (failures_of_failure _ _ _ _ _ Hname).
      change ((name, e) :: failures repos outcomes)
        with ([(name, e)] ++ failures repos outcomes).
      rewrite app_assoc. f_equal.
      unfold processing_errors in *. unfold with_entry. fields.
      rewrite flat_map_app, Herr. reflexivity.
Qed.

(** Every repository counts once: as a row or as an entry of the
    handler. *)
Lemma one_row_or_one_entry (aggregate : json -> M Row) repos w outcomes w' :
  processed aggregate repos w outcomes w' ->
  (List.length (successes outcomes) + List.length (failures repos outcomes))%nat
    = List.length repos.
Proof.
  intros Hall.
  induction Hall as [w
                    | repo name repos w row wa outcomes w' Hname _ _ IH
                    | repo name repos w e wa outcomes w' Hname _ _ _ IH].
  - reflexivity.
  - cbn [successes List.length].
    replace (failures (repo :: repos) (Ret row :: outcomes))
      with (failures repos outcomes) by (destruct repo; reflexivity).
    lia.
  - rewrite (failures_of_failure _ _ _ _ _ Hname). cbn [successes List.length]. lia.
Qed.

(** The loop comes to an end when every aggregation does: a failed
    repository never stops it, only one without a name does. *)
Lemma for_each_repo_ends b (aggregate : json -> M Row) :
  (forall repo, ends b (aggregate repo)) ->
  forall repos w,
    match fst (for_each_repo aggregate repos w) with
    | Ret _ => True
    | Raise _ => Exists (fun repo => name_of repo = None) repos
    | OutOfFuel => b = true
    end.
Proof.
  intros Hends. induction repos as [|repo repos IH]; intro w.
  - exact I.
  - destruct (name_of repo) as [name|] eqn:Hname.
    + rewrite (for_each_repo_named _ _ _ _ _ Hname).
      pose proof (Hends repo (announced name w)) as Hagg.
      destruct (aggregate repo (announced name w)) as [[row|e|] wa]; cbn [fst] in Hagg.
      * specialize (IH (with_row row wa)).
        destruct (fst (for_each_repo aggregate repos (with_row row wa)));
          [exact I | apply Exists_cons_tl; exact IH | exact IH].
      * rewrite Hagg. specialize (IH (with_entry name e wa)).
        destruct (fst (for_each_repo aggregate repos (with_entry name e wa)));
          [exact I | apply Exists_cons_tl; exact IH | exact IH].
      * exact Hagg.
    + destruct (for_each_repo_nameless aggregate repo repos w Hname) as (e & -> & _).
      cbn [fst]. apply Exists_cons_hd. exact Hname.
Qed.

(** ** Computations that leave the error log alone *)

Lemma unlogged_ret {A} (a : A) : unlogged (ret a).
Proof. intro w. reflexivity. Qed.

Lemma unlogged_raise {A} (e : exn) : unlogged (@raise A e).
Proof. intro w. reflexivity. Qed.

Lemma unlogged_bind {A B} (m : M A) (f : A -> M B) :
  unlogged m -> (forall a, unlogged (f a)) -> unlogged (bind m f).
Proof.
  intros Hm Hf w. unfold bind. specialize (Hm w).
  destruct (m w) as [[a|e|] w1]; cbn [snd] in *; try exact Hm.
  rewrite Hf. exact Hm.
Qed.

Lemma unlogged_try_except {A} (m : M A) (h : exn -> M A) :
  unlogged m -> (forall e, unlogged (h e)) -> unlogged (try_except m h).
Proof.
  intros Hm Hh w. unfold try_except. specialize (Hm w).
  destruct (m w) as [[a|e|] w1]; cbn [snd] in *; try exact Hm.
  destruct (is_exception e); cbn [snd]; [|exact Hm].
  rewrite Hh. exact Hm.
Qed.

Lemma unlogged_or_raise {A} (e : exn) (o : option A) : unlogged (or_raise e o).
Proof. destruct o; [apply unlogged_ret | apply unlogged_raise]. Qed.

Lemma unlogged_time_time : unlogged time_time.
Proof. intro w. reflexivity. Qed.

Lemma unlogged_time_sleep d : unlogged (time_sleep d).
Proof.
  intro w. unfold time_sleep.
  destruct (d <? 0); [|destruct (sleep_max <? d)]; reflexivity.
Qed.

Lemma unlogged_print m : unlogged (print m).
Proof. intro w. reflexivity. Qed.

Lemma unlogged_requests_get server auth url params :
  unlogged (requests_get server auth url params).
Proof. intro w. unfold requests_get. destruct (server _ _); reflexivity. Qed.

Lemma unlogged_response_json r : unlogged (response_json r).
Proof. apply unlogged_or_raise. Qed.

Lemma unlogged_getitem v k : unlogged (getitem v k).
Proof. destruct v; try apply unlogged_raise. apply unlogged_or_raise. Qed.

Lemma unlogged_dict_get v k d : unlogged (dict_get v k d).
Proof. destruct v; try apply unlogged_raise. apply unlogged_ret. Qed.

Lemma unlogged_len v : unlogged (len v).
Proof. apply unlogged_or_raise. Qed.

Lemma unlogged_iter v : unlogged (iter v).
Proof. apply unlogged_or_raise. Qed.

Lemma unlogged_len_or_zero v : unlogged (len_or_zero v).
Proof.
  unfold len_or_zero. destruct (truthy v); [apply unlogged_len | apply unlogged_ret].
Qed.

Lemma unlogged_size_mb v : unlogged (size_mb v).
Proof. destruct v; try apply unlogged_raise; apply unlogged_ret. Qed.

Create HintDb unlogged.
#[local] Hint Resolve unlogged_ret unlogged_raise unlogged_or_raise
  unlogged_time_time unlogged_time_sleep unlogged_print unlogged_requests_get
  unlogged_response_json unlogged_getitem unlogged_dict_get unlogged_len
  unlogged_iter unlogged_len_or_zero unlogged_size_mb : unlogged.

Ltac unlogged_step :=
  match goal with
  | |- unlogged (bind _ _) => apply unlogged_bind; [|intro]
  | |- unlogged (try_except _ _) => apply unlogged_try_except; [|intro]
  | |- unlogged (if ?b then _ else _) => destruct b
  | |- unlogged (match ?x with _ => _ end) => destruct x
  | |- unlogged _ => solve [auto with unlogged]
  end.

Ltac unlogged_auto := repeat unlogged_step.

Lemma unlogged_Inventory_github_api_get server auth url params :
  unlogged (Inventory.github_api_get server auth url params).
Proof.
  unfold Inventory.github_api_get. generalize (Inventory.range 3).
  intro attempts. induction attempts as [|a attempts IH];
    cbn [Inventory.github_api_get_over];
    unfold Inventory.attempt_body, Inventory.raise_for_status; unlogged_auto.
Qed.
#[local] Hint Resolve unlogged_Inventory_github_api_get : unlogged.

Lemma unlogged_Inventory_count_merged prs : unlogged (Inventory.count_merged prs).
Proof. induction prs; cbn [Inventory.count_merged]; unlogged_auto. Qed.
#[local] Hint Resolve unlogged_Inventory_count_merged : unlogged.

Lemma unlogged_Inventory_without_pull_request issues :
  unlogged (Inventory.without_pull_request issues).
Proof. induction issues; cbn [Inventory.without_pull_request]; unlogged_auto. Qed.
#[local] Hint Resolve unlogged_Inventory_without_pull_request : unlogged.

(** The API client of [fetch_repo_details_inventory.py] reports on the
    console only, so an aggregation never writes the error log. *)
Lemma unlogged_Inventory_aggregate server auth org repo :
  unlogged (Inventory.aggregate server auth org repo).
Proof.
  unfold Inventory.aggregate, Inventory.get_pr_counts, Inventory.get_issue_counts,
    Inventory.get_branches, Inventory.get_tags, Inventory.get_last_commit,
    Inventory.get_primary_language.
  unlogged_auto.
Qed.

(** When the aggregations leave the error log alone, the handler's
    entries are all that the loop adds to it. *)
Lemma processed_messages (aggregate : json -> M Row) :
  (forall repo, unlogged (aggregate repo)) ->
  forall repos w outcomes w',
    processed aggregate repos w outcomes w' ->
    messages w' = messages w ++ map entry_of (failures repos outcomes).
Proof.
  intros Hu repos w outcomes w' Hall.
  induction Hall as [w
                    | repo name repos w row wa outcomes w' Hname Erun _ IH
                    | repo name repos w e wa outcomes w' Hname Erun Eexc _ IH].
  - cbn [failures map]. rewrite app_nil_r. reflexivity.
  - pose proof (Hu repo (announced name w)) as Hlog.
    rewrite Erun in Hlog. cbn [snd] in Hlog.
    rewrite IH.
    replace (failures (repo :: repos) (Ret row :: outcomes))
      with (failures repos outcomes) by (destruct repo; reflexivity).
    f_equal. unfold messages, with_row. fields. rewrite Hlog. reflexivity.
  - pose proof (Hu repo (announced name w)) as Hlog.
    rewrite Erun in Hlog. cbn [snd] in Hlog.
    rewrite IH, (failures_of_failure _ _ _ _ _ Hname). cbn [map].
    change (entry_of (name, e) :: map entry_of (failures repos outcomes))
      with ([ErrorProcessing name e] ++ map entry_of (failures repos outcomes)).
    rewrite app_assoc. f_equal.
    unfold messages, with_entry. fields. rewrite map_app, Hlog. reflexivity.
Qed.

Lemma for_each_repo_log_and_continue (aggregate : json -> M Row) repos w :
  (forall repo, quiet (aggregate repo)) ->
  log_and_continue aggregate repos w.
Proof.
  intros Hq. destruct (for_each_repo_processed aggregate repos w) as [Hret Hraise].
  split; [|exact Hraise].
  intros Hrun. destruct (Hret Hrun) as (outcomes & Hall).
  exists outcomes. split; [exact Hall|].
  exact (processed_report aggregate Hq _ _ _ _ Hall).
Qed.

(** C7.  [main] of [fetch_repo_details.py] and of
    [fetch_repo_details_inventory.py] runs the loop [for_each_repo]
    over the repositories retrieved.  For every list of repositories
    and from any world on, a loop that runs to its end has [processed]
    them: each repository was aggregated once, in retrieval order, in
    the world the one before it left; where the aggregation raised an
    [Exception], the handler appended exactly one entry for it to the
    error log of the world the aggregation left (the repository's name
    and the exception), wrote no row, and the loop went on with the
    next repository; where it returned, its row was appended to the
    report.  So the report holds one row per successfully processed
    repository, in retrieval order, and none for a failed one, and the
    handler's entries in the error log are one per failed repository,
    in order.  In [fetch_repo_details_inventory.py] nothing else is
    added to the error log while the repositories are processed (its
    API client reports on the console); in [fetch_repo_details.py] the
    API client logs the failed requests of an aggregation as well.  An
    [Exception] leaves the loop only at a repository without a [name],
    from the line before the [try].  When [requests.get] raises nothing
    but [Exception]s, nothing else leaves the loop, and the loop of the
    inventory script always comes to an end. *)
Theorem C7_failed_repository_skipped server auth api_fuel fuel org repos w :
  log_and_continue (Details.aggregate server auth api_fuel fuel org) repos w
  /\ log_and_continue (Inventory.aggregate server auth org) repos w
  /\ (forall outcomes w',
        processed (Inventory.aggregate server auth org) repos w outcomes w' ->
        messages w' = messages w ++ map entry_of (failures repos outcomes))
  /\ (raises_only_exceptions server ->
      (forall e,
         fst (for_each_repo (Details.aggregate server auth api_fuel fuel org) repos w)
           = Raise e ->
         Exists (fun repo => name_of repo = None) repos)
      /\ (fst (for_each_repo (Inventory.aggregate server auth org) repos w) = Ret tt
          \/ (Exists (fun repo => name_of repo = None) repos
              /\ exists e,
                   fst (for_each_repo (Inventory.aggregate server auth org) repos w)
                     = Raise e))).
Proof.
  split; [|split; [|split]].
  - apply for_each_repo_log_and_continue.
    intro repo. apply quiet_Details_aggregate.
  - apply for_each_repo_log_and_continue.
    intro repo. apply quiet_Inventory_aggregate.
  - intros outcomes w' Hall.
    exact (processed_messages _ (unlogged_Inventory_aggregate server auth org)
             _ _ _ _ Hall).
  - intros Hserver. split.
    + intros e He.
      pose proof (for_each_repo_ends true
                    (Details.aggregate server auth api_fuel fuel org)
                    (fun repo => ends_Details_aggregate server Hserver auth api_fuel
                                   fuel org repo)
                    repos w) as Hend.
      rewrite He in Hend. exact Hend.
    + pose proof (for_each_repo_ends false
                    (Inventory.aggregate server auth org)
                    (fun repo => ends_Inventory_aggregate server Hserver auth org repo)
                    repos w) as Hend.
      destruct (fst (for_each_repo (Inventory.aggregate server auth org) repos w))
        as [[]|e|].
      * left. reflexivity.
      * right. split; [exact Hend | exists e; reflexivity].
      * discriminate Hend.
Qed.

(** C7 on two repositories, the second of which has no
    [default_branch]: one row for the first, and for the second one
    entry, which in [fetch_repo_details_inventory.py] is all that the
    error log holds. *)
Lemma C7_failed_repository_skipped_witness :
  let start := opened (world0 0) in
  let details :=
    for_each_repo (Details.aggregate github_mock "Bearer t" 2 2 "o")
      [good_repo; bad_repo] start in
  let inventory :=
    for_each_repo (Inventory.aggregate github_mock "token t" "o")
      [good_repo; bad_repo] start in
  (exists outcomes,
     processed (Details.aggregate github_mock "Bearer t" 2 2 "o")
       [good_repo; bad_repo] start outcomes (snd details)
     /\ failures [good_repo; bad_repo] outcomes
        = [(JStr "bad", KeyError "default_branch")])
  /\ messages (snd inventory)
     = [ErrorProcessing (JStr "bad") (KeyError "default_branch")].
Proof.
  intros start details inventory.
  destruct (C7_failed_repository_skipped github_mock "Bearer t" 2%nat 2%nat "o"
              [good_repo; bad_repo] start) as ([HD _] & _).
  destruct (C7_failed_repository_skipped github_mock "token t" 2%nat 2%nat "o"
              [good_repo; bad_repo] start) as (_ & [HI _] & Hlog & _).
  split.
  - destruct HD as (outcomes & Hall & _ & Herrs); [vm_compute; reflexivity|].
    exists outcomes. split; [exact Hall|].
    change (processing_errors start) with (@nil (json * exn)) in Herrs.
    cbn [app] in Herrs. rewrite <- Herrs. vm_compute. reflexivity.
  - destruct HI as (outcomes & Hall & _ & Herrs); [vm_compute; reflexivity|].
    unfold inventory. rewrite (Hlog _ _ Hall).
    change (processing_errors start) with (@nil (json * exn)) in Herrs.
    cbn [app] in Herrs. rewrite <- Herrs. vm_compute. reflexivity.
Defined.

(** The end-to-end case of the specification: of two repositories, one
    resolvable and one whose aggregation raises, the report has exactly
    one row, for the first, and the error log one entry, for the
    second. *)
Example two_repositories_one_row :
  let details :=
    for_each_repo (Details.aggregate github_mock "Bearer t" 2 2 "o")
      [bad_repo; good_repo] (snd (open_csv fieldnames (world0 0))) in
  let inventory :=
    for_each_repo (Inventory.aggregate github_mock "token t" "o")
      [bad_repo; good_repo] (snd (open_csv fieldnames (world0 0))) in
  fst details = Ret tt
  /\ map (assoc "Repo Name") (written_rows (snd details)) = [Some (CVal (JStr "good"))]
  /\ messages (snd details) = [ErrorProcessing (JStr "bad") (KeyError "default_branch")]
  /\ fst inventory = Ret tt
  /\ map (assoc "Repo Name") (written_rows (snd inventory)) = [Some (CVal (JStr "good"))]
  /\ messages (snd inventory) = [ErrorProcessing (JStr "bad") (KeyError "default_branch")].
Proof. vm_compute. repeat split. Qed.

(** * Single-page probes *)

Lemma returns_ret {A} (a : A) (Q : A -> Prop) : Q a -> returns (ret a) Q.
Proof. intros H w a' w' E. injection E as <- _. exact H. Qed.

Lemma returns_raise {A} (e : exn) (Q : A -> Prop) : returns (raise e) Q.
Proof. intros w a w' E. discriminate E. Qed.

Lemma returns_out_of_fuel {A} (Q : A -> Prop) : returns out_of_fuel Q.
Proof. intros w a w' E. discriminate E. Qed.

Lemma returns_bind {A B} (m : M A) (f : A -> M B) (P : A -> Prop) (Q : B -> Prop) :
  returns m P -> (forall a, P a -> returns (f a) Q) -> returns (bind m f) Q.
Proof.
  intros Hm Hf w b w' E. unfold bind in E.
  destruct (m w) as [[a|e|] w1] eqn:Em; try discriminate E.
  exact (Hf a (Hm _ _ _ Em) _ _ _ E).
Qed.

Lemma returns_bind_any {A B} (m : M A) (f : A -> M B) (Q : B -> Prop) :
  (forall a, returns (f a) Q) -> returns (bind m f) Q.
Proof.
  intros Hf. apply (returns_bind m f (fun _ => True)).
  - intros w a w' _. exact I.
  - intros a _. apply Hf.
Qed.

Lemma returns_try_except {A} (m : M A) (h : exn -> M A) (Q : A -> Prop) :
  returns m Q -> (forall e, returns (h e) Q) -> returns (try_except m h) Q.
Proof.
  intros Hm Hh w a w' E. unfold try_except in E.
  destruct (m w) as [[a0|e|] w1] eqn:Em.
  - injection E as <- <-. exact (Hm _ _ _ Em).
  - destruct (is_exception e); [exact (Hh e _ _ _ E) | discriminate E].
  - discriminate E.
Qed.

(** A response that [requests.get] returned is an answer of the server
    to this request. *)
Lemma returns_requests_get server auth url params :
  returns (requests_get server auth url params)
          (fun r => exists n, server n (request_of auth url params) = Answers r).
Proof.
  intros w r w' E. unfold requests_get in E.
  destruct (server _ _) as [r0|e] eqn:Es; [|discriminate E].
  injection E as <- _. eexists. exact Es.
Qed.

Lemma returns_response_json r :
  returns (response_json r) (fun v => json_body r = Some v).
Proof.
  intros w v w' E. unfold response_json, or_raise in E.
  destruct (json_body r); [|discriminate E]. injection E as <- _. reflexivity.
Qed.

(** What [github_api_get] of [fetch_repo_details.py] returns is [None]
    or the decoded body of a 200 or 201 answer to its request. *)
Lemma Details_github_api_get_returns server auth fuel url params max_retries :
  forall retries,
    returns
      (Details.github_api_get_from server auth fuel url params max_retries retries)
      (fun v => v = JNull
                \/ exists n r, server n (request_of auth url params) = Answers r
                               /\ is_error_status (status_code r) = false
                               /\ json_body r = Some v).
Proof.
  induction fuel as [|fuel IH]; intro retries; cbn [Details.github_api_get_from].
  - apply returns_out_of_fuel.
  - destruct (retries <? max_retries).
    + apply (returns_bind _ _
               (fun c => match c with
                         | Details.Continue _ => True
                         | Details.Return v =>
                             v = JNull
                             \/ exists n r,
                                  server n (request_of auth url params) = Answers r
                                  /\ is_error_status (status_code r) = false
                                  /\ json_body r = Some v
                         end)).
      * unfold Details.attempt. apply returns_try_except.
        -- eapply returns_bind; [apply returns_requests_get|].
           intros r [n Hn]. destruct (_ && _).
           ++ do 5 (apply returns_bind_any; intro). apply returns_ret. exact I.
           ++ destruct (negb _) eqn:Est.
              ** apply returns_bind_any; intro. apply returns_ret. left. reflexivity.
              ** eapply returns_bind; [apply returns_response_json|].
                 intros v Hv. apply returns_ret. right. exists n, r.
                 split; [exact Hn|]. split; [|exact Hv].
                 apply negb_false_iff, orb_true_iff in Est.
                 destruct Est as [E | E]; apply Z.eqb_eq in E; rewrite E; reflexivity.
        -- intro e. destruct (is_connection_error e).
           ++ do 2 (apply returns_bind_any; intro). apply returns_ret. exact I.
           ++ apply returns_bind_any; intro. apply returns_ret. left. reflexivity.
      * intros [retries'|v] Hc; [apply IH | apply returns_ret; exact Hc].
    + apply returns_bind_any; intro. apply returns_ret. left. reflexivity.
Qed.

Lemma returns_raise_for_status r :
  returns (Inventory.raise_for_status r)
          (fun _ => is_error_status (status_code r) = false).
Proof.
  unfold Inventory.raise_for_status, is_error_status.
  destruct (_ && _); [apply returns_raise | apply returns_ret; reflexivity].
Qed.

(** What [github_api_get] of [fetch_repo_details_inventory.py] returns
    is [[]] or the decoded body of an answer to its request that is no
    error. *)
Lemma Inventory_github_api_get_returns server auth attempts url params :
  returns
    (Inventory.github_api_get_over server auth attempts url params)
    (fun v => v = JList []
              \/ exists n r, server n (request_of auth url params) = Answers r
                             /\ is_error_status (status_code r) = false
                             /\ json_body r = Some v).
Proof.
  induction attempts as [|a attempts IH]; cbn [Inventory.github_api_get_over].
  - apply returns_ret. left. reflexivity.
  - apply (returns_bind _ _
             (fun c => match c with
                       | Inventory.Return v =>
                           exists n r,
                             server n (request_of auth url params) = Answers r
                             /\ is_error_status (status_code r) = false
                             /\ json_body r = Some v
                       | _ => True
                       end)).
    + unfold Inventory.attempt_body. apply returns_try_except.
      * eapply returns_bind; [apply returns_requests_get|].
        intros r [n Hn]. destruct (_ && _).
        -- do 5 (apply returns_bind_any; intro). apply returns_ret. exact I.
        -- eapply returns_bind; [apply returns_raise_for_status|].
           intros u Hst. cbv beta in Hst.
           eapply returns_bind; [apply returns_response_json|].
           intros v Hv. apply returns_ret. exists n, r. auto.
      * intro e. destruct (is_connection_error e).
        -- do 2 (apply returns_bind_any; intro). apply returns_ret. exact I.
        -- destruct (is_request_exception e).
           ++ apply returns_bind_any; intro. apply returns_ret. exact I.
           ++ apply returns_raise.
    + intros [| |v] Hc.
      * exact IH.
      * apply returns_ret. left. reflexivity.
      * apply returns_ret. right. exact Hc.
Qed.

Lemma returns_weaken {A} (m : M A) (P Q : A -> Prop) :
  returns m P -> (forall a, P a -> Q a) -> returns m Q.
Proof. intros Hm HPQ w a w' E. exact (HPQ _ (Hm _ _ _ E)). Qed.

Lemma Details_probe_at_most server auth api_fuel url params k :
  honours_per_page server ->
  is_list_endpoint url = true ->
  per_page_of (request_of auth url params) = Some k ->
  0 <= k ->
  returns (Details.github_api_get server auth api_fuel url params) (at_most k).
Proof.
  intros Hh Hurl Hk H0. unfold Details.github_api_get.
  eapply returns_weaken; [apply Details_github_api_get_returns|].
  intros v [-> | (n & r & Hs & Hst & Hb)]; [left; reflexivity|].
  destruct (Hh n _ r k v Hs Hurl Hk Hst Hb) as (items & -> & Hlen).
  right. exists items. split; [reflexivity | lia].
Qed.

Lemma Inventory_probe_at_most server auth url params k :
  honours_per_page server ->
  is_list_endpoint url = true ->
  per_page_of (request_of auth url params) = Some k ->
  0 <= k ->
  returns (Inventory.github_api_get server auth url params) (at_most k).
Proof.
  intros Hh Hurl Hk H0. unfold Inventory.github_api_get.
  eapply returns_weaken; [apply Inventory_github_api_get_returns|].
  intros v [-> | (n & r & Hs & Hst & Hb)].
  - right. exists []. split; [reflexivity | simpl; lia].
  - destruct (Hh n _ r k v Hs Hurl Hk Hst Hb) as (items & -> & Hlen).
    right. exists items. split; [reflexivity | lia].
Qed.

(** Skip the statements of an aggregation up to the release probe or the
    count taken from it. *)
Ltac skip_to_probe :=
  repeat match goal with
         | |- returns (match ?x with _ => _ end) _ => destruct x
         | |- returns (bind (Details.github_api_get _ _ _ (Releases _ _) _) _) _ => fail 1
         | |- returns (bind (Inventory.github_api_get _ _ (Releases _ _) _) _) _ => fail 1
         | |- returns (bind (len_or_zero _) _) _ => fail 1
         | |- returns (bind _ _) _ => apply returns_bind_any; intro
         end.

Lemma firstn_at_most {A : Type} (k : Z) (l : list A) :
  Z.of_nat (List.length (firstn (Z.to_nat k) l)) <= Z.max k 0.
Proof.
  pose proof (firstn_le_length (Z.to_nat k) l) as H.
  rewrite length_firstn. lia.
Qed.

Lemma github_mock_honours_per_page : honours_per_page github_mock.
Proof.
  intros n rq r k v Hs Hurl Hk _ Hb.
  unfold github_mock in Hs.
  destruct (req_url rq); try discriminate Hurl;
    injection Hs as <-; cbn [json_body ok_response] in Hb;
    injection Hb as <-; unfold paged; rewrite Hk;
    eexists; (split; [reflexivity | apply firstn_at_most]).
Qed.

(** A server that answers everything with an error honours [per_page]
    as well. *)
Lemma always_not_found_honours_per_page : honours_per_page always_not_found.
Proof.
  intros n rq r k v Hs _ _ Hst _. injection Hs as <-. discriminate Hst.
Qed.

(** ** The requests of a call of the client *)

(** Every pass of the [while] body of [fetch_repo_details.py] sends the
    request once, however it ends. *)
Lemma Details_attempt_sends server auth url params max_retries retries w :
  sent (snd (Details.attempt server auth url params max_retries retries w))
    = sent w ++ [request_of auth url params].
Proof.
  unfold Details.attempt, try_except, bind, requests_get, request_of.
  destruct (server _ _) as [r|e]; fields.
  - destruct (_ && _).
    + unfold time_time, or_raise, print, time_sleep, log_error, ret, raise. fields.
      destruct (header "X-RateLimit-Reset" r) as [s|]; [destruct (py_int s)|]; fields;
        repeat match goal with
               | |- context [if ?b then _ else _] => destruct b; fields
               end; reflexivity.
    + destruct (negb _).
      * reflexivity.
      * unfold response_json, or_raise. destruct (json_body r); fields; reflexivity.
  - destruct (is_exception e); [|reflexivity].
    destruct (is_connection_error e).
    + unfold log_error, time_sleep, ret. fields.
      repeat match goal with
             | |- context [if ?b then _ else _] => destruct b; fields
             end; reflexivity.
    + reflexivity.
Qed.

Lemma Details_github_api_get_from_sends server auth fuel url params max_retries :
  forall retries w v w',
    Details.github_api_get_from server auth fuel url params max_retries retries w
      = (Ret v, w') ->
    exists k,
      sent w' = sent w ++ repeat (request_of auth url params) k
      /\ ((retries <? max_retries) = true -> (0 < k)%nat).
Proof.
  induction fuel as [|fuel IH]; intros retries w v w' Hrun;
    cbn [Details.github_api_get_from] in Hrun.
  - discriminate Hrun.
  - destruct (retries <? max_retries).
    + unfold bind in Hrun.
      pose proof (Details_attempt_sends server auth url params max_retries retries w)
        as Hsent.
      destruct (Details.attempt server auth url params max_retries retries w)
        as [[[retries'|v0]|e|] wa]; cbn [snd] in Hsent; try discriminate Hrun.
      * destruct (IH _ _ _ _ Hrun) as (k & Hk & _).
        exists (S k). split; [|lia].
        rewrite Hk, Hsent, <- app_assoc. reflexivity.
      * injection Hrun as <- <-. exists 1%nat. split; [exact Hsent | lia].
    + unfold bind, log_error, ret in Hrun. injection Hrun as _ <-.
      exists 0%nat. fields. rewrite app_nil_r. split; [reflexivity | discriminate].
Qed.

(** A call of the client of [fetch_repo_details.py] that returned has
    sent its request, at least once, and nothing else. *)
Lemma Details_github_api_get_answered server auth api_fuel url params w v w' :
  Details.github_api_get server auth api_fuel url params w = (Ret v, w') ->
  answered (Details.github_api_get server auth api_fuel url params)
           (request_of auth url params) w v w'.
Proof.
  intros Hrun. split; [exact Hrun|].
  destruct (Details_github_api_get_from_sends _ _ _ _ _ _ _ _ _ _ Hrun) as (k & Hk & Hpos).
  destruct k as [|k]; [specialize (Hpos eq_refl); lia|].
  exists k. exact Hk.
Qed.

(** Every attempt of [fetch_repo_details_inventory.py] sends the
    request once, however it ends. *)
Lemma Inventory_attempt_sends server auth url params attempt w :
  sent (snd (Inventory.attempt_body server auth url params attempt w))
    = sent w ++ [request_of auth url params].
Proof.
  unfold Inventory.attempt_body, try_except, bind, requests_get, request_of.
  destruct (server _ _) as [r|e]; fields.
  - destruct (_ && _).
    + unfold time_time, or_raise, print, time_sleep, ret, raise. fields.
      destruct (header "X-RateLimit-Reset" r) as [s|]; [destruct (py_int s)|]; fields;
        repeat match goal with
               | |- context [if ?b then _ else _] => destruct b; fields
               end; reflexivity.
    + unfold Inventory.raise_for_status, response_json, or_raise, raise, ret.
      destruct (_ && _); fields; [reflexivity|].
      destruct (json_body r); fields; reflexivity.
  - destruct (is_exception e); [|reflexivity].
    destruct (is_connection_error e).
    + unfold print, time_sleep, ret. fields.
      repeat match goal with
             | |- context [if ?b then _ else _] => destruct b; fields
             end; reflexivity.
    + destruct (is_request_exception e); reflexivity.
Qed.

Lemma Inventory_github_api_get_over_sends server auth url params :
  forall attempts w v w',
    Inventory.github_api_get_over server auth attempts url params w = (Ret v, w') ->
    exists k,
      sent w' = sent w ++ repeat (request_of auth url params) k
      /\ (attempts <> [] -> (0 < k)%nat).
Proof.
  induction attempts as [|a attempts IH]; intros w v w' Hrun;
    cbn [Inventory.github_api_get_over] in Hrun.
  - injection Hrun as _ <-. exists 0%nat. rewrite app_nil_r.
    split; [reflexivity | congruence].
  - unfold bind in Hrun.
    pose proof (Inventory_attempt_sends server auth url params a w) as Hsent.
    destruct (Inventory.attempt_body server auth url params a w)
      as [[[| |v0]|e|] wa]; cbn [snd] in Hsent; try discriminate Hrun.
    + destruct (IH _ _ _ Hrun) as (k & Hk & _).
      exists (S k). split; [|lia]. rewrite Hk, Hsent, <- app_assoc. reflexivity.
    + injection Hrun as _ <-. exists 1%nat. split; [exact Hsent | lia].
    + injection Hrun as _ <-. exists 1%nat. split; [exact Hsent | lia].
Qed.

(** A call of the client of [fetch_repo_details_inventory.py] that
    returned has sent its request, at least once, and nothing else. *)
Lemma Inventory_github_api_get_answered server auth url params w v w' :
  Inventory.github_api_get server auth url params w = (Ret v, w') ->
  answered (Inventory.github_api_get server auth url params)
           (request_of auth url params) w v w'.
Proof.
  intros Hrun. split; [exact Hrun|].
  destruct (Inventory_github_api_get_over_sends _ _ _ _ _ _ _ _ Hrun)
    as (k & Hk & Hpos).
  destruct k as [|k]; [specialize (Hpos ltac:(discriminate)); lia|].
  exists k. exact Hk.
Qed.

(** ** The statements of an aggregation, one after the other *)

Lemma bind_ret_inv {A B} (m : M A) (f : A -> M B) w b w' :
  bind m f w = (Ret b, w') ->
  exists a w1, m w = (Ret a, w1) /\ f a w1 = (Ret b, w').
Proof.
  unfold bind. intros H. destruct (m w) as [[a|e|] w1]; try discriminate H.
  exists a, w1. split; [reflexivity | exact H].
Qed.

(** Reading a repository field changes nothing, and gives the field. *)
Lemma getitem_ret_inv v k w x w' :
  getitem v k w = (Ret x, w') ->
  w' = w /\ exists kvs, v = JObj kvs /\ assoc k kvs = Some x.
Proof.
  unfold getitem, or_raise. intros H. destruct v; try discriminate H.
  destruct (assoc k kvs) eqn:E; [|discriminate H].
  injection H as <- <-. split; [reflexivity|]. exists kvs. auto.
Qed.

Lemma dict_get_ret_inv v k d w x w' :
  dict_get v k d w = (Ret x, w') -> w' = w.
Proof.
  unfold dict_get, ret. intros H. destruct v; try discriminate H.
  injection H as _ <-. reflexivity.
Qed.

Lemma size_mb_ret_inv v w c w' : size_mb v w = (Ret c, w') -> w' = w.
Proof.
  unfold size_mb, ret. intros H.
  destruct v; try discriminate H; injection H as _ <-; reflexivity.
Qed.

(** [len(v) if v else 0] of a probe changes nothing and is the number
    of items of the first page. *)
Lemma len_or_zero_ret_inv k v w n w' :
  at_most k v ->
  len_or_zero v w = (Ret n, w') -> w' = w /\ n = listed v.
Proof.
  intros [-> | (items & -> & _)] H; unfold len_or_zero in H.
  - injection H as <- <-. split; reflexivity.
  - destruct items; cbn in H; injection H as <- <-; split; reflexivity.
Qed.

Lemma listed_at_most_one v : at_most 1 v -> listed v = 0 \/ listed v = 1.
Proof.
  intros [-> | (items & -> & Hlen)]; [left; reflexivity|].
  destruct items as [|x [|y items]]; cbn in Hlen |- *; [left | right | lia]; reflexivity.
Qed.

(** Take the first statement off a run that returned. *)
Ltac first_statement H :=
  let a := fresh "a" in
  let wa := fresh "wa" in
  let Ha := fresh "Hstep" in
  apply bind_ret_inv in H; destruct H as (a & wa & Ha & H); cbv beta zeta in H.

Ltac read_field H :=
  let a := fresh "field" in
  let wa := fresh "wa" in
  let Ha := fresh "Hfield" in
  apply bind_ret_inv in H; destruct H as (a & wa & Ha & H); cbv beta zeta in H;
  first [ apply getitem_ret_inv in Ha; destruct Ha as [-> Ha]
        | apply dict_get_ret_inv in Ha; subst wa
        | apply size_mb_ret_inv in Ha; subst wa ].

(** The single-page probes of [get_pr_counts]: the open and the closed
    pull requests are asked for with [per_page = 1], one after the
    other and before anything else, and the two counts are the lengths
    of the answers. *)
Lemma Details_get_pr_counts_run server auth api_fuel fuel org repo w
    open_count closed_count merged w' :
  honours_per_page server ->
  Details.get_pr_counts server auth api_fuel fuel org repo w
    = (Ret (open_count, closed_count, merged), w') ->
  exists open_prs w1 closed_prs w2,
    answered (Details.github_api_get server auth api_fuel (Pulls org repo)
                (probe_params (Some "open")))
             (request_of auth (Pulls org repo) (probe_params (Some "open")))
             w open_prs w1
    /\ answered (Details.github_api_get server auth api_fuel (Pulls org repo)
                   (probe_params (Some "closed")))
                (request_of auth (Pulls org repo) (probe_params (Some "closed")))
                w1 closed_prs w2
    /\ at_most 1 open_prs /\ at_most 1 closed_prs
    /\ open_count = listed open_prs
    /\ closed_count = listed closed_prs.
Proof.
  intros Hh Hrun. unfold Details.get_pr_counts in Hrun. cbv zeta in Hrun.
  apply bind_ret_inv in Hrun. destruct Hrun as (open_prs & w1 & Hopen & Hrun).
  apply bind_ret_inv in Hrun. destruct Hrun as (closed_prs & w2 & Hclosed & Hrun).
  apply bind_ret_inv in Hrun. destruct Hrun as (c & w3 & Hc & Hrun).
  apply bind_ret_inv in Hrun. destruct Hrun as (m & w4 & Hm & Hrun).
  apply bind_ret_inv in Hrun. destruct Hrun as (o & w5 & Ho & Hrun).
  injection Hrun as <- <- <- _.
  assert (Hopen1 : at_most 1 open_prs).
  { refine (Details_probe_at_most server auth api_fuel _ _ 1 Hh _ _ _ _ _ _ Hopen);
      [reflexivity | reflexivity | lia]. }
  assert (Hclosed1 : at_most 1 closed_prs).
  { refine (Details_probe_at_most server auth api_fuel _ _ 1 Hh _ _ _ _ _ _ Hclosed);
      [reflexivity | reflexivity | lia]. }
  exists open_prs, w1, closed_prs, w2.
  split; [exact (Details_github_api_get_answered _ _ _ _ _ _ _ _ Hopen)|].
  split; [exact (Details_github_api_get_answered _ _ _ _ _ _ _ _ Hclosed)|].
  split; [exact Hopen1|]. split; [exact Hclosed1|].
  split.
  - exact (proj2 (len_or_zero_ret_inv _ _ _ _ _ Hopen1 Ho)).
  - exact (proj2 (len_or_zero_ret_inv _ _ _ _ _ Hclosed1 Hc)).
Qed.

Ltac read_name H Hname :=
  let a := fresh "name" in
  let wa := fresh "wa" in
  let Ha := fresh "Hread" in
  let kvs := fresh "kvs" in
  let E := fresh "E" in
  let Hn := fresh "Hn" in
  apply bind_ret_inv in H; destruct H as (a & wa & Ha & H); cbv beta zeta in H;
  apply getitem_ret_inv in Ha; destruct Ha as [-> (kvs & E & Hn)];
  injection E as <-; rewrite Hname in Hn; injection Hn as <-.

(** Walk a run of an aggregation, statement by statement, up to the
    release probe or the count taken from it. *)
Ltac walk H Hname :=
  lazymatch type of H with
  | bind (Details.github_api_get _ _ _ (Releases _ _) _) _ _ = _ => idtac
  | bind (Inventory.github_api_get _ _ (Releases _ _) _) _ _ = _ => idtac
  | bind (len_or_zero _) _ _ = _ => idtac
  | bind (getitem (JObj _) "name") _ _ = _ => read_name H Hname; walk H Hname
  | bind (getitem _ _) _ _ = _ => read_field H; walk H Hname
  | bind (dict_get _ _ _) _ _ = _ => read_field H; walk H Hname
  | bind (size_mb _) _ _ = _ => read_field H; walk H Hname
  | bind _ _ _ = _ => first_statement H; walk H Hname
  | (match ?x with _ => _ end) _ = _ => destruct x; walk H Hname
  | _ => idtac
  end.

(** A run of the aggregation of [fetch_repo_details.py] that returned a
    row: its first requests are the two pull-request probes, its last
    one is the release probe, each with [per_page = 1], and the three
    columns are the lengths of their answers. *)
Lemma Details_aggregate_run server auth api_fuel fuel org repo w row w' :
  honours_per_page server ->
  Details.aggregate server auth api_fuel fuel org repo w = (Ret row, w') ->
  exists name open_prs w1 closed_prs w2 wr releases,
    name_of repo = Some name
    /\ answered (Details.github_api_get server auth api_fuel (Pulls org name)
                   (probe_params (Some "open")))
                (request_of auth (Pulls org name) (probe_params (Some "open")))
                w open_prs w1
    /\ answered (Details.github_api_get server auth api_fuel (Pulls org name)
                   (probe_params (Some "closed")))
                (request_of auth (Pulls org name) (probe_params (Some "closed")))
                w1 closed_prs w2
    /\ answered (Details.github_api_get server auth api_fuel (Releases org name)
                   (probe_params None))
                (request_of auth (Releases org name) (probe_params None))
                wr releases w'
    /\ probe_count open_prs "Total Open PRs" row
    /\ probe_count closed_prs "Total Closed PRs" row
    /\ probe_count releases "Total Releases" row.
Proof.
  intros Hh Hrun.
  unfold Details.aggregate, Details.get_primary_language in Hrun.
  apply bind_ret_inv in Hrun. destruct Hrun as (name & w0 & Hread & Hrun).
  apply getitem_ret_inv in Hread. destruct Hread as [-> (kvs & -> & Hname)].
  cbv beta in Hrun.
  apply bind_ret_inv in Hrun. destruct Hrun as ([[open_count closed_count] merged]
                                                 & w3 & Hprs & Hrun).
  destruct (Details_get_pr_counts_run _ _ _ _ _ _ _ _ _ _ _ Hh Hprs)
    as (open_prs & w1 & closed_prs & w2 & Hopen & Hclosed & Hopen1 & Hclosed1
        & -> & ->).
  cbv beta iota in Hrun.
  walk Hrun Hname.
  apply bind_ret_inv in Hrun. destruct Hrun as (releases & wb & Hrel & Hrun).
  cbv beta in Hrun.
  assert (Hrel1 : at_most 1 releases).
  { refine (Details_probe_at_most server auth api_fuel _ _ 1 Hh _ _ _ _ _ _ Hrel);
      [reflexivity | reflexivity | lia]. }
  apply bind_ret_inv in Hrun. destruct Hrun as (n & wc & Hn & Hrun).
  destruct (len_or_zero_ret_inv _ _ _ _ _ Hrel1 Hn) as [-> ->].
  cbv beta in Hrun. injection Hrun as <- <-.
  exists name, open_prs, w1, closed_prs, w2.
  eexists. exists releases.
  split; [exact Hname|]. split; [exact Hopen|]. split; [exact Hclosed|].
  split; [exact (Details_github_api_get_answered _ _ _ _ _ _ _ _ Hrel)|].
  unfold probe_count, zero_or_one. cbn [setitem assoc String.eqb Ascii.eqb Bool.eqb].
  destruct (listed_at_most_one _ Hopen1) as [Eo | Eo];
    destruct (listed_at_most_one _ Hclosed1) as [Ec | Ec];
    destruct (listed_at_most_one _ Hrel1) as [Er | Er];
    rewrite Eo, Ec, Er; auto 10.
Qed.

(** The same for [fetch_repo_details_inventory.py], where the release
    probe is the only request with [per_page = 1] and the last request
    of the aggregation. *)
Lemma Inventory_aggregate_run server auth org repo w row w' :
  honours_per_page server ->
  Inventory.aggregate server auth org repo w = (Ret row, w') ->
  exists name wr releases,
    name_of repo = Some name
    /\ answered (Inventory.github_api_get server auth (Releases org name)
                   (probe_params None))
                (request_of auth (Releases org name) (probe_params None))
                wr releases w'
    /\ probe_count releases "Total Releases" row.
Proof.
  intros Hh Hrun.
  unfold Inventory.aggregate, Inventory.get_primary_language in Hrun.
  apply bind_ret_inv in Hrun. destruct Hrun as (name & w0 & Hread & Hrun).
  apply getitem_ret_inv in Hread. destruct Hread as [-> (kvs & -> & Hname)].
  cbv beta in Hrun.
  walk Hrun Hname.
  apply bind_ret_inv in Hrun. destruct Hrun as (releases & wb & Hrel & Hrun).
  cbv beta in Hrun.
  assert (Hrel1 : at_most 1 releases).
  { refine (Inventory_probe_at_most server auth _ _ 1 Hh _ _ _ _ _ _ Hrel);
      [reflexivity | reflexivity | lia]. }
  walk Hrun Hname.
  apply bind_ret_inv in Hrun. destruct Hrun as (n & wc & Hn & Hrun).
  destruct (len_or_zero_ret_inv _ _ _ _ _ Hrel1 Hn) as [-> ->].
  cbv beta in Hrun. injection Hrun as <- <-.
  exists name. eexists. exists releases.
  split; [exact Hname|].
  split; [exact (Inventory_github_api_get_answered _ _ _ _ _ _ _ Hrel)|].
  unfold probe_count, zero_or_one. cbn [assoc String.eqb Ascii.eqb Bool.eqb].
  destruct (listed_at_most_one _ Hrel1) as [Er | Er]; rewrite Er; auto.
Qed.

(** C9.  The server honours [per_page].  A run of the aggregation of
    [fetch_repo_details.py] that returns a row has asked for the open
    pull requests and then for the closed pull requests with
    [per_page = 1], before anything else, and for the releases with
    [per_page = 1], as its last request; the columns Total Open PRs,
    Total Closed PRs and Total Releases of the row are the lengths of
    the three answers (0 for a failed request), each of them 0 or 1.  A
    run of the aggregation of [fetch_repo_details_inventory.py] that
    returns a row has asked for the releases with [per_page = 1], as its
    last request, and Total Releases is the length of the answer, 0 or
    1.  Total Merged PRs is counted over all pages of the closed pull
    requests and can be larger than Total Closed PRs: against the mock,
    which honours [per_page], a repository with two merged pull
    requests gets Total Closed PRs 1 and Total Merged PRs 2. *)
Theorem C9_single_page_probes server auth api_fuel fuel org repo w row w' :
  honours_per_page server ->
  (Details.aggregate server auth api_fuel fuel org repo w = (Ret row, w') ->
   exists name open_prs w1 closed_prs w2 wr releases,
     name_of repo = Some name
     /\ answered (Details.github_api_get server auth api_fuel (Pulls org name)
                    (probe_params (Some "open")))
                 (request_of auth (Pulls org name) (probe_params (Some "open")))
                 w open_prs w1
     /\ answered (Details.github_api_get server auth api_fuel (Pulls org name)
                    (probe_params (Some "closed")))
                 (request_of auth (Pulls org name) (probe_params (Some "closed")))
                 w1 closed_prs w2
     /\ answered (Details.github_api_get server auth api_fuel (Releases org name)
                    (probe_params None))
                 (request_of auth (Releases org name) (probe_params None))
                 wr releases w'
     /\ probe_count open_prs "Total Open PRs" row
     /\ probe_count closed_prs "Total Closed PRs" row
     /\ probe_count releases "Total Releases" row)
  /\
  (Inventory.aggregate server auth org repo w = (Ret row, w') ->
   exists name wr releases,
     name_of repo = Some name
     /\ answered (Inventory.github_api_get server auth (Releases org name)
                    (probe_params None))
                 (request_of auth (Releases org name) (probe_params None))
                 wr releases w'
     /\ probe_count releases "Total Releases" row)
  /\
  (honours_per_page github_mock
   /\ exists merged_row,
        fst (Details.aggregate github_mock "Bearer t" 2 2 "o" good_repo (world0 0))
          = Ret merged_row
        /\ assoc "Total Closed PRs" merged_row = Some (CInt 1)
        /\ assoc "Total Merged PRs" merged_row = Some (CInt 2)).
Proof.
  intros Hh. split; [|split].
  - intros Hrun. exact (Details_aggregate_run _ _ _ _ _ _ _ _ _ Hh Hrun).
  - intros Hrun. exact (Inventory_aggregate_run _ _ _ _ _ _ _ Hh Hrun).
  - split; [exact github_mock_honours_per_page|].
    eexists. split; [vm_compute; reflexivity|]. split; reflexivity.
Qed.

Lemma C9_single_page_probes_witness :
  let details :=
    Details.aggregate github_mock "Bearer t" 2 2 "o" good_repo (world0 0) in
  let inventory :=
    Inventory.aggregate github_mock "token t" "o" good_repo (world0 0) in
  (exists releases,
     probe_count releases "Total Releases" (row_of (fst details))
     /\ assoc "Total Open PRs" (row_of (fst details)) = Some (CInt 1)
     /\ assoc "Total Closed PRs" (row_of (fst details)) = Some (CInt 1))
  /\ (exists releases,
        probe_count releases "Total Releases" (row_of (fst inventory))
        /\ assoc "Total Releases" (row_of (fst inventory)) = Some (CInt 1)).
Proof.
  intros details inventory. split.
  - destruct (proj1 (C9_single_page_probes github_mock "Bearer t" 2%nat 2%nat "o"
                       good_repo (world0 0) (row_of (fst details)) (snd details)
                       github_mock_honours_per_page))
      as (name & open_prs & w1 & closed_prs & w2 & wr & releases & _ & _ & _ & _
          & _ & _ & Hrel).
    + vm_compute. reflexivity.
    + exists releases. split; [exact Hrel|]. split; reflexivity.
  - destruct (proj1 (proj2 (C9_single_page_probes github_mock "token t" 2%nat 2%nat
                              "o" good_repo (world0 0) (row_of (fst inventory))
                              (snd inventory) github_mock_honours_per_page)))
      as (name & wr & releases & _ & _ & Hrel).
    + vm_compute. reflexivity.
    + exists releases. split; [exact Hrel | reflexivity].
Defined.

(** * Further properties of the API clients *)

Lemma returns_any {A} (m : M A) : returns m (fun _ => True).
Proof. intros w a w' _. exact I. Qed.

(** A pass of the [while] body never lowers [retries]. *)
Lemma Details_attempt_retries server auth url params max_retries retries :
  0 <= retries ->
  returns (Details.attempt server auth url params max_retries retries)
          (fun c => match c with
                    | Details.Continue retries' => 0 <= retries'
                    | Details.Return _ => True
                    end).
Proof.
  intros H0. unfold Details.attempt. apply returns_try_except.
  - apply returns_bind_any. intro r. destruct (_ && _).
    + do 5 (apply returns_bind_any; intro). apply returns_ret. exact H0.
    + destruct (negb _).
      * apply returns_bind_any; intro. apply returns_ret. exact I.
      * apply returns_bind_any; intro. apply returns_ret. exact I.
  - intro e. destruct (is_connection_error e).
    + do 2 (apply returns_bind_any; intro). apply returns_ret. lia.
    + apply returns_bind_any; intro. apply returns_ret. exact I.
Qed.

Lemma Details_attempt_catches_all server auth url params max_retries retries :
  0 <= retries ->
  5 * (retries + 1) <= sleep_max ->
  catches_all (Details.attempt server auth url params max_retries retries).
Proof.
  intros H0 Hmax w. unfold Details.attempt, try_except.
  match goal with |- context [bind ?m ?f w] => destruct (bind m f w) as [[c|e|] w1] end;
    cbn [fst]; try exact I.
  destruct (is_exception e) eqn:Ee; [|cbn [fst]; exact Ee].
  destruct (is_connection_error e).
  - unfold bind, log_error, time_sleep. fields.
    replace (5 * (retries + 1) <? 0) with false by (symmetry; apply Z.ltb_ge; lia).
    replace (sleep_max <? 5 * (retries + 1)) with false
      by (symmetry; apply Z.ltb_ge; lia).
    exact I.
  - exact I.
Qed.

Lemma Details_github_api_get_from_catches_all server auth fuel url params max_retries :
  5 * max_retries <= sleep_max ->
  forall retries w,
    0 <= retries ->
    match fst (Details.github_api_get_from server auth fuel url params
                 max_retries retries w) with
    | Raise e => is_exception e = false
    | _ => True
    end.
Proof.
  intros Hmax.
  induction fuel as [|fuel IH]; intros retries w H0;
    cbn [Details.github_api_get_from].
  - exact I.
  - destruct (retries <? max_retries) eqn:Hlt; [|exact I].
    apply Z.ltb_lt in Hlt.
    unfold bind.
    pose proof (Details_attempt_catches_all server auth url params max_retries
                  retries H0 ltac:(lia) w) as Hc.
    pose proof (Details_attempt_retries server auth url params max_retries
                  retries H0 w) as Hr.
    destruct (Details.attempt server auth url params max_retries retries w)
      as [[[retries'|v]|e|] w1]; cbn [fst] in *; try exact I; try exact Hc.
    apply IH. exact (Hr _ _ eq_refl).
Qed.

(** X1.  [github_api_get] of [fetch_repo_details.py] hands no
    [Exception] to its caller, whatever the server does and however long
    it is left to run: every failure of a request ends as a returned
    value. *)
Theorem Details_client_never_raises server auth api_fuel url params w :
  match fst (Details.github_api_get server auth api_fuel url params w) with
  | Raise e => is_exception e = false
  | _ => True
  end.
Proof.
  unfold Details.github_api_get.
  apply Details_github_api_get_from_catches_all; [unfold sleep_max|]; lia.
Qed.

(** X2.  In [fetch_repo_details.py], an answer that cannot be used is
    not retried.  A 200 or 201 whose body is not JSON, and a rate-limit
    answer whose reset header [int()] does not read, each end the call
    with [None] after this one request, with one "Unexpected error" line
    in the error log and no sleep.  So does a rate-limit answer whose
    reset time is further away than [time.sleep] takes (a reset time in
    milliseconds, say): the wait is announced on the console,
    [time.sleep] raises [OverflowError], and the call ends in the same
    way. *)
Theorem Details_unusable_answer_not_retried server auth url params w r api_fuel :
  server (List.length (sent w)) (request_of auth url params) = Answers r ->
  (0 < api_fuel)%nat ->
  (rate_limited_by_text r = false ->
   status_code r = 200 \/ status_code r = 201 ->
   json_body r = None ->
   Details.github_api_get server auth api_fuel url params w =
     (Ret JNull,
      mkWorld (now w) (sent w ++ [request_of auth url params])
              (error_log w ++ [(now w, UnexpectedError url JSONDecodeError)])
              (stdout w) (logging w) (slept w) (csv w)))
  /\
  (rate_limited_by_text r = true ->
   reset_timestamp 0 r = None ->
   Details.github_api_get server auth api_fuel url params w =
     (Ret JNull,
      mkWorld (now w) (sent w ++ [request_of auth url params])
              (error_log w ++ [(now w, UnexpectedError url ValueError)])
              (stdout w) (logging w) (slept w) (csv w)))
  /\
  (rate_limited_by_text r = true ->
   forall R,
     reset_timestamp (now w + 60) r = Some R ->
     sleep_max < R - now w ->
     Details.github_api_get server auth api_fuel url params w =
       (Ret JNull,
        mkWorld (now w) (sent w ++ [request_of auth url params])
                (error_log w ++ [(now w, UnexpectedError url OverflowError)])
                (stdout w ++ [RateLimitHit (R - now w)])
                (logging w) (slept w) (csv w))).
Proof.
  intros Hs Hfuel. destruct api_fuel as [|fuel]; [lia|].
  unfold request_of in Hs. unfold Details.github_api_get.
  cbn [Details.github_api_get_from]. cbn [Z.ltb Z.compare].
  split; [|split].
  - intros Hr Hst Hb. unfold rate_limited_by_text in Hr.
    unfold bind at 1. unfold Details.attempt, try_except, bind, requests_get.
    rewrite Hs. cbn [fst snd]. rewrite Hr.
    replace (negb ((status_code r =? 200) || (status_code r =? 201))) with false
      by (destruct Hst as [-> | ->]; reflexivity).
    unfold response_json, or_raise. rewrite Hb. reflexivity.
  - intros Hr HR. unfold rate_limited_by_text in Hr. unfold reset_timestamp in HR.
    unfold bind at 1. unfold Details.attempt, try_except, bind, requests_get.
    rewrite Hs. cbn [fst snd]. rewrite Hr.
    destruct (header "X-RateLimit-Reset" r) as [s|]; [|discriminate HR].
    unfold time_time, or_raise. rewrite HR. reflexivity.
  - intros Hr R HR Hfar. unfold rate_limited_by_text in Hr.
    unfold reset_timestamp in HR.
    assert (Hwait : Z.max (R - now w) 1 = R - now w)
      by (unfold sleep_max in Hfar; lia).
    assert (Hpos : (R - now w <? 0) = false)
      by (apply Z.ltb_ge; unfold sleep_max in Hfar; lia).
    assert (Hover : (sleep_max <? R - now w) = true) by (apply Z.ltb_lt; exact Hfar).
    unfold bind at 1. unfold Details.attempt, try_except, bind, requests_get.
    rewrite Hs. cbn [fst snd]. rewrite Hr.
    unfold time_time, or_raise, print, time_sleep, log_error, ret, raise.
    destruct (header "X-RateLimit-Reset" r) as [s|].
    + rewrite HR. fields. rewrite Hwait, Hpos, Hover. reflexivity.
    + injection HR as <-. fields. rewrite Hwait, Hpos, Hover. reflexivity.
Qed.

Lemma Details_unusable_answer_not_retried_witness :
  messages (snd (Details.github_api_get always_html "Bearer t" 1 (OrgRepos "o") None
                   (world0 0)))
    = [UnexpectedError (OrgRepos "o") JSONDecodeError]
  /\ messages (snd (Details.github_api_get always_odd_rate_limit "Bearer t" 1
                      (OrgRepos "o") None (world0 0)))
    = [UnexpectedError (OrgRepos "o") ValueError]
  /\ Details.github_api_get always_far_rate_limit "Bearer t" 1 (OrgRepos "o") None
       (world0 1700000000)
     = (Ret JNull,
        mkWorld 1700000000 [request_of "Bearer t" (OrgRepos "o") None]
                [(1700000000, UnexpectedError (OrgRepos "o") OverflowError)]
                [RateLimitHit 1698300060000] [] [] None).
Proof.
  destruct (Details_unusable_answer_not_retried always_html "Bearer t" (OrgRepos "o")
              None (world0 0) html_response 1%nat) as (H1 & _ & _);
    [reflexivity | lia |].
  destruct (Details_unusable_answer_not_retried always_odd_rate_limit "Bearer t"
              (OrgRepos "o") None (world0 0) odd_rate_limit_response 1%nat)
    as (_ & H2 & _); [reflexivity | lia |].
  destruct (Details_unusable_answer_not_retried always_far_rate_limit "Bearer t"
              (OrgRepos "o") None (world0 1700000000) far_rate_limit_response 1%nat)
    as (_ & _ & H3); [reflexivity | lia |].
  rewrite H1, H2, (H3 eq_refl 1700000060000 eq_refl ltac:(vm_compute; reflexivity));
    [repeat split | reflexivity | reflexivity | reflexivity
     | left; reflexivity | reflexivity].
Defined.

(** X3.  The answer that is taken as a success, and what it costs: in
    [fetch_repo_details.py] a 200 or 201 that is no rate limit, in
    [fetch_repo_details_inventory.py] any status outside 400-599 that
    is no rate limit (a 204 or a 304 as well).  The client returns the
    decoded body after this one request; nothing is logged, printed or
    slept. *)
Theorem client_returns_decoded_body server auth url params w r v api_fuel :
  server (List.length (sent w)) (request_of auth url params) = Answers r ->
  json_body r = Some v ->
  (0 < api_fuel)%nat ->
  (rate_limited_by_text r = false ->
   status_code r = 200 \/ status_code r = 201 ->
   Details.github_api_get server auth api_fuel url params w =
     (Ret v, with_request w (request_of auth url params)))
  /\
  (rate_limited_by_quota r = false ->
   status_code r < 400 \/ 600 <= status_code r ->
   Inventory.github_api_get server auth url params w =
     (Ret v, with_request w (request_of auth url params))).
Proof.
  intros Hs Hb Hfuel. unfold request_of in Hs. split.
  - intros Hr Hst. destruct api_fuel as [|fuel]; [lia|].
    unfold rate_limited_by_text in Hr. unfold Details.github_api_get.
    cbn [Details.github_api_get_from]. cbn [Z.ltb Z.compare].
    unfold bind at 1. unfold Details.attempt, try_except, bind, requests_get.
    rewrite Hs. cbn [fst snd]. rewrite Hr.
    replace (negb ((status_code r =? 200) || (status_code r =? 201))) with false
      by (destruct Hst as [-> | ->]; reflexivity).
    unfold response_json, or_raise. rewrite Hb. reflexivity.
  - intros Hr Hst. unfold rate_limited_by_quota in Hr.
    unfold Inventory.github_api_get. cbn [Inventory.range seq map].
    cbn [Inventory.github_api_get_over].
    unfold bind at 1. unfold Inventory.attempt_body, try_except, bind, requests_get.
    rewrite Hs. cbn [fst snd]. rewrite Hr. unfold Inventory.raise_for_status.
    replace ((400 <=? status_code r) && (status_code r <? 600)) with false.
    + unfold response_json, or_raise. rewrite Hb. reflexivity.
    + symmetry. apply andb_false_iff.
      destruct Hst; [left; apply Z.leb_gt | right; apply Z.ltb_ge]; lia.
Qed.

Lemma client_returns_decoded_body_witness :
  Details.github_api_get always_three_items "Bearer t" 1 (OrgRepos "o") None (world0 0)
    = (Ret (page_of three_items),
       with_request (world0 0) (request_of "Bearer t" (OrgRepos "o") None))
  /\ Inventory.github_api_get always_three_items "Bearer t" (OrgRepos "o") None (world0 0)
    = (Ret (page_of three_items),
       with_request (world0 0) (request_of "Bearer t" (OrgRepos "o") None)).
Proof.
  destruct (client_returns_decoded_body always_three_items "Bearer t" (OrgRepos "o")
              None (world0 0) (ok_response (page_of three_items))
              (page_of three_items) 1%nat) as [HD HI];
    [reflexivity | reflexivity | lia |].
  split.
  - apply HD; [reflexivity | left; reflexivity].
  - apply HI; [reflexivity | left; simpl; lia].
Defined.

Lemma ok_status_not_rate_limited r :
  status_code r = 200 ->
  rate_limited_by_text r = false /\ rate_limited_by_quota r = false.
Proof.
  intros H. unfold rate_limited_by_text, rate_limited_by_quota. rewrite H.
  split; reflexivity.
Qed.

Lemma Details_from_success server auth fuel url params max_retries retries w r v :
  server (List.length (sent w)) (request_of auth url params) = Answers r ->
  status_code r = 200 ->
  json_body r = Some v ->
  retries < max_retries ->
  Details.github_api_get_from server auth (S fuel) url params max_retries retries w
    = (Ret v, with_request w (request_of auth url params)).
Proof.
  intros Hs Hst Hb Hlt. unfold request_of in Hs.
  destruct (ok_status_not_rate_limited r Hst) as [Hr _].
  unfold rate_limited_by_text in Hr.
  cbn [Details.github_api_get_from]. apply Z.ltb_lt in Hlt. rewrite Hlt.
  unfold bind at 1. unfold Details.attempt, try_except, bind, requests_get.
  rewrite Hs. cbn [fst snd]. rewrite Hr. rewrite Hst. cbn [Z.eqb Pos.eqb orb negb].
  unfold response_json, or_raise. rewrite Hb. reflexivity.
Qed.

Lemma Inventory_over_success server auth url params attempt rest w r v :
  server (List.length (sent w)) (request_of auth url params) = Answers r ->
  status_code r = 200 ->
  json_body r = Some v ->
  Inventory.github_api_get_over server auth (attempt :: rest) url params w
    = (Ret v, with_request w (request_of auth url params)).
Proof.
  intros Hs Hst Hb. unfold request_of in Hs.
  destruct (ok_status_not_rate_limited r Hst) as [_ Hr].
  unfold rate_limited_by_quota in Hr.
  cbn [Inventory.github_api_get_over].
  unfold bind at 1. unfold Inventory.attempt_body, try_except, bind, requests_get.
  rewrite Hs. cbn [fst snd]. rewrite Hr. unfold Inventory.raise_for_status.
  rewrite Hst. cbn [Z.leb Z.ltb Z.compare Pos.compare Pos.compare_cont andb].
  unfold response_json, or_raise. rewrite Hb. reflexivity.
Qed.

(** [k] connection errors in a row, with retries to spare: the loop of
    [fetch_repo_details.py] is back at the same call with [k] retries
    more on the counter. *)
Lemma Details_retries_carry server auth url params max_retries :
  5 * max_retries <= sleep_max ->
  forall (k : nat) (retries : Z) (w : World) (fuel : nat),
    0 <= retries ->
    retries + Z.of_nat k <= max_retries ->
    (forall i, (i < k)%nat ->
       exists e, server (List.length (sent w) + i)%nat (request_of auth url params)
                   = Fails e
                 /\ is_connection_error e = true) ->
    exists w',
      Details.github_api_get_from server auth (k + fuel) url params max_retries
        retries w
      = Details.github_api_get_from server auth fuel url params max_retries
          (retries + Z.of_nat k) w'
      /\ sent w' = sent w ++ repeat (request_of auth url params) k
      /\ slept w' = slept w ++ map (fun i => 5 * (retries + 1 + Z.of_nat i)) (seq 0 k)
      /\ List.length (error_log w') = (List.length (error_log w) + k)%nat.
Proof.
  intros Hsleep.
  induction k as [|k IH]; intros retries w fuel H0 Hmax Herr.
  - exists w. cbn [plus repeat seq map Z.of_nat]. rewrite !app_nil_r, Z.add_0_r.
    repeat split. lia.
  - destruct (Herr 0%nat) as (e & Hs & He); [lia|]. rewrite Nat.add_0_r in Hs.
    cbn [plus Details.github_api_get_from].
    replace (retries <? max_retries) with true by (symmetry; apply Z.ltb_lt; lia).
    unfold bind at 1.
    rewrite (Details_attempt_connection_error _ _ _ _ _ _ _ _ Hs He H0) by lia.
    match goal with |- context [Details.github_api_get_from _ _ _ _ _ _ _ ?w1] =>
      destruct (IH (retries + 1) w1 fuel) as (w' & Hrun & Hsent & Hslept & Hlog)
    end.
    + lia.
    + lia.
    + intros i Hi. destruct (Herr (S i)) as (e' & Hs' & He'); [lia|].
      exists e'. split; [|exact He']. fields. rewrite length_app. cbn [List.length].
      replace (List.length (sent w) + 1 + i)%nat
        with (List.length (sent w) + S i)%nat by lia.
      exact Hs'.
    + exists w'. fields in Hsent. fields in Hslept. fields in Hlog.
      rewrite length_app in Hlog. cbn [List.length] in Hlog.
      split; [|split; [|split]].
      * replace (retries + Z.of_nat (S k)) with (retries + 1 + Z.of_nat k) by lia.
        exact Hrun.
      * rewrite Hsent, <- app_assoc. reflexivity.
      * rewrite Hslept, map_seq_S, <- app_assoc. cbn [app].
        do 2 f_equal; [f_equal; lia|]. apply map_ext. intro i. f_equal. lia.
      * lia.
Qed.

Lemma Inventory_attempts_carry server auth url params :
  forall (pre post : list Z) (w : World),
    Forall (fun a => 0 <= a <= 33) pre ->
    (forall i, (i < List.length pre)%nat ->
       exists e, server (List.length (sent w) + i)%nat (request_of auth url params)
                   = Fails e
                 /\ is_connection_error e = true) ->
    exists w',
      Inventory.github_api_get_over server auth (pre ++ post) url params w
      = Inventory.github_api_get_over server auth post url params w'
      /\ sent w' = sent w ++ repeat (request_of auth url params) (List.length pre)
      /\ slept w' = slept w ++ map (Z.pow 2) pre
      /\ error_log w' = error_log w.
Proof.
  induction pre as [|a pre IH]; intros post w Hpos Herr.
  - exists w. cbn [app List.length repeat map]. rewrite !app_nil_r. auto.
  - inversion Hpos as [|? ? Ha Hpos']; subst.
    destruct (Herr 0%nat) as (e & Hs & He); [cbn; lia|]. rewrite Nat.add_0_r in Hs.
    cbn [app Inventory.github_api_get_over]. unfold bind at 1.
    rewrite (Inventory_attempt_connection_error _ _ _ _ _ _ _ Hs He Ha).
    match goal with |- context [Inventory.github_api_get_over _ _ _ _ _ ?w1] =>
      destruct (IH post w1 Hpos') as (w' & Hrun & Hsent & Hslept & Hlog)
    end.
    + intros i Hi. destruct (Herr (S i)) as (e' & Hs' & He'); [cbn; lia|].
      exists e'. split; [|exact He']. fields. rewrite length_app. cbn [List.length].
      replace (List.length (sent w) + 1 + i)%nat
        with (List.length (sent w) + S i)%nat by lia.
      exact Hs'.
    + exists w'. fields in Hsent. fields in Hslept. fields in Hlog.
      split; [exact Hrun|].
      rewrite Hsent, Hslept, Hlog, <- !app_assoc. cbn [app repeat List.length map].
      auto.
Qed.

(** X4.  Transient connection errors are ridden out.  When the first
    [k] attempts of a request fail with a connection error and the next
    one is answered with a 200 and a JSON body, the client returns that
    body after [k + 1] requests: in [fetch_repo_details.py] for every
    [k < 5], having slept 5, 10, ... seconds and logged [k] lines; in
    [fetch_repo_details_inventory.py] for every [k < 3], having slept
    1, 2, ... seconds and logged nothing. *)
Theorem client_rides_out_connection_errors server auth url params w k r v api_fuel :
  (forall i, (i < k)%nat ->
     exists e, server (List.length (sent w) + i)%nat (request_of auth url params)
                 = Fails e
               /\ is_connection_error e = true) ->
  server (List.length (sent w) + k)%nat (request_of auth url params) = Answers r ->
  status_code r = 200 ->
  json_body r = Some v ->
  ((k < 5)%nat -> (k < api_fuel)%nat ->
   exists w',
     Details.github_api_get server auth api_fuel url params w = (Ret v, w')
     /\ sent w' = sent w ++ repeat (request_of auth url params) (S k)
     /\ slept w' = slept w ++ map (fun i => 5 * (1 + Z.of_nat i)) (seq 0 k)
     /\ List.length (error_log w') = (List.length (error_log w) + k)%nat)
  /\
  ((k < 3)%nat ->
   exists w',
     Inventory.github_api_get server auth url params w = (Ret v, w')
     /\ sent w' = sent w ++ repeat (request_of auth url params) (S k)
     /\ slept w' = slept w ++ map (fun i => 2 ^ Z.of_nat i) (seq 0 k)
     /\ error_log w' = error_log w).
Proof.
  intros Herr Hs Hst Hb. split.
  - intros Hk Hfuel. unfold Details.github_api_get.
    destruct (Details_retries_carry server auth url params 5
                ltac:(unfold sleep_max; lia) k 0 w (api_fuel - k)
                ltac:(lia) ltac:(lia) Herr) as (w' & Hrun & Hsent & Hslept & Hlog).
    replace (k + (api_fuel - k))%nat with api_fuel in Hrun by lia.
    destruct (api_fuel - k)%nat as [|fuel] eqn:Ef; [lia|].
    rewrite Hrun.
    rewrite (Details_from_success server auth fuel url params 5 (0 + Z.of_nat k)
               w' r v); [|rewrite Hsent, length_app, repeat_length; exact Hs
                          |exact Hst|exact Hb|lia].
    eexists. split; [reflexivity|]. unfold with_request. fields.
    rewrite Hsent, Hslept, Hlog, <- app_assoc.
    replace (S k) with (k + 1)%nat by lia. rewrite repeat_app. cbn [repeat].
    repeat split.
  - intros Hk. unfold Inventory.github_api_get.
    assert (Hsplit : exists pre a post,
               Inventory.range 3 = pre ++ a :: post /\ List.length pre = k
               /\ Forall (fun a => 0 <= a <= 33) pre
               /\ map (Z.pow 2) pre = map (fun i => 2 ^ Z.of_nat i) (seq 0 k)).
    { destruct k as [|[|[|k]]]; [| | |lia].
      - exists [], 0, [1; 2]. repeat split. constructor.
      - exists [0], 1, [2]. repeat split. repeat constructor; lia.
      - exists [0; 1], 2, []. repeat split. repeat constructor; lia. }
    destruct Hsplit as (pre & a & post & Hrange & Hlen & Hpos & Hpow).
    rewrite Hrange.
    destruct (Inventory_attempts_carry server auth url params pre (a :: post) w Hpos)
      as (w' & Hrun & Hsent & Hslept & Hlog).
    { rewrite Hlen. exact Herr. }
    rewrite Hrun.
    rewrite (Inventory_over_success server auth url params a post w' r v);
      [|rewrite Hsent, length_app, repeat_length, Hlen; exact Hs|exact Hst|exact Hb].
    eexists. split; [reflexivity|]. unfold with_request. fields.
    rewrite Hsent, Hslept, Hlog, Hlen, Hpow, <- app_assoc.
    replace (S k) with (k + 1)%nat by lia. rewrite repeat_app. cbn [repeat].
    repeat split.
Qed.

Lemma client_rides_out_connection_errors_witness :
  fst (Details.github_api_get down_twice "t" 3 (OrgRepos "o") None (world0 0))
    = Ret (JList [JNum 7])
  /\ fst (Inventory.github_api_get down_twice "t" (OrgRepos "o") None (world0 0))
    = Ret (JList [JNum 7]).
Proof.
  destruct (client_rides_out_connection_errors down_twice "t" (OrgRepos "o") None
              (world0 0) 2%nat (ok_response (JList [JNum 7])) (JList [JNum 7]) 3%nat)
    as [HD HI].
  - intros i Hi. exists (ConnectionError "connection reset").
    destruct i as [|[|i]]; [split; reflexivity | split; reflexivity | lia].
  - reflexivity.
  - reflexivity.
  - reflexivity.
  - destruct HD as (w1 & H1 & _); [lia | lia |].
    destruct HI as (w2 & H2 & _); [lia |].
    rewrite H1, H2. split; reflexivity.
Defined.

(** X5.  Rate limits are waited out, as many as come, and leave no
    trace in the error log.  In [fetch_repo_details.py], after any
    number [n] of rate-limit answers in a row, each with a reset time
    that [int()] reads and that lies within a century of the start of
    the call (or with no reset header at all), a 200 with a JSON body is
    returned to the caller, after [n + 1] requests and [n] sleeps of at
    least one second and at most a century each. *)
Theorem Details_waits_out_rate_limits server auth url params w n r v api_fuel :
  (forall i, (i < n)%nat ->
     exists r', server (List.length (sent w) + i)%nat (request_of auth url params)
                  = Answers r'
                /\ rate_limited_by_text r' = true
                /\ resets_by (now w + a_century) r') ->
  server (List.length (sent w) + n)%nat (request_of auth url params) = Answers r ->
  status_code r = 200 ->
  json_body r = Some v ->
  (n < api_fuel)%nat ->
  exists w',
    Details.github_api_get server auth api_fuel url params w = (Ret v, w')
    /\ sent w' = sent w ++ repeat (request_of auth url params) (S n)
    /\ error_log w' = error_log w
    /\ exists waits,
         slept w' = slept w ++ waits
         /\ List.length waits = n
         /\ Forall (fun d => 1 <= d <= a_century) waits.
Proof.
  intros Hlim Hs Hst Hb Hfuel. unfold Details.github_api_get.
  destruct (Details_rate_limits_not_counted server auth url params 5 0
              (now w + a_century) eq_refl
              n w (api_fuel - n) (Z.le_refl _) Hlim)
    as (w' & Hrun & Hsent & Hlog & waits & Hslept & Hlen & Hwaits).
  replace (n + (api_fuel - n))%nat with api_fuel in Hrun by lia.
  destruct (api_fuel - n)%nat as [|fuel] eqn:Ef; [lia|].
  rewrite Hrun.
  rewrite (Details_from_success server auth fuel url params 5 0 w' r v);
    [|rewrite Hsent, length_app, repeat_length; exact Hs|exact Hst|exact Hb|lia].
  eexists. split; [reflexivity|]. unfold with_request. fields.
  rewrite Hsent, Hlog, <- app_assoc.
  replace (S n) with (n + 1)%nat by lia. rewrite repeat_app. cbn [repeat].
  repeat split. exists waits. auto.
Qed.

Lemma Details_waits_out_rate_limits_witness :
  exists w',
    Details.github_api_get limited_thrice "t" 4 (OrgRepos "o") None (world0 100)
      = (Ret (JList [JNum 7]), w')
    /\ error_log w' = [].
Proof.
  destruct (Details_waits_out_rate_limits limited_thrice "t" (OrgRepos "o") None
              (world0 100) 3%nat (ok_response (JList [JNum 7])) (JList [JNum 7])
              4%nat) as (w' & Hrun & _ & Hlog & _).
  - intros i Hi. exists (rate_limit_response "101").
    destruct i as [|[|[|i]]]; try lia;
      (split; [reflexivity | split; [reflexivity |]]);
      (exists 101; split; [reflexivity | vm_compute; discriminate]).
  - reflexivity.
  - reflexivity.
  - reflexivity.
  - lia.
  - exists w'. split; [exact Hrun | exact Hlog].
Defined.

(** X6.  An exception of [requests.get] that is no connection error is
    never retried, and the two clients part ways on it.
    [fetch_repo_details.py] logs it as unexpected and returns [None].
    [fetch_repo_details_inventory.py] prints it and returns [[]] when
    it is a [RequestException], and lets every other exception out to
    its caller. *)
Theorem other_exceptions_not_retried server auth url params w e api_fuel :
  server (List.length (sent w)) (request_of auth url params) = Fails e ->
  is_connection_error e = false ->
  is_exception e = true ->
  (0 < api_fuel)%nat ->
  Details.github_api_get server auth api_fuel url params w =
    (Ret JNull,
     mkWorld (now w) (sent w ++ [request_of auth url params])
             (error_log w ++ [(now w, UnexpectedError url e)])
             (stdout w) (logging w) (slept w) (csv w))
  /\ (is_request_exception e = true ->
      Inventory.github_api_get server auth url params w =
        (Ret (JList []),
         mkWorld (now w) (sent w ++ [request_of auth url params]) (error_log w)
                 (stdout w ++ [RequestFailed e]) (logging w) (slept w) (csv w)))
  /\ (is_request_exception e = false ->
      Inventory.github_api_get server auth url params w =
        (Raise e, with_request w (request_of auth url params))).
Proof.
  intros Hs Hc He Hfuel. unfold request_of in Hs. split; [|split].
  - destruct api_fuel as [|fuel]; [lia|]. unfold Details.github_api_get.
    cbn [Details.github_api_get_from]. cbn [Z.ltb Z.compare].
    unfold bind at 1. unfold Details.attempt, try_except. unfold bind at 1.
    unfold requests_get. rewrite Hs, He, Hc. reflexivity.
  - intros Hr. unfold Inventory.github_api_get. cbn [Inventory.range seq map].
    cbn [Inventory.github_api_get_over]. unfold bind at 1.
    unfold Inventory.attempt_body, try_except. unfold bind at 1.
    unfold requests_get. rewrite Hs, He, Hc, Hr. reflexivity.
  - intros Hr. unfold Inventory.github_api_get. cbn [Inventory.range seq map].
    cbn [Inventory.github_api_get_over]. unfold bind at 1.
    unfold Inventory.attempt_body, try_except. unfold bind at 1.
    unfold requests_get. rewrite Hs, He, Hc, Hr. reflexivity.
Qed.

Lemma other_exceptions_not_retried_witness :
  fst (Details.github_api_get always_broken "t" 1 (OrgRepos "o") None (world0 0))
    = Ret JNull
  /\ fst (Inventory.github_api_get always_timeout "t" (OrgRepos "o") None (world0 0))
    = Ret (JList [])
  /\ fst (Inventory.github_api_get always_broken "t" (OrgRepos "o") None (world0 0))
    = Raise (OtherError "ssl context").
Proof.
  destruct (other_exceptions_not_retried always_broken "t" (OrgRepos "o") None
              (world0 0) (OtherError "ssl context") 1%nat) as (H1 & _ & H3);
    [reflexivity | reflexivity | reflexivity | lia |].
  destruct (other_exceptions_not_retried always_timeout "t" (OrgRepos "o") None
              (world0 0) (RequestException "read timeout") 1%nat) as (_ & H2 & _);
    [reflexivity | reflexivity | reflexivity | lia |].
  rewrite H1, H2, H3; [repeat split | reflexivity | reflexivity].
Defined.

(** * Further properties of the aggregation *)

(** X7.  The last commit of a repository.  When the commit request
    gives nothing ([None] or [[]] after a failure, an empty list), both
    scripts return two empty strings and raise nothing.  When it gives
    a commit ([fetch_repo_details.py] takes the first of the list,
    [fetch_repo_details_inventory.py] the object itself), they return
    the committer's date and name. *)
Theorem last_commit_or_empty_strings server auth api_fuel org repo default_branch
    w data w' :
  (Details.github_api_get server auth api_fuel (Commits org repo)
     (Some [("sha", default_branch); ("per_page", JNum 1)]) w = (Ret data, w') ->
   (truthy data = false ->
    Details.get_last_commit server auth api_fuel org repo default_branch w
      = (Ret (JStr "", JStr ""), w'))
   /\ (forall commit rest date name,
         data = JList (commit :: rest) ->
         committed commit date name ->
         Details.get_last_commit server auth api_fuel org repo default_branch w
           = (Ret (date, name), w')))
  /\
  (Inventory.github_api_get server auth (CommitRef org repo default_branch) None w
     = (Ret data, w') ->
   (truthy data = false ->
    Inventory.get_last_commit server auth org repo default_branch w
      = (Ret (JStr "", JStr ""), w'))
   /\ (forall date name,
         truthy data = true ->
         committed data date name ->
         Inventory.get_last_commit server auth org repo default_branch w
           = (Ret (date, name), w'))).
Proof.
  split.
  - intros Hget. split.
    + intros Hfalsy. unfold Details.get_last_commit. unfold bind at 1.
      rewrite Hget, Hfalsy. reflexivity.
    + intros commit rest date name -> Hc.
      unfold Details.get_last_commit. unfold bind at 1. rewrite Hget.
      cbn [truthy]. unfold len, or_raise. cbn [py_len]. unfold ret at 1.
      unfold bind at 1.
      replace (0 <? Z.of_nat (List.length (commit :: rest))) with true
        by (symmetry; apply Z.ltb_lt; cbn [List.length]; lia).
      cbn [getitem0 hd_error or_raise]. unfold ret at 1. unfold bind at 1.
      destruct Hc as (kvs & c & committer & -> & Hc & Hcm & Hd & Hn).
      unfold bind, getitem, or_raise. rewrite Hc. cbn [ret]. rewrite Hcm. cbn [ret].
      rewrite Hd, Hn. reflexivity.
  - intros Hget. split.
    + intros Hfalsy. unfold Inventory.get_last_commit. unfold bind at 1.
      rewrite Hget, Hfalsy. reflexivity.
    + intros date name Htruthy Hc.
      unfold Inventory.get_last_commit. unfold bind at 1. rewrite Hget, Htruthy.
      destruct Hc as (kvs & c & committer & -> & Hc & Hcm & Hd & Hn).
      unfold bind, getitem, or_raise. rewrite Hc. cbn [ret]. rewrite Hcm. cbn [ret].
      rewrite Hd, Hn. reflexivity.
Qed.

Lemma last_commit_or_empty_strings_witness :
  fst (Details.get_last_commit no_commits "t" 1 "o" (JStr "r") (JStr "main") (world0 0))
    = Ret (JStr "", JStr "")
  /\ fst (Inventory.get_last_commit github_mock "t" "o" (JStr "r") (JStr "main")
            (world0 0))
    = Ret (JStr "2024-05-01T10:00:00Z", JStr "dev").
Proof.
  split.
  - destruct (last_commit_or_empty_strings no_commits "t" 1%nat "o" (JStr "r")
                (JStr "main") (world0 0) JNull
                (snd (Details.github_api_get no_commits "t" 1 (Commits "o" (JStr "r"))
                        (Some [("sha", JStr "main"); ("per_page", JNum 1)])
                        (world0 0)))) as [HD _].
    destruct HD as [H _]; [vm_compute; reflexivity|].
    rewrite H; reflexivity.
  - destruct (last_commit_or_empty_strings github_mock "t" 1%nat "o" (JStr "r")
                (JStr "main") (world0 0) mock_commit
                (with_request (world0 0)
                   (request_of "t" (CommitRef "o" (JStr "r") (JStr "main")) None)))
      as [_ HI].
    destruct HI as [_ H]; [vm_compute; reflexivity|].
    rewrite (H (JStr "2024-05-01T10:00:00Z") (JStr "dev")); [reflexivity | reflexivity |].
    unfold committed, mock_commit. do 3 eexists. repeat split; reflexivity.
Defined.

(** X8.  [get_pr_counts] of [fetch_repo_details.py] pages through the
    closed pull requests only after a closed probe that gave something.
    When the closed probe gives nothing, the function is over with the
    second probe: it sends no further request and returns the open
    count with 0 closed and 0 merged. *)
Theorem Details_no_closed_no_merge_scan server auth api_fuel fuel org repo
    w open_prs w1 closed_prs w2 :
  Details.github_api_get server auth api_fuel (Pulls org repo)
    (Some [("state", JStr "open"); ("per_page", JNum 1)]) w = (Ret open_prs, w1) ->
  Details.github_api_get server auth api_fuel (Pulls org repo)
    (Some [("state", JStr "closed"); ("per_page", JNum 1)]) w1 = (Ret closed_prs, w2) ->
  truthy closed_prs = false ->
  (open_prs = JNull \/ exists items, open_prs = JList items) ->
  Details.get_pr_counts server auth api_fuel fuel org repo w
    = (Ret (listed open_prs, 0, 0), w2).
Proof.
  intros Hopen Hclosed Hfalsy Hshape. unfold Details.get_pr_counts.
  unfold bind at 1. rewrite Hopen. unfold bind at 1. rewrite Hclosed.
  unfold len_or_zero at 1. rewrite Hfalsy. unfold ret at 1. unfold bind at 1.
  unfold ret at 1. unfold bind at 1.
  destruct Hshape as [-> | [items ->]].
  - reflexivity.
  - destruct items; reflexivity.
Qed.

Lemma Details_no_closed_no_merge_scan_witness :
  fst (Details.get_pr_counts always_not_found "t" 1 1 "o" (JStr "r") (world0 0))
    = Ret (0, 0, 0)
  /\ List.length (sent (snd (Details.get_pr_counts always_not_found "t" 1 1 "o"
                              (JStr "r") (world0 0)))) = 2%nat.
Proof.
  assert (H := Details_no_closed_no_merge_scan always_not_found "t" 1%nat 1%nat "o"
                 (JStr "r") (world0 0) JNull _ JNull _
                 ltac:(vm_compute; reflexivity) ltac:(vm_compute; reflexivity)
                 eq_refl (or_introl eq_refl)).
  rewrite H. split; reflexivity.
Defined.

(** Skip the statements of an aggregation that only read values. *)
Ltac skip_reads :=
  repeat match goal with
         | |- returns (match ?x with _ => _ end) _ => destruct x
         | |- returns (bind _ _) _ => apply returns_bind_any; intro
         end.

Lemma Details_aggregate_columns server auth api_fuel fuel org repo :
  returns (Details.aggregate server auth api_fuel fuel org repo)
          (fun row => map fst row = fieldnames).
Proof. unfold Details.aggregate. skip_reads. apply returns_ret. reflexivity. Qed.

Lemma Inventory_aggregate_columns server auth org repo :
  returns (Inventory.aggregate server auth org repo)
          (fun row => map fst row = fieldnames).
Proof. unfold Inventory.aggregate. skip_reads. apply returns_ret. reflexivity. Qed.

(** X9.  Every row that an aggregation hands to [writer.writerow] has
    exactly the 17 columns of the header, in the header's order,
    whatever the API answered: no column is missing and none is extra
    (the assignment to [row["Total Releases"]] in
    [fetch_repo_details.py] replaces the fallback in place). *)
Theorem rows_have_the_header_columns server auth api_fuel fuel org repo w row w' :
  (Details.aggregate server auth api_fuel fuel org repo w = (Ret row, w') ->
   map fst row = fieldnames)
  /\ (Inventory.aggregate server auth org repo w = (Ret row, w') ->
      map fst row = fieldnames).
Proof.
  split; intro Hrun.
  - exact (Details_aggregate_columns _ _ _ _ _ _ _ _ _ Hrun).
  - exact (Inventory_aggregate_columns _ _ _ _ _ _ _ Hrun).
Qed.

Lemma rows_have_the_header_columns_witness :
  map fst (row_of (fst (Details.aggregate github_mock "t" 2 2 "o" good_repo (world0 0))))
    = fieldnames
  /\ map fst (row_of (fst (Inventory.aggregate github_mock "t" "o" good_repo (world0 0))))
    = fieldnames.
Proof.
  split.
  - apply (proj1 (rows_have_the_header_columns github_mock "t" 2%nat 2%nat "o"
             good_repo (world0 0)
             (row_of (fst (Details.aggregate github_mock "t" 2 2 "o" good_repo
                             (world0 0))))
             (snd (Details.aggregate github_mock "t" 2 2 "o" good_repo (world0 0))))).
    vm_compute. reflexivity.
  - apply (proj2 (rows_have_the_header_columns github_mock "t" 2%nat 2%nat "o"
             good_repo (world0 0)
             (row_of (fst (Inventory.aggregate github_mock "t" "o" good_repo
                             (world0 0))))
             (snd (Inventory.aggregate github_mock "t" "o" good_repo (world0 0))))).
    vm_compute. reflexivity.
Defined.

(** ** Counts *)

Lemma len_not_negative v : returns (len v) (fun n => 0 <= n).
Proof.
  intros w n w' E. unfold len, or_raise in E.
  destruct v; cbn [py_len] in E; try discriminate E; injection E as <- _; lia.
Qed.

Lemma len_or_zero_not_negative v : returns (len_or_zero v) (fun n => 0 <= n).
Proof.
  unfold len_or_zero. destruct (truthy v);
    [apply len_not_negative | apply returns_ret; lia].
Qed.

Lemma count_without_not_negative k items :
  returns (count_without k items) (fun n => 0 <= n).
Proof.
  induction items as [|i items IH]; cbn [count_without].
  - apply returns_ret. lia.
  - apply returns_bind_any. intro marked.
    eapply returns_bind; [exact IH|]. intros n Hn. cbv beta in Hn.
    apply returns_ret. destruct marked; lia.
Qed.

Lemma Details_count_merged_not_negative server auth api_fuel org repo prs :
  forall merged,
    0 <= merged ->
    returns (Details.count_merged server auth api_fuel org repo prs merged)
            (fun n => 0 <= n).
Proof.
  induction prs as [|pr prs IH]; intros merged H0; cbn [Details.count_merged].
  - apply returns_ret. exact H0.
  - do 3 (apply returns_bind_any; intro). apply IH.
    match goal with |- 0 <= (if ?b then _ else _) => destruct b end; lia.
Qed.

Lemma Details_merged_loop_not_negative server auth api_fuel fuel org repo per_page :
  forall page merged,
    0 <= merged ->
    returns (Details.merged_loop server auth api_fuel fuel org repo per_page
               page merged)
            (fun n => 0 <= n).
Proof.
  induction fuel as [|fuel IH]; intros page merged H0; cbn [Details.merged_loop].
  - apply returns_out_of_fuel.
  - apply returns_bind_any. intro prs. destruct (negb _).
    + apply returns_ret. exact H0.
    + apply returns_bind_any. intro items.
      eapply returns_bind;
        [apply (Details_count_merged_not_negative _ _ _ _ _ _ _ H0)|].
      intros merged' Hm. cbv beta in Hm. apply returns_bind_any. intro n.
      destruct (n <? per_page); [apply returns_ret; exact Hm | apply IH; exact Hm].
Qed.

Lemma Details_get_pr_counts_not_negative server auth api_fuel fuel org repo :
  returns (Details.get_pr_counts server auth api_fuel fuel org repo)
          (fun counts =>
             let '(open_count, closed_count, merged) := counts in
             0 <= open_count /\ 0 <= closed_count /\ 0 <= merged).
Proof.
  unfold Details.get_pr_counts.
  do 2 (apply returns_bind_any; intro).
  eapply returns_bind; [apply len_or_zero_not_negative|]. intros closed_count Hc. cbv beta in Hc.
  eapply (returns_bind _ _ (fun n => 0 <= n)).
  { destruct (truthy _);
      [apply Details_merged_loop_not_negative; lia | apply returns_ret; lia]. }
  intros merged Hm. cbv beta in Hm.
  eapply returns_bind; [apply len_or_zero_not_negative|]. intros open_count Ho.
  cbv beta in Ho. apply returns_ret. auto.
Qed.

Lemma Details_count_issues_not_negative server auth api_fuel fuel url state per_page :
  forall page count,
    0 <= count ->
    returns (Details.count_issues server auth api_fuel fuel url state per_page
               page count)
            (fun n => 0 <= n).
Proof.
  induction fuel as [|fuel IH]; intros page count H0; cbn [Details.count_issues].
  - apply returns_out_of_fuel.
  - apply returns_bind_any. intro issues. destruct (negb _).
    + apply returns_ret. exact H0.
    + apply returns_bind_any. intro items.
      eapply returns_bind; [apply count_without_not_negative|].
      intros k Hk. cbv beta in Hk. apply returns_bind_any. intro n.
      destruct (n <? per_page); [apply returns_ret; lia | apply IH; lia].
Qed.

Lemma Details_get_issue_counts_not_negative server auth api_fuel fuel org repo :
  returns (Details.get_issue_counts server auth api_fuel fuel org repo)
          (fun counts => let '(open_count, closed_count) := counts in
                         0 <= open_count /\ 0 <= closed_count).
Proof.
  unfold Details.get_issue_counts.
  do 2 (apply returns_bind_any; intro).
  eapply returns_bind; [apply Details_count_issues_not_negative; lia|].
  intros open_count Ho. cbv beta in Ho.
  eapply returns_bind; [apply Details_count_issues_not_negative; lia|].
  intros closed_count Hc. cbv beta in Hc. apply returns_ret. auto.
Qed.

Lemma Details_get_branches_not_negative server auth api_fuel fuel org repo :
  returns (Details.get_branches server auth api_fuel fuel org repo) (fun n => 0 <= n).
Proof.
  unfold Details.get_branches. apply returns_bind_any. intro. apply returns_ret. lia.
Qed.

Lemma Details_get_tags_not_negative server auth api_fuel fuel org repo :
  returns (Details.get_tags server auth api_fuel fuel org repo) (fun n => 0 <= n).
Proof.
  unfold Details.get_tags. apply returns_bind_any. intro. apply returns_ret. lia.
Qed.

Lemma size_mb_cell v : returns (size_mb v) (fun c => exists z, c = CSizeMB z).
Proof.
  intros w c w' E. unfold size_mb in E.
  destruct v; try discriminate E; injection E as <- _; eexists; reflexivity.
Qed.

(** Skip the statements of an aggregation up to the size cell. *)
Ltac skip_to_size :=
  repeat match goal with
         | |- returns (match ?x with _ => _ end) _ => destruct x
         | |- returns (bind (size_mb _) _) _ => fail 1
         | |- returns (bind _ _) _ => apply returns_bind_any; intro
         end.

(** Read a count off a row that is written out. *)
Ltac read_count H :=
  cbn in H;
  repeat match type of H with
         | (if ?b then _ else _) = _ => destruct b
         | Some (CInt _) = Some (CInt _) => injection H as <-
         | Some _ = Some _ => discriminate H
         | None = Some _ => discriminate H
         end.

Lemma Details_aggregate_not_negative server auth api_fuel fuel org repo :
  returns (Details.aggregate server auth api_fuel fuel org repo)
          (fun row => forall column n, assoc column row = Some (CInt n) -> 0 <= n).
Proof.
  unfold Details.aggregate.
  apply returns_bind_any. intro.
  eapply returns_bind; [apply Details_get_pr_counts_not_negative|].
  intros [[open_prs closed_prs] merged_prs] (Ho & Hc & Hm).
  apply returns_bind_any. intro.
  eapply returns_bind; [apply Details_get_issue_counts_not_negative|].
  intros [open_issues closed_issues] [Hoi Hci].
  apply returns_bind_any. intro.
  eapply returns_bind; [apply Details_get_branches_not_negative|].
  intros branches Hb. cbv beta in Hb.
  apply returns_bind_any. intro.
  eapply returns_bind; [apply Details_get_tags_not_negative|].
  intros tags Ht. cbv beta in Ht.
  skip_to_size.
  eapply returns_bind; [apply size_mb_cell|]. intros size_cell [z ->].
  skip_to_probe.
  apply returns_bind_any. intro releases.
  eapply returns_bind; [apply len_or_zero_not_negative|].
  intros n Hn. cbv beta in Hn.
  apply returns_ret. intros column k H.
  read_count H; assumption.
Qed.

Lemma chars_length s : List.length (chars s) = String.length s.
Proof. induction s as [|c s IH]; cbn [chars List.length String.length]; congruence. Qed.

(** What a [for] loop walks over has [len] items. *)
Lemma py_iter_len v items :
  py_iter v = Some items -> py_len v = Some (Z.of_nat (List.length items)).
Proof.
  destruct v; cbn [py_iter py_len]; intro H; try discriminate H;
    injection H as <-.
  - rewrite chars_length. reflexivity.
  - reflexivity.
  - rewrite length_map. reflexivity.
Qed.

Lemma returns_iter v : returns (iter v) (fun items => py_iter v = Some items).
Proof.
  intros w items w' E. unfold iter, or_raise in E.
  destruct (py_iter v); [|discriminate E]. injection E as <- _. reflexivity.
Qed.

Lemma returns_len v : returns (len v) (fun n => py_len v = Some n).
Proof.
  intros w n w' E. unfold len, or_raise in E.
  destruct (py_len v); [|discriminate E]. injection E as <- _. reflexivity.
Qed.

Lemma Inventory_count_merged_bounds prs :
  returns (Inventory.count_merged prs)
          (fun n => 0 <= n <= Z.of_nat (List.length prs)).
Proof.
  induction prs as [|pr prs IH]; cbn [Inventory.count_merged].
  - apply returns_ret. cbn [List.length]. lia.
  - apply returns_bind_any. intro m.
    eapply returns_bind; [exact IH|]. intros n Hn. cbv beta in Hn.
    apply returns_ret. cbn [List.length]. destruct (truthy m); lia.
Qed.

Lemma Inventory_get_pr_counts_bounds server auth org repo :
  returns (Inventory.get_pr_counts server auth org repo)
          (fun counts =>
             let '(open_count, closed_count, merged) := counts in
             0 <= open_count /\ 0 <= merged <= closed_count).
Proof.
  unfold Inventory.get_pr_counts.
  apply returns_bind_any. intro open_prs.
  apply returns_bind_any. intro closed_prs.
  eapply returns_bind; [apply returns_iter|]. intros items Hitems. cbv beta in Hitems.
  eapply returns_bind; [apply Inventory_count_merged_bounds|].
  intros merged Hm. cbv beta in Hm.
  eapply returns_bind; [apply len_not_negative|]. intros open_count Ho. cbv beta in Ho.
  eapply returns_bind; [apply returns_len|]. intros closed_count Hc. cbv beta in Hc.
  apply returns_ret. rewrite (py_iter_len _ _ Hitems) in Hc. injection Hc as <-.
  split; [exact Ho | exact Hm].
Qed.

Lemma Inventory_get_issue_counts_not_negative server auth org repo :
  returns (Inventory.get_issue_counts server auth org repo)
          (fun counts => let '(open_count, closed_count) := counts in
                         0 <= open_count /\ 0 <= closed_count).
Proof.
  unfold Inventory.get_issue_counts.
  do 6 (apply returns_bind_any; intro). apply returns_ret. split; lia.
Qed.

Lemma Inventory_get_branches_not_negative server auth org repo :
  returns (Inventory.get_branches server auth org repo) (fun n => 0 <= n).
Proof.
  unfold Inventory.get_branches. apply returns_bind_any. intro.
  apply len_not_negative.
Qed.

Lemma Inventory_get_tags_not_negative server auth org repo :
  returns (Inventory.get_tags server auth org repo) (fun n => 0 <= n).
Proof.
  unfold Inventory.get_tags. apply returns_bind_any. intro.
  apply len_not_negative.
Qed.

Lemma Inventory_aggregate_counts server auth org repo :
  returns (Inventory.aggregate server auth org repo)
          (fun row =>
             (forall column n, assoc column row = Some (CInt n) -> 0 <= n)
             /\ exists closed merged,
                  assoc "Total Closed PRs" row = Some (CInt closed)
                  /\ assoc "Total Merged PRs" row = Some (CInt merged)
                  /\ merged <= closed).
Proof.
  unfold Inventory.aggregate.
  apply returns_bind_any. intro.
  eapply returns_bind; [apply Inventory_get_pr_counts_bounds|].
  intros [[open_prs closed_prs] merged_prs] (Ho & Hm).
  apply returns_bind_any. intro.
  eapply returns_bind; [apply Inventory_get_issue_counts_not_negative|].
  intros [open_issues closed_issues] [Hoi Hci].
  apply returns_bind_any. intro.
  eapply returns_bind; [apply Inventory_get_branches_not_negative|].
  intros branches Hb. cbv beta in Hb.
  apply returns_bind_any. intro.
  eapply returns_bind; [apply Inventory_get_tags_not_negative|].
  intros tags Ht. cbv beta in Ht.
  skip_to_size.
  eapply returns_bind; [apply size_mb_cell|]. intros size_cell [z ->].
  skip_to_probe.
  eapply returns_bind; [apply len_or_zero_not_negative|].
  intros n Hn. cbv beta in Hn.
  apply returns_ret. split.
  - intros column k H. read_count H; try assumption; lia.
  - exists closed_prs, merged_prs. repeat split. lia.
Qed.

(** X10.  No count in the report is negative: in every row that either
    aggregation returns, every column that holds a count holds one that
    is 0 or more, whatever the API answered. *)
Theorem report_counts_not_negative server auth api_fuel fuel org repo w row w' :
  (Details.aggregate server auth api_fuel fuel org repo w = (Ret row, w') ->
   forall column n, assoc column row = Some (CInt n) -> 0 <= n)
  /\ (Inventory.aggregate server auth org repo w = (Ret row, w') ->
      forall column n, assoc column row = Some (CInt n) -> 0 <= n).
Proof.
  split; intro Hrun.
  - exact (Details_aggregate_not_negative _ _ _ _ _ _ _ _ _ Hrun).
  - exact (proj1 (Inventory_aggregate_counts _ _ _ _ _ _ _ Hrun)).
Qed.

Lemma report_counts_not_negative_witness :
  0 <= 2
  /\ assoc "Total Merged PRs"
       (row_of (fst (Details.aggregate github_mock "t" 2 2 "o" good_repo (world0 0))))
     = Some (CInt 2).
Proof.
  split; [|reflexivity].
  apply (proj1 (report_counts_not_negative github_mock "t" 2%nat 2%nat "o" good_repo
                  (world0 0)
                  (row_of (fst (Details.aggregate github_mock "t" 2 2 "o" good_repo
                                  (world0 0))))
                  (snd (Details.aggregate github_mock "t" 2 2 "o" good_repo
                          (world0 0))))
               ltac:(vm_compute; reflexivity) "Total Merged PRs" 2).
  reflexivity.
Defined.

(** X11.  In [fetch_repo_details_inventory.py] the merged pull requests
    are counted in the very list whose length is the closed count, so
    in every row it returns Total Merged PRs is at most Total Closed
    PRs (in [fetch_repo_details.py] it can be larger). *)
Theorem Inventory_merged_at_most_closed server auth org repo w row w' :
  Inventory.aggregate server auth org repo w = (Ret row, w') ->
  exists closed merged,
    assoc "Total Closed PRs" row = Some (CInt closed)
    /\ assoc "Total Merged PRs" row = Some (CInt merged)
    /\ merged <= closed.
Proof.
  intro Hrun. exact (proj2 (Inventory_aggregate_counts _ _ _ _ _ _ _ Hrun)).
Qed.

Lemma Inventory_merged_at_most_closed_witness :
  exists closed merged,
    assoc "Total Closed PRs"
      (row_of (fst (Inventory.aggregate github_mock "t" "o" good_repo (world0 0))))
      = Some (CInt closed)
    /\ assoc "Total Merged PRs"
         (row_of (fst (Inventory.aggregate github_mock "t" "o" good_repo (world0 0))))
       = Some (CInt merged)
    /\ merged <= closed.
Proof.
  apply (Inventory_merged_at_most_closed github_mock "t" "o" good_repo (world0 0)
           (row_of (fst (Inventory.aggregate github_mock "t" "o" good_repo (world0 0))))
           (snd (Inventory.aggregate github_mock "t" "o" good_repo (world0 0)))).
  vm_compute. reflexivity.
Defined.

(** X12.  Branch and tag counts.  In [fetch_repo_details.py] they are
    totals over all pages: when the client returns the full pages
    [pages] and then a last value that ends the pagination, the count
    is the number of all items returned.  In
    [fetch_repo_details_inventory.py] each is the length of the answer
    to a single request without [per_page]. *)
Theorem branch_and_tag_counts server auth api_fuel fuel org repo
    (pages : list (list json)) (last : json) (tail : list json) :
  Forall (fun p => 100 <= Z.of_nat (List.length p)) pages ->
  ends_pagination 100 last tail ->
  (List.length pages < fuel)%nat ->
  (forall w w1 w2,
     fetches (fun p => Details.github_api_get server auth api_fuel (Branches org repo)
                         (Some (Details.page_params 100 p)))
             1 w (map JList pages) w1 ->
     Details.github_api_get server auth api_fuel (Branches org repo)
       (Some (Details.page_params 100 (1 + Z.of_nat (List.length pages)))) w1
       = (Ret last, w2) ->
     Details.get_branches server auth api_fuel fuel org repo w
       = (Ret (Z.of_nat (List.length (List.concat pages ++ tail))), w2))
  /\
  (forall w w1 w2,
     fetches (fun p => Details.github_api_get server auth api_fuel (Tags org repo)
                         (Some (Details.page_params 100 p)))
             1 w (map JList pages) w1 ->
     Details.github_api_get server auth api_fuel (Tags org repo)
       (Some (Details.page_params 100 (1 + Z.of_nat (List.length pages)))) w1
       = (Ret last, w2) ->
     Details.get_tags server auth api_fuel fuel org repo w
       = (Ret (Z.of_nat (List.length (List.concat pages ++ tail))), w2))
  /\
  (forall w w' items,
     Inventory.github_api_get server auth (Branches org repo) None w
       = (Ret (JList items), w') ->
     Inventory.get_branches server auth org repo w
       = (Ret (Z.of_nat (List.length items)), w'))
  /\
  (forall w w' items,
     Inventory.github_api_get server auth (Tags org repo) None w
       = (Ret (JList items), w') ->
     Inventory.get_tags server auth org repo w
       = (Ret (Z.of_nat (List.length items)), w')).
Proof.
  intros Hfull Hend Hfuel. split; [|split; [|split]].
  - intros w w1 w2 Hf Hlast. unfold Details.get_branches. unfold bind.
    rewrite (Details_paginate_pages server auth api_fuel (Branches org repo)
               (Details.page_params 100) 100 eq_refl pages 1 [] w w1 w2
               last tail fuel Hf Hfull Hlast Hend Hfuel).
    reflexivity.
  - intros w w1 w2 Hf Hlast. unfold Details.get_tags. unfold bind.
    rewrite (Details_paginate_pages server auth api_fuel (Tags org repo)
               (Details.page_params 100) 100 eq_refl pages 1 [] w w1 w2
               last tail fuel Hf Hfull Hlast Hend Hfuel).
    reflexivity.
  - intros w w' items Hget. unfold Inventory.get_branches. unfold bind.
    rewrite Hget. reflexivity.
  - intros w w' items Hget. unfold Inventory.get_tags. unfold bind.
    rewrite Hget. reflexivity.
Qed.

Lemma branch_and_tag_counts_witness :
  fst (Details.get_branches full_then_short "t" 1 2 "o" (JStr "r") (world0 0))
    = Ret 101
  /\ fst (Inventory.get_tags full_then_short "t" "o" (JStr "r") (world0 0))
    = Ret 100.
Proof.
  destruct (branch_and_tag_counts full_then_short "t" 1%nat 2%nat "o" (JStr "r")
              [full_page] (JList [JStr "z"]) [JStr "z"]) as (HB & _ & _ & HT).
  - repeat constructor. vm_compute. discriminate.
  - right. split; reflexivity.
  - simpl. lia.
  - split.
    + erewrite HB; [reflexivity | |].
      * eapply fetches_cons; [vm_compute; reflexivity | apply fetches_nil].
      * vm_compute. reflexivity.
    + erewrite (HT (world0 0) _ full_page); [reflexivity|].
      vm_compute. reflexivity.
Defined.

(** * fetch_repo_list.py: the CSV file and the script *)

Lemma write_rows_named (named : list json) :
  forall (rest : list json) (w : World) (lines : list csv_line),
    Forall has_name named ->
    csv w = Some lines ->
    RepoList.write_rows (named ++ rest) w =
    RepoList.write_rows rest
      (mkWorld (now w) (sent w) (error_log w) (stdout w) (logging w) (slept w)
               (Some (lines ++ map name_and_visibility named))).
Proof.
  induction named as [|repo named IH]; intros rest w lines Hnames Hcsv.
  - cbn [app map]. rewrite app_nil_r. destruct w. cbn in Hcsv. subst. reflexivity.
  - inversion Hnames as [|? ? (kvs & name & -> & Hname) Hnames']; subst.
    cbn [app RepoList.write_rows]. unfold bind at 1. unfold getitem, or_raise.
    rewrite Hname. unfold ret at 1. unfold bind at 1. unfold dict_get, ret at 1.
    unfold bind at 1. unfold write_line at 1.
    erewrite (IH rest _ (lines ++ [name_and_visibility (JObj kvs)]) Hnames').
    + fields. cbn [map]. rewrite <- app_assoc. reflexivity.
    + fields. rewrite Hcsv. cbn [name_and_visibility]. rewrite Hname. reflexivity.
Qed.

(** X13.  [save_to_csv] opens the file anew and writes the header and
    then one line per repository, in order, with the name and the
    visibility, ["N/A"] for a repository without one; what the file
    held before is gone. *)
Theorem save_to_csv_writes_every_repository (repositories : list json) (w : World) :
  Forall has_name repositories ->
  RepoList.save_to_csv repositories w =
    (Ret tt,
     mkWorld (now w) (sent w) (error_log w) (stdout w) (logging w) (slept w)
             (Some (repo_list_header :: map name_and_visibility repositories))).
Proof.
  intros Hnames. unfold RepoList.save_to_csv. unfold bind. unfold open_csv at 1.
  rewrite <- (app_nil_r repositories) at 1.
  erewrite (write_rows_named repositories [] _ [repo_list_header] Hnames);
    reflexivity.
Qed.

Lemma save_to_csv_writes_every_repository_witness :
  csv (snd (RepoList.save_to_csv [good_repo; JObj [("name", JStr "bare")]] (world0 0)))
    = Some [repo_list_header;
            ListRow [JStr "good"; JStr "private"];
            ListRow [JStr "bare"; JStr "N/A"]].
Proof.
  rewrite (save_to_csv_writes_every_repository
             [good_repo; JObj [("name", JStr "bare")]] (world0 0)).
  - reflexivity.
  - repeat constructor; do 2 eexists; split; reflexivity.
Defined.

(** X14.  A repository without a [name] stops [save_to_csv] with
    [KeyError]: the lines of the repositories before it are in the file,
    none of the later ones is. *)
Theorem save_to_csv_stops_at_missing_name (named : list json)
    (kvs : list (string * json)) (later : list json) (w : World) :
  Forall has_name named ->
  assoc "name" kvs = None ->
  RepoList.save_to_csv (named ++ JObj kvs :: later) w =
    (Raise (KeyError "name"),
     mkWorld (now w) (sent w) (error_log w) (stdout w) (logging w) (slept w)
             (Some (repo_list_header :: map name_and_visibility named))).
Proof.
  intros Hnames Hmissing. unfold RepoList.save_to_csv. unfold bind.
  unfold open_csv at 1.
  erewrite (write_rows_named named (JObj kvs :: later) _ [repo_list_header]
              Hnames); [|reflexivity].
  cbn [RepoList.write_rows]. unfold bind, getitem, or_raise. rewrite Hmissing.
  reflexivity.
Qed.

Lemma save_to_csv_stops_at_missing_name_witness :
  RepoList.save_to_csv ([good_repo] ++ JObj [("id", JNum 5)] :: [bad_repo]) (world0 0)
    = (Raise (KeyError "name"),
       mkWorld 0 [] [] [] [] []
               (Some [repo_list_header; ListRow [JStr "good"; JStr "private"]])).
Proof.
  rewrite (save_to_csv_stops_at_missing_name [good_repo] [("id", JNum 5)] [bad_repo]
             (world0 0)).
  - reflexivity.
  - repeat constructor; do 2 eexists; split; reflexivity.
  - reflexivity.
Defined.

Lemma set_when_not_empty (s : string) : s <> "" -> is_set (Some s) = true.
Proof. intro H. cbn [is_set]. apply String.eqb_neq in H. rewrite H. reflexivity. Qed.

(** With both variables in the environment the [.env] file is not read
    and the script is its [__main__] block. *)
Lemma RepoList_script_configured server config org pat fuel :
  configured config org pat ->
  RepoList.script server config fuel =
    try_except
      (print (Fetching org) ;;
       repositories <- RepoList.get_github_repos server fuel org pat ;;
       RepoList.save_to_csv repositories ;;
       print (Say "CSV file saved successfully!") ;;
       logging_at "INFO" (Say "CSV file saved successfully."))
      (fun e =>
         logging_at "ERROR" (Say "Unhandled exception") ;;
         print (Say "An error occurred. Check logs/fetch_repos.log for details.")).
Proof.
  intros (Horg & Horg' & Hpat & Hpat'). unfold RepoList.script. cbv zeta.
  rewrite Horg, Hpat.
  rewrite ?(set_when_not_empty _ Horg'), ?(set_when_not_empty _ Hpat').
  cbn [negb orb].
  rewrite ?(set_when_not_empty _ Horg'), ?(set_when_not_empty _ Hpat').
  reflexivity.
Qed.

(** X15.  [fetch_repo_list.py] does not retry a request that raises.
    When the first [requests.get] raises an [Exception], the script is
    over after this one request: one line goes to the log at level
    ERROR, the failure is printed, no CSV file is opened, and the script
    ends normally (exit status 0). *)
Theorem RepoList_request_error_ends_script server config org pat fuel w e :
  configured config org pat ->
  server (List.length (sent w)) (repo_list_request org pat 100 1) = Fails e ->
  is_exception e = true ->
  (0 < fuel)%nat ->
  exists line,
    RepoList.script server config fuel w =
      (Ret tt,
       mkWorld (now w) (sent w ++ [repo_list_request org pat 100 1]) (error_log w)
               (stdout w ++ [Fetching org;
                             Say "An error occurred. Check logs/fetch_repos.log for details."])
               (logging w ++ [("ERROR", line)])
               (slept w) (csv w)).
Proof.
  intros Hconf Hs He Hfuel. eexists.
  rewrite (RepoList_script_configured _ _ _ _ _ Hconf).
  destruct fuel as [|fuel]; [lia|]. unfold repo_list_request in Hs.
  unfold try_except. unfold bind at 1. unfold print at 1.
  unfold bind at 1. unfold RepoList.get_github_repos.
  cbn [RepoList.get_github_repos_from]. unfold bind at 1. unfold requests_get.
  fields. rewrite Hs, He. unfold bind, logging_at, print. fields.
  rewrite <- app_assoc. reflexivity.
Qed.

Lemma RepoList_request_error_ends_script_witness :
  exit_status
    (fst (RepoList.script always_down
            (mkConfig [("GH_ORG", "o"); ("GH_PAT", "p")] []) 1 (world0 0)))
    = Some 0
  /\ csv (snd (RepoList.script always_down
                 (mkConfig [("GH_ORG", "o"); ("GH_PAT", "p")] []) 1 (world0 0)))
     = None.
Proof.
  destruct (RepoList_request_error_ends_script always_down
              (mkConfig [("GH_ORG", "o"); ("GH_PAT", "p")] []) "o" "p" 1%nat (world0 0)
              (ConnectionError "connection refused")) as [line Hrun].
  - repeat split; discriminate.
  - reflexivity.
  - reflexivity.
  - lia.
  - rewrite Hrun. split; reflexivity.
Defined.

(** X16.  An HTTP error on the first page does not keep
    [fetch_repo_list.py] from reporting success.  When the first answer
    has a status other than 200, is no rate limit and carries a JSON
    object, [get_github_repos] prints and logs the error and returns no
    repository, and the script goes on to write a CSV file that holds
    the header only, prints "CSV file saved successfully!" and ends
    normally. *)
Theorem RepoList_http_error_writes_header_only server config org pat fuel w r kvs :
  configured config org pat ->
  server (List.length (sent w)) (repo_list_request org pat 100 1) = Answers r ->
  status_code r <> 200 ->
  rate_limited_by_header r = false ->
  json_body r = Some (JObj kvs) ->
  (0 < fuel)%nat ->
  let message := match assoc "message" kvs with
                 | Some m => m
                 | None => JStr "Unknown error"
                 end in
  RepoList.script server config fuel w =
    (Ret tt,
     mkWorld (now w) (sent w ++ [repo_list_request org pat 100 1]) (error_log w)
             (stdout w ++ [Fetching org;
                           HttpErrorMessage (status_code r) message;
                           Say "CSV file saved successfully!"])
             (logging w ++ [("ERROR", HttpErrorMessage (status_code r) message);
                            ("INFO", Say "CSV file saved successfully.")])
             (slept w) (Some [repo_list_header])).
Proof.
  intros Hconf Hs Hst Hrl Hb Hfuel message.
  rewrite (RepoList_script_configured _ _ _ _ _ Hconf).
  destruct fuel as [|fuel]; [lia|]. unfold repo_list_request in Hs.
  unfold rate_limited_by_header in Hrl. apply Z.eqb_neq in Hst.
  unfold try_except. unfold bind at 1. unfold print at 1.
  unfold bind at 1. unfold RepoList.get_github_repos.
  cbn [RepoList.get_github_repos_from]. unfold bind at 1. unfold requests_get.
  fields. rewrite Hs. rewrite Hrl, Hst. cbn [negb].
  unfold response_json, or_raise. rewrite Hb.
  subst message.
  cbv beta iota zeta
      delta [bind ret dict_get print logging_at RepoList.save_to_csv open_csv
             RepoList.write_rows now sent error_log stdout logging slept csv].
  rewrite <- !app_assoc. reflexivity.
Qed.

Lemma RepoList_http_error_writes_header_only_witness :
  csv (snd (RepoList.script always_not_found
              (mkConfig [("GH_ORG", "o"); ("GH_PAT", "p")] []) 1 (world0 0)))
    = Some [repo_list_header]
  /\ exit_status
       (fst (RepoList.script always_not_found
               (mkConfig [("GH_ORG", "o"); ("GH_PAT", "p")] []) 1 (world0 0)))
     = Some 0.
Proof.
  rewrite (RepoList_http_error_writes_header_only always_not_found
             (mkConfig [("GH_ORG", "o"); ("GH_PAT", "p")] []) "o" "p" 1%nat (world0 0)
             not_found_response [("message", JStr "Not Found")]).
  - split; reflexivity.
  - repeat split; discriminate.
  - reflexivity.
  - discriminate.
  - reflexivity.
  - reflexivity.
  - lia.
Defined.

(** * The main functions of the report scripts *)

(** X17.  No repository, no report.  When the first call for the
    organisation's repositories gives nothing (a failure or an empty
    organisation), [main] of both report scripts prints "No
    repositories found or error occurred." and returns: no further
    request is sent and no CSV file is opened. *)
Theorem main_without_repositories_writes_nothing server config auth api_fuel fuel
    org w sentinel w1 :
  truthy sentinel = false ->
  (0 < fuel)%nat ->
  (getenv (load_dotenv config) "ORG_NAME" = Some org ->
   org <> "" ->
   Details.github_api_get server
     ("Bearer " ++ format_env (getenv (load_dotenv config) "GITHUB_TOKEN"))
     api_fuel (OrgRepos org) (Some (Details.repos_params 100 1)) w
     = (Ret sentinel, w1) ->
   Details.main server config api_fuel fuel w =
     (Ret tt,
      mkWorld (now w1) (sent w1) (error_log w1)
              (stdout w1 ++ [Say "No repositories found or error occurred."])
              (logging w1) (slept w1) (csv w1)))
  /\
  (Inventory.github_api_get server auth (OrgRepos org)
     (Some [("per_page", JNum 100); ("page", JNum 1)]) w = (Ret sentinel, w1) ->
   Inventory.main server auth fuel org w =
     (Ret tt,
      mkWorld (now w1) (sent w1) (error_log w1)
              (stdout w1 ++ [Say "No repositories found or error occurred."])
              (logging w1) (slept w1) (csv w1))).
Proof.
  intros Hfalsy Hfuel. split.
  - intros Horg Hne Hget. unfold Details.main. cbv zeta.
    rewrite Horg, (set_when_not_empty _ Hne). cbn [negb format_env].
    unfold bind at 1. unfold Details.get_repos.
    rewrite (Details_paginate_pages server _ api_fuel (OrgRepos org)
               (Details.repos_params 100) 100 eq_refl [] 1 [] w w w1 sentinel []
               fuel (fetches_nil _ _ _) (Forall_nil _) Hget
               (or_introl (conj Hfalsy eq_refl)) Hfuel).
    reflexivity.
  - intros Hget. unfold Inventory.main. unfold bind at 1. unfold Inventory.get_repos.
    rewrite (Inventory_get_repos_pages server auth org [] 1 [] w w w1 sentinel []
               fuel (fetches_nil _ _ _) (Forall_nil _) Hget
               (or_introl (conj Hfalsy eq_refl)) Hfuel).
    reflexivity.
Qed.

Lemma main_without_repositories_writes_nothing_witness :
  csv (snd (Details.main always_not_found (mkConfig [("ORG_NAME", "o")] []) 1 1
              (world0 0))) = None
  /\ csv (snd (Inventory.main always_not_found "token t" 1 "o" (world0 0))) = None.
Proof.
  destruct (main_without_repositories_writes_nothing always_not_found
              (mkConfig [("ORG_NAME", "o")] []) "token t" 1%nat 1%nat "o" (world0 0)
              JNull
              (snd (Details.github_api_get always_not_found "Bearer None" 1
                      (OrgRepos "o") (Some (Details.repos_params 100 1)) (world0 0))))
    as [HD _]; [reflexivity | lia |].
  destruct (main_without_repositories_writes_nothing always_not_found
              (mkConfig [("ORG_NAME", "o")] []) "token t" 1%nat 1%nat "o" (world0 0)
              (JList [])
              (snd (Inventory.github_api_get always_not_found "token t"
                      (OrgRepos "o")
                      (Some [("per_page", JNum 100); ("page", JNum 1)]) (world0 0))))
    as [_ HI]; [reflexivity | lia |].
  rewrite HD, HI; [split; reflexivity | vm_compute; reflexivity | reflexivity
                   | discriminate | vm_compute; reflexivity].
Defined.

(** The file after the repositories have been processed: the lines it
    held, then the rows of the repositories whose aggregation
    returned. *)
Lemma processed_file (aggregate : json -> M Row) :
  (forall repo, quiet (aggregate repo)) ->
  forall repos w outcomes w' lines,
    processed aggregate repos w outcomes w' ->
    csv w = Some lines ->
    csv w' = Some (lines ++ map DictRow (successes outcomes)).
Proof.
  intros Hq repos w outcomes w' lines Hall. revert lines.
  induction Hall as [w
                    | repo name repos w row wa outcomes w' Hname Erun _ IH
                    | repo name repos w e wa outcomes w' Hname Erun Eexc _ IH];
    intros lines Hcsv.
  - cbn [successes map]. rewrite app_nil_r. exact Hcsv.
  - pose proof (Hq repo (announced name w)) as [Hsame _].
    rewrite Erun in Hsame. cbn [snd] in Hsame.
    rewrite (IH (lines ++ [DictRow row])).
    + cbn [successes map]. rewrite <- app_assoc. reflexivity.
    + unfold with_row. fields. rewrite Hsame. unfold announced. fields.
      rewrite Hcsv. reflexivity.
  - pose proof (Hq repo (announced name w)) as [Hsame _].
    rewrite Erun in Hsame. cbn [snd] in Hsame.
    rewrite (IH lines).
    + reflexivity.
    + unfold with_entry. fields. rewrite Hsame. unfold announced. fields. exact Hcsv.
Qed.

(** X18.  The report file.  When [get_repos] returned the repositories
    [repos] and [main] has run to its end, the file was opened anew in
    the world [get_repos] left, the repositories were [processed] from
    there (each aggregated once, in order, in the world the one before
    it left; a row for each that returned, an entry and no row for each
    that raised), and the CSV file holds the header of 17 columns and
    then exactly the rows of the repositories whose aggregation
    returned, in the order of [repos]. *)
Theorem main_report_is_header_and_rows server config auth api_fuel fuel org
    w repos w1 :
  repos <> [] ->
  (getenv (load_dotenv config) "ORG_NAME" = Some org ->
   org <> "" ->
   auth = ("Bearer " ++ format_env (getenv (load_dotenv config) "GITHUB_TOKEN"))%string ->
   Details.get_repos server auth api_fuel fuel org w = (Ret repos, w1) ->
   fst (Details.main server config api_fuel fuel w) = Ret tt ->
   exists outcomes w2,
     processed (Details.aggregate server auth api_fuel fuel org) repos (opened w1)
               outcomes w2
     /\ csv (snd (Details.main server config api_fuel fuel w)) = csv w2
     /\ csv w2 = Some (Header fieldnames :: map DictRow (successes outcomes)))
  /\
  (Inventory.get_repos server auth fuel org w = (Ret repos, w1) ->
   fst (Inventory.main server auth fuel org w) = Ret tt ->
   exists outcomes w2,
     processed (Inventory.aggregate server auth org) repos (opened w1) outcomes w2
     /\ csv (snd (Inventory.main server auth fuel org w)) = csv w2
     /\ csv w2 = Some (Header fieldnames :: map DictRow (successes outcomes))).
Proof.
  intros Hne. split.
  - intros Horg Hset -> Hget Hret. unfold Details.main in Hret |- *.
    cbv zeta in Hret |- *.
    rewrite Horg, (set_when_not_empty _ Hset) in Hret |- *.
    cbn [negb format_env] in Hret |- *.
    unfold bind at 1 in Hret. unfold bind at 1. rewrite Hget in Hret |- *.
    destruct repos as [|repo repos]; [congruence|].
    unfold bind at 1 in Hret. unfold bind at 1.
    unfold open_csv at 1 in Hret. unfold open_csv at 1.
    unfold bind at 1 in Hret. unfold bind at 1.
    match goal with
    | |- context [for_each_repo ?agg ?rs ?w2] =>
        change w2 with (opened w1) in Hret |- *;
        destruct (for_each_repo_processed agg rs (opened w1)) as [Hall _];
        destruct (for_each_repo agg rs (opened w1)) as [[[]|e|] w3];
          [|discriminate Hret|discriminate Hret];
        destruct (Hall eq_refl) as (outcomes & Hp);
        exists outcomes, w3; split; [exact Hp|]; split; [reflexivity|];
        exact (processed_file agg (fun r => quiet_Details_aggregate _ _ _ _ _ r)
                 _ _ _ _ [Header fieldnames] Hp eq_refl)
    end.
  - intros Hget Hret. unfold Inventory.main in Hret |- *.
    unfold bind at 1 in Hret. unfold bind at 1. rewrite Hget in Hret |- *.
    destruct repos as [|repo repos]; [congruence|].
    unfold bind at 1 in Hret. unfold bind at 1.
    unfold open_csv at 1 in Hret. unfold open_csv at 1.
    unfold bind at 1 in Hret. unfold bind at 1.
    match goal with
    | |- context [for_each_repo ?agg ?rs ?w2] =>
        change w2 with (opened w1) in Hret |- *;
        destruct (for_each_repo_processed agg rs (opened w1)) as [Hall _];
        destruct (for_each_repo agg rs (opened w1)) as [[[]|e|] w3];
          [|discriminate Hret|discriminate Hret];
        destruct (Hall eq_refl) as (outcomes & Hp);
        exists outcomes, w3; split; [exact Hp|]; split; [reflexivity|];
        exact (processed_file agg (fun r => quiet_Inventory_aggregate _ _ _ r)
                 _ _ _ _ [Header fieldnames] Hp eq_refl)
    end.
Qed.

Lemma main_report_is_header_and_rows_witness :
  (exists outcomes w2,
     processed (Details.aggregate github_mock "Bearer None" 2 2 "o")
       [good_repo; bad_repo]
       (opened (snd (Details.get_repos github_mock "Bearer None" 2 2 "o" (world0 0))))
       outcomes w2
     /\ csv (snd (Details.main github_mock (mkConfig [("ORG_NAME", "o")] []) 2 2
                    (world0 0))) = csv w2
     /\ csv w2 = Some (Header fieldnames :: map DictRow (successes outcomes)))
  /\
  (exists outcomes w2,
     processed (Inventory.aggregate github_mock "token t" "o")
       [good_repo; bad_repo]
       (opened (snd (Inventory.get_repos github_mock "token t" 2 "o" (world0 0))))
       outcomes w2
     /\ csv (snd (Inventory.main github_mock "token t" 2 "o" (world0 0))) = csv w2
     /\ csv w2 = Some (Header fieldnames :: map DictRow (successes outcomes))).
Proof.
  split.
  - apply (proj1 (main_report_is_header_and_rows github_mock
                    (mkConfig [("ORG_NAME", "o")] []) "Bearer None" 2%nat 2%nat "o"
                    (world0 0) [good_repo; bad_repo]
                    (snd (Details.get_repos github_mock "Bearer None" 2 2 "o"
                            (world0 0)))
                    ltac:(discriminate))).
    + reflexivity.
    + discriminate.
    + reflexivity.
    + vm_compute. reflexivity.
    + vm_compute. reflexivity.
  - apply (proj2 (main_report_is_header_and_rows github_mock
                    (mkConfig [("ORG_NAME", "o")] []) "token t" 2%nat 2%nat "o"
                    (world0 0) [good_repo; bad_repo]
                    (snd (Inventory.get_repos github_mock "token t" 2 "o" (world0 0)))
                    ltac:(discriminate))).
    + vm_compute. reflexivity.
    + vm_compute. reflexivity.
Defined.

(** * The fields of a repository *)

Lemma returns_bind_raise {A B} (e : exn) (f : A -> M B) (Q : B -> Prop) :
  returns (bind (raise e) f) Q.
Proof. intros w b w' E. discriminate E. Qed.

(** Walk an aggregation in which the reads of a missing field have
    become [raise]. *)
Ltac hit_missing :=
  repeat match goal with
         | |- returns (bind (raise _) _) _ => apply returns_bind_raise
         | |- returns (match ?x with _ => _ end) _ => destruct x
         | |- returns (bind _ _) _ => apply returns_bind_any; intro
         end.

Lemma Details_aggregate_needs server auth api_fuel fuel org kvs key :
  In key ("open_issues_count" :: required_fields) ->
  assoc key kvs = None ->
  returns (Details.aggregate server auth api_fuel fuel org (JObj kvs))
          (fun _ => False).
Proof.
  intros Hin Hmissing. unfold Details.aggregate, getitem.
  cbn [In required_fields] in Hin.
  repeat (destruct Hin as [<- | Hin];
          [rewrite Hmissing; cbn [or_raise]; solve [hit_missing]|]).
  contradiction.
Qed.

Lemma Inventory_aggregate_needs server auth org kvs key :
  In key required_fields ->
  assoc key kvs = None ->
  returns (Inventory.aggregate server auth org (JObj kvs)) (fun _ => False).
Proof.
  intros Hin Hmissing. unfold Inventory.aggregate, getitem.
  cbn [In required_fields] in Hin.
  repeat (destruct Hin as [<- | Hin];
          [rewrite Hmissing; cbn [or_raise]; solve [hit_missing]|]).
  contradiction.
Qed.

(** X19.  The fields a repository must have.  A repository that lacks
    one of [name], [default_branch], [visibility], [created_at],
    [updated_at], [pushed_at] and [size] never gets a row from either
    script; in [fetch_repo_details.py] the same holds for
    [open_issues_count], although the value read from it is always
    replaced before the row is written. *)
Theorem repository_fields_required server auth api_fuel fuel org kvs key w row w' :
  assoc key kvs = None ->
  (In key ("open_issues_count" :: required_fields) ->
   Details.aggregate server auth api_fuel fuel org (JObj kvs) w <> (Ret row, w'))
  /\ (In key required_fields ->
      Inventory.aggregate server auth org (JObj kvs) w <> (Ret row, w')).
Proof.
  intros Hmissing. split; intros Hin Hrun.
  - exact (Details_aggregate_needs _ _ _ _ _ _ _ Hin Hmissing _ _ _ Hrun).
  - exact (Inventory_aggregate_needs _ _ _ _ _ Hin Hmissing _ _ _ Hrun).
Qed.

Lemma repository_fields_required_witness :
  Details.aggregate github_mock "t" 2 2 "o"
    (JObj [("name", JStr "r"); ("default_branch", JStr "main");
           ("visibility", JStr "public"); ("created_at", JStr "a");
           ("updated_at", JStr "b"); ("pushed_at", JStr "c"); ("size", JNum 1)])
    (world0 0)
  <> (Ret [], world0 0).
Proof.
  apply (proj1 (repository_fields_required github_mock "t" 2%nat 2%nat "o"
                  [("name", JStr "r"); ("default_branch", JStr "main");
                   ("visibility", JStr "public"); ("created_at", JStr "a");
                   ("updated_at", JStr "b"); ("pushed_at", JStr "c");
                   ("size", JNum 1)]
                  "open_issues_count" (world0 0) [] (world0 0) eq_refl)).
  left. reflexivity.
Defined.

Lemma returns_getitem kvs k :
  returns (getitem (JObj kvs) k) (fun v => assoc k kvs = Some v).
Proof.
  intros w v w' E. unfold getitem, or_raise in E.
  destruct (assoc k kvs); [|discriminate E]. injection E as <- _. reflexivity.
Qed.

Lemma returns_dict_get kvs k d :
  returns (dict_get (JObj kvs) k d)
          (fun v => v = match assoc k kvs with Some x => x | None => d end).
Proof. intros w v w' E. injection E as <- _. reflexivity. Qed.

Lemma returns_size_mb v :
  returns (size_mb v) (fun c => forall z, v = JNum z -> c = CSizeMB z).
Proof.
  intros w c w' E z ->. injection E as <- _. reflexivity.
Qed.

(** Walk an aggregation and keep what each read of the repository
    gave. *)
Ltac track_fields :=
  repeat match goal with
         | |- returns (match ?x with _ => _ end) _ => destruct x
         | |- returns (bind (getitem (JObj _) _) _) _ =>
             eapply returns_bind; [apply returns_getitem | intros ? ?]
         | |- returns (bind (dict_get (JObj _) _ _) _) _ =>
             eapply returns_bind; [apply returns_dict_get | intros ? ?]
         | |- returns (bind (size_mb _) _) _ =>
             eapply returns_bind; [apply returns_size_mb | intros ? ?]
         | |- returns (bind _ _) _ => apply returns_bind_any; intro
         end.

Ltac is_copied :=
  eexists; split; cycle 1; [cbn; reflexivity | assumption].

Lemma Details_aggregate_describes server auth api_fuel fuel org kvs :
  returns (Details.aggregate server auth api_fuel fuel org (JObj kvs))
          (describes kvs (JStr "")).
Proof.
  unfold Details.aggregate, Details.get_primary_language. track_fields.
  apply returns_ret. cbv beta in *. unfold describes.
  repeat split; try is_copied.
  - intros kb Hkb.
    match goal with
    | H : assoc "size" kvs = Some ?v, Hc : forall n, ?v = JNum n -> _ |- _ =>
        rewrite H in Hkb; injection Hkb as ->; rewrite (Hc kb eq_refl)
    end.
    reflexivity.
  - cbn. congruence.
Qed.

Lemma Inventory_aggregate_describes server auth org kvs :
  returns (Inventory.aggregate server auth org (JObj kvs))
          (describes kvs (JStr "N/A")).
Proof.
  unfold Inventory.aggregate, Inventory.get_primary_language. track_fields.
  apply returns_ret. cbv beta in *. unfold describes.
  repeat split; try is_copied.
  - intros kb Hkb.
    match goal with
    | H : assoc "size" kvs = Some ?v, Hc : forall n, ?v = JNum n -> _ |- _ =>
        rewrite H in Hkb; injection Hkb as ->; rewrite (Hc kb eq_refl)
    end.
    reflexivity.
  - cbn. congruence.
Qed.

(** X20.  The descriptive columns of a row are the repository's own
    fields: name, visibility and the three dates are copied unchanged, a
    numeric [size] is shown in MB, and "Primary Language" is the
    [language] field when the record has that key, whatever its value
    ([None] included).  Only a record without the key gets the default,
    which is [""] in [fetch_repo_details.py] and ["N/A"] in
    [fetch_repo_details_inventory.py]. *)
Theorem row_describes_repository server auth api_fuel fuel org kvs w row w' :
  (Details.aggregate server auth api_fuel fuel org (JObj kvs) w = (Ret row, w') ->
   describes kvs (JStr "") row)
  /\ (Inventory.aggregate server auth org (JObj kvs) w = (Ret row, w') ->
      describes kvs (JStr "N/A") row).
Proof.
  split; intro Hrun.
  - exact (Details_aggregate_describes _ _ _ _ _ _ _ _ _ Hrun).
  - exact (Inventory_aggregate_describes _ _ _ _ _ _ _ Hrun).
Qed.

Lemma row_describes_repository_witness :
  describes plain_fields (JStr "")
    (row_of (fst (Details.aggregate github_mock "t" 2 2 "o" (JObj plain_fields)
                    (world0 0))))
  /\ describes plain_fields (JStr "N/A")
       (row_of (fst (Inventory.aggregate github_mock "t" "o" (JObj plain_fields)
                       (world0 0)))).
Proof.
  split.
  - apply (proj1 (row_describes_repository github_mock "t" 2%nat 2%nat "o"
             plain_fields (world0 0)
             (row_of (fst (Details.aggregate github_mock "t" 2 2 "o"
                             (JObj plain_fields) (world0 0))))
             (snd (Details.aggregate github_mock "t" 2 2 "o" (JObj plain_fields)
                     (world0 0))))).
    vm_compute. reflexivity.
  - apply (proj2 (row_describes_repository github_mock "t" 2%nat 2%nat "o"
             plain_fields (world0 0)
             (row_of (fst (Inventory.aggregate github_mock "t" "o"
                             (JObj plain_fields) (world0 0))))
             (snd (Inventory.aggregate github_mock "t" "o" (JObj plain_fields)
                     (world0 0))))).
    vm_compute. reflexivity.
Defined.
